(** * DecompressChunk: planner-side mapping and executor node

    A shallow embedding of TimescaleDB's DecompressChunk custom scan
    (planner.c and exec.c of tsl/src/nodes/decompress_chunk) together with
    the properties of it that the design document states.

    Conventions of the embedding:
    - C integers are [Z]; the width of a type is written out where the code
      depends on it ([DatumGetInt32], the 64 bit overflow checks, the [int]
      holding the memory context size).
    - [elog(ERROR)], [ereport(ERROR)] and [Ensure] abort the query; a function
      that can reach one returns in the [result] monad.
    - [Assert] is compiled out of production builds and is a no-op here; the
      places where an assertion is the only guard are pointed out.
    - PostgreSQL's catalogs and the codec registry are read-only inputs,
      gathered in the record [Catalog]. *)

From stdpp Require Import base list numbers strings option.

Open Scope Z_scope.

(** ** Errors *)

Inductive sqlstate : Type :=
| ERRCODE_INTERNAL_ERROR
| ERRCODE_NUMERIC_VALUE_OUT_OF_RANGE
| ERRCODE_FEATURE_NOT_SUPPORTED.

Inductive result (A : Type) : Type :=
| Ok (a : A)
| Raise (code : sqlstate) (msg : string).

Arguments Ok {A} a.
Arguments Raise {A} code msg.

#[global] Instance result_ret : MRet result := fun A a => Ok a.

#[global] Instance result_bind : MBind result :=
  fun A B f m => match m with Ok a => f a | Raise c s => Raise c s end.

#[global] Instance result_fmap : FMap result :=
  fun A B f m => match m with Ok a => Ok (f a) | Raise c s => Raise c s end.

(** [elog(ERROR, msg)]: the error code of a plain [elog] is the internal one. *)
Definition elog {A : Type} (msg : string) : result A :=
  Raise ERRCODE_INTERNAL_ERROR msg.

Definition ereport {A : Type} (code : sqlstate) (msg : string) : result A :=
  Raise code msg.

(** [Ensure(cond, msg)] of TimescaleDB: checked in every build. *)
Definition Ensure (cond : bool) (msg : string) : result unit :=
  if cond then Ok tt else elog msg.

Definition is_ok {A : Type} (r : result A) : bool :=
  match r with Ok _ => true | Raise _ _ => false end.

(** [foreach (lc, l) { ... }] with a body that may raise. *)
Fixpoint foreach {A S : Type} (body : S -> A -> result S) (l : list A) (s : S) : result S :=
  match l with
  | [] => Ok s
  | x :: rest => s' ← body s x; foreach body rest s'
  end.

(** ** Integers *)

(** Object identifiers and attribute numbers are integers. *)
Abbreviation Oid := Z (only parsing).
Abbreviation AttrNumber := Z (only parsing).
Definition InvalidOid : Oid := 0.
Definition InvalidAttrNumber : AttrNumber := 0.
Definition OidIsValid (o : Oid) : bool := negb (o =? InvalidOid).

Definition PG_INT32_MIN : Z := - 2 ^ 31.
Definition PG_INT32_MAX : Z := 2 ^ 31 - 1.
Definition PG_INT64_MIN : Z := - 2 ^ 63.
Definition PG_INT64_MAX : Z := 2 ^ 63 - 1.

(** Reduction of an integer to the two's complement range of [bits] bits. *)
Definition wrap_signed (bits : Z) (z : Z) : Z :=
  (z + 2 ^ (bits - 1)) mod 2 ^ bits - 2 ^ (bits - 1).

Definition in_int64 (z : Z) : bool := (PG_INT64_MIN <=? z) && (z <=? PG_INT64_MAX).

(** [pg_mul_s64_overflow(a, b, &r)] and [pg_add_s64_overflow(a, b, &r)] of
    PostgreSQL's common/int.h: [None] stands for the return value [true]
    (overflow, [r] not to be used), [Some r] for [false]. *)
Definition pg_mul_s64_overflow (a b : Z) : option Z :=
  if in_int64 (a * b) then Some (a * b) else None.

Definition pg_add_s64_overflow (a b : Z) : option Z :=
  if in_int64 (a + b) then Some (a + b) else None.

(** System attribute numbers of PostgreSQL's access/sysattr.h. *)
Definition SelfItemPointerAttributeNumber : AttrNumber := -1.
Definition TableOidAttributeNumber : AttrNumber := -6.
Definition FirstLowInvalidHeapAttributeNumber : AttrNumber := -7.

(** Function identifiers of utils/fmgroids.h. *)
Definition F_SUM_INT8 : Oid := 2107.
Definition F_SUM_INT4 : Oid := 2108.
Definition F_SUM_FLOAT4 : Oid := 2110.
Definition F_SUM_FLOAT8 : Oid := 2111.
Definition F_AVG_INT4 : Oid := 2101.

(** ** Expression trees

    The fragment of PostgreSQL's [Node] that scan qualifiers and target
    lists of this operator are made of. *)

#[local] Unset Elimination Schemes.

Inductive Node : Type :=
| T_Var (varno : Z) (varattno : AttrNumber) (vartype : Oid)
| T_Const (consttype : Oid) (constvalue : Z) (constisnull : bool)
| T_Param (paramid : Z)
| T_PlaceHolderVar (phexpr : Node)
| T_OpExpr (opno : Oid) (opfuncid : Oid) (args : list Node)
| T_FuncExpr (funcid : Oid) (args : list Node)
| T_RelabelType (arg : Node)
| T_Aggref (aggfnoid : Oid) (aggargs : list Node).

#[local] Set Elimination Schemes.

#[global] Instance Node_inhabited : Inhabited Node := populate (T_Param 0).

Definition is_Var (n : Node) : bool :=
  match n with T_Var _ _ _ => true | _ => false end.

Definition is_Const (n : Node) : bool :=
  match n with T_Const _ _ _ => true | _ => false end.

Definition is_null_Const (n : Node) : bool :=
  match n with T_Const _ _ true => true | _ => false end.

(** [DatumGetBool(X)] of postgres.h: [X != 0]. *)
Definition DatumGetBool (X : Z) : bool := negb (X =? 0).

Record TargetEntry : Type := mkTargetEntry {
  expr : Node;
  resno : AttrNumber }.

Inductive Volatility : Type :=
| PROVOLATILE_IMMUTABLE
| PROVOLATILE_STABLE
| PROVOLATILE_VOLATILE.

(** Identifier of an entry of the vector predicate registry. *)
Inductive VectorPredicate : Type :=
| vector_const_predicate (id : nat).

(** ** Catalog lookups

    What the planner and the executor read from PostgreSQL's system catalogs
    and from TimescaleDB's registries. *)

Record FormData_pg_attribute : Type := mkAttribute {
  pg_attname : string;
  atttypid : Oid }.

(** A relation is the list of its user attributes; the attribute with number
    [i + 1] is the element at index [i]. *)
Abbreviation Relation := (list FormData_pg_attribute) (only parsing).

Fixpoint get_attnum_from (rel : Relation) (name : string) (attno : AttrNumber) : AttrNumber :=
  match rel with
  | [] => InvalidAttrNumber
  | a :: rest =>
      if String.eqb (pg_attname a) name then attno
      else get_attnum_from rest name (attno + 1)
  end.

(** [get_attnum(relid, name)]: [InvalidAttrNumber] when there is no such column. *)
Definition get_attnum (rel : Relation) (name : string) : AttrNumber :=
  get_attnum_from rel name 1.

(** [get_attname(relid, attno, missing_ok)]: [None] when the attribute does not
    exist (an error at the call sites with [missing_ok = false]). *)
Definition get_attname (rel : Relation) (attno : AttrNumber) : option string :=
  if decide (0 < attno) then pg_attname <$> rel !! Z.to_nat (attno - 1) else None.

(** The columnar array a codec returns (arrow_c_data_interface.h), with the
    two buffers the operator reads: [buffers0] is the validity bitmap as
    64 bit words, [buffers1] the values. *)
Record ArrowArray : Type := mkArrowArray {
  arrow_length : Z;
  buffers0 : list Z;
  buffers1 : list Z }.

(** The header of a compressed column value and its opaque payload. *)
Record CompressedDataHeader : Type := mkCompressedData {
  compression_algorithm : Z;
  compressed_payload : list Z }.

(** A codec's bulk decompression function: the blob and the element type. *)
Definition DecompressAllFunction := CompressedDataHeader -> Oid -> ArrowArray.

Record Catalog : Type := mkCatalog {
  (* pg_operator.oprcom, InvalidOid when the operator has no commutator *)
  get_commutator : Oid -> Oid;
  (* pg_operator.oprcode *)
  get_opcode : Oid -> Oid;
  (* pg_proc.provolatile *)
  func_volatile : Oid -> Volatility;
  (* pg_proc.proisstrict *)
  func_strict : Oid -> bool;
  (* pg_type.typlen *)
  get_typlen : Oid -> Z;
  (* vector_predicates.h: the predicate registered for a function, if any *)
  get_vector_const_predicate : Oid -> option VectorPredicate;
  (* the codec registry: NULL ([None]) for an algorithm without bulk
     decompression *)
  tsl_get_decompress_all_function : Z -> option DecompressAllFunction }.

(** ** Bitmapsets

    A [Bitmapset] is the list of its members; the functions below only
    depend on the membership. *)

Abbreviation Bitmapset := (list Z) (only parsing).

Definition bms_is_member (x : Z) (a : Bitmapset) : bool := bool_decide (x ∈ a).

Definition bms_add_member (a : Bitmapset) (x : Z) : Bitmapset :=
  if bms_is_member x a then a else x :: a.

Definition bms_difference (a b : Bitmapset) : Bitmapset :=
  filter (fun x => x ∉ b) a.

(** [bms_next_member(a, prevbit)]: the smallest member greater than [prevbit],
    or -2 when there is none. *)
Definition bms_next_member (a : Bitmapset) (prevbit : Z) : Z :=
  foldr (fun x acc =>
           if decide (prevbit < x) then
             (if decide (acc = -2 \/ x < acc) then x else acc)
           else acc) (-2) a.

(** * The planner side (planner.c, decompress_chunk.h) *)

Module Planner.

(** ** Planner structures (decompress_chunk.h) *)

Record FormData_hypertable_compression : Type := mkCompression {
  attname : string;
  algo_id : Z;
  segmentby_column_index : Z;
  orderby_column_index : Z }.

Definition _INVALID_COMPRESSION_ALGORITHM : Z := 0.

Record DecompressChunkColumnCompression : Type := mkColumnCompression {
  fd : FormData_hypertable_compression;
  bulk_decompression_possible : bool }.

(** An entry of a [palloc0]-ed array that was never written. *)
Definition zero_column_compression : DecompressChunkColumnCompression :=
  mkColumnCompression (mkCompression "" 0 0 0) false.

Record CompressionInfo : Type := mkCompressionInfo {
  (* info->chunk_rel->relid and info->compressed_rel->relid *)
  chunk_rel_relid : Z;
  compressed_rel_relid : Z;
  (* chunk_rte->relid, then the relations behind chunk_rte, compressed_rte
     and ht_rte *)
  chunk_rte_relid : Oid;
  chunk_rte : Relation;
  compressed_rte : Relation;
  ht_rte : Relation;
  (* the columns of the hypertable the query selects *)
  selectedCols : Bitmapset;
  hypertable_id : Z;
  hypertable_compression_info : list FormData_hypertable_compression }.

Record DecompressChunkPath : Type := mkPath {
  (* custom_path.path.parent->reltarget->exprs *)
  reltarget_exprs : list Node;
  info : CompressionInfo;
  decompression_map : list Z;
  is_segmentby_column : list Z;
  bulk_decompression_column : list Z;
  have_bulk_decompression_columns : bool;
  uncompressed_chunk_attno_to_compression_info : list DecompressChunkColumnCompression;
  perform_vectorized_aggregation : bool;
  vectorized_aggregation_column : list Z;
  needs_sequence_num : bool;
  reverse : bool;
  batch_sorted_merge : bool }.

(** Modelled from the spec: the destination numbers of the two metadata
    columns are declared in a header that is not part of the sources at hand;
    the design fixes only that metadata kinds have a negative output position
    and that the two differ. *)
Definition DECOMPRESS_CHUNK_COUNT_ID : Z := -9.
Definition DECOMPRESS_CHUNK_SEQUENCE_NUM_ID : Z := -10.

(** Modelled from the spec: the names of the count and of the sequence number
    metadata columns of a compressed chunk. *)
Definition COMPRESSION_COLUMN_METADATA_COUNT_NAME : string := "_ts_meta_count".
Definition COMPRESSION_COLUMN_METADATA_SEQUENCE_NUM_NAME : string := "_ts_meta_sequence_num".

Definition bool_to_int (b : bool) : Z := if b then 1 else 0.

(** ** planner.c: the decompression map *)

(** [check_for_system_columns]: only [tableoid] may be selected among the
    system columns. *)
Definition check_for_system_columns (attrs_used : Bitmapset) : result unit :=
  let bit := bms_next_member attrs_used (-1) in
  if decide (bit > 0 /\ bit + FirstLowInvalidHeapAttributeNumber < 0) then
    (* we support tableoid so skip that *)
    let bit :=
      if decide (bit = TableOidAttributeNumber - FirstLowInvalidHeapAttributeNumber)
      then bms_next_member attrs_used bit else bit in
    if decide (bit > 0 /\ bit + FirstLowInvalidHeapAttributeNumber < 0) then
      elog "transparent decompression only supports tableoid system column"
    else Ok tt
  else Ok tt.

(** The helper array compressed attno -> compression info (lines 115-133):
    [max_attr + 1] null pointers, then one write per catalog row. *)
Fixpoint fill_compression_info (compressed : Relation)
    (rows : list FormData_hypertable_compression)
    (arr : list (option FormData_hypertable_compression))
    : result (list (option FormData_hypertable_compression)) :=
  match rows with
  | [] => Ok arr
  | row :: rest =>
      let compressed_attno := get_attnum compressed (attname row) in
      if decide (compressed_attno = InvalidAttrNumber) then
        elog "column not found in the compressed chunk"
      else
        fill_compression_info compressed rest (<[Z.to_nat compressed_attno := Some row]> arr)
  end.

Definition compressed_attno_to_compression_info (i : CompressionInfo)
    : result (list (option FormData_hypertable_compression)) :=
  fill_compression_info (compressed_rte i) (hypertable_compression_info i)
    (replicate (S (length (compressed_rte i))) None).

(** The local variables of [build_decompression_map] that the loop over the
    scan targetlist updates, next to the path itself. *)
Record MapBuild : Type := mkMapBuild {
  missing_count : bool;
  missing_sequence : bool;
  chunk_attrs_found : Bitmapset;
  mb_path : DecompressChunkPath }.

(** The type recorded for the aggregated column (lines 278-289). *)
Definition aggregation_column_entry (p : DecompressChunkPath) (dest : Z) : result (list Z) :=
  if perform_vectorized_aggregation p then
    match reltarget_exprs p with
    | T_Var _ agg_attno agg_type :: _ =>
        Ok [if decide (agg_attno = dest) then agg_type else -1]
    | _ =>
        (* Assert(list_length(exprs) == 1); the entry is read as a Var *)
        elog "vectorized aggregation without an aggregated Var"
    end
  else Ok [].

(** The body of the loop over the scan targetlist (lines 145-290). The
    retyping of the scan Var of a segmentby column from the hypertable
    (lines 195-202) changes nothing that the map is computed from and is left
    out. *)
Definition map_target_entry (cat : Catalog) (chunk_attrs_needed : Bitmapset)
    (cinfo : list (option FormData_hypertable_compression))
    (mb : MapBuild) (target : TargetEntry) : result MapBuild :=
  let path := mb_path mb in
  match expr target with
  | T_Var _ compressed_attno _ =>
      if decide (compressed_attno = InvalidAttrNumber) then
        elog "compressed scan targetlist must not have whole-row vars"
      else
        match get_attname (compressed_rte (info path)) compressed_attno with
        | None => elog "cache lookup failed for attribute of relation"
        | Some column_name =>
            let compression_info := mjoin (cinfo !! Z.to_nat compressed_attno) in
            let '(dest, found, mcount, mseq) :=
              match compression_info with
              | Some _ =>
                  (* Normal column, not a metadata column. *)
                  let chunk_attno := get_attnum (chunk_rte (info path)) column_name in
                  let bit := chunk_attno - FirstLowInvalidHeapAttributeNumber in
                  if bms_is_member (0 - FirstLowInvalidHeapAttributeNumber) chunk_attrs_needed
                  then (chunk_attno, bms_add_member (chunk_attrs_found mb) bit,
                        missing_count mb, missing_sequence mb)
                  else if bms_is_member bit chunk_attrs_needed
                  then (chunk_attno, bms_add_member (chunk_attrs_found mb) bit,
                        missing_count mb, missing_sequence mb)
                  else (0, chunk_attrs_found mb, missing_count mb, missing_sequence mb)
              | None =>
                  (* Metadata column. *)
                  if String.eqb column_name COMPRESSION_COLUMN_METADATA_COUNT_NAME
                  then (DECOMPRESS_CHUNK_COUNT_ID, chunk_attrs_found mb,
                        false, missing_sequence mb)
                  else if needs_sequence_num path &&
                          String.eqb column_name COMPRESSION_COLUMN_METADATA_SEQUENCE_NUM_NAME
                  then (DECOMPRESS_CHUNK_SEQUENCE_NUM_ID, chunk_attrs_found mb,
                        missing_count mb, false)
                  else (0, chunk_attrs_found mb, missing_count mb, missing_sequence mb)
              end in
            let segmentby :=
              match compression_info with
              | Some ci => negb (segmentby_column_index ci =? 0)
              | None => false
              end in
            let bulk_decompression_possible :=
              (0 <? dest) &&
              match compression_info with
              | Some ci => bool_decide (is_Some (tsl_get_decompress_all_function cat (algo_id ci)))
              | None => false
              end in
            let attno_info :=
              match compression_info with
              | Some ci =>
                  if 0 <? dest then
                    <[Z.to_nat dest := mkColumnCompression ci bulk_decompression_possible]>
                      (uncompressed_chunk_attno_to_compression_info path)
                  else uncompressed_chunk_attno_to_compression_info path
              | None => uncompressed_chunk_attno_to_compression_info path
              end in
            agg ← aggregation_column_entry path dest;
            Ok (mkMapBuild mcount mseq found
                  (mkPath (reltarget_exprs path) (info path)
                     (decompression_map path ++ [dest])
                     (is_segmentby_column path ++ [bool_to_int segmentby])
                     (bulk_decompression_column path ++ [bool_to_int bulk_decompression_possible])
                     (have_bulk_decompression_columns path || bulk_decompression_possible)
                     attno_info
                     (perform_vectorized_aggregation path)
                     (vectorized_aggregation_column path ++ agg)
                     (needs_sequence_num path) (reverse path) (batch_sorted_merge path)))
        end
  | _ => elog "compressed scan targetlist entries must be Vars"
  end.

(** The state of [build_decompression_map] before the loop: nothing of the
    metadata is found, [tableoid] is marked as found if it is needed (it is
    not in the targetlist), and the outputs of the path are reset. *)
Definition initial_map_build (path : DecompressChunkPath) (chunk_attrs_needed : Bitmapset)
    : MapBuild :=
  let tableoid_bit := TableOidAttributeNumber - FirstLowInvalidHeapAttributeNumber in
  mkMapBuild true (needs_sequence_num path)
    (if bms_is_member tableoid_bit chunk_attrs_needed then bms_add_member [] tableoid_bit else [])
    (mkPath (reltarget_exprs path) (info path) [] (is_segmentby_column path)
       (bulk_decompression_column path) false
       (replicate (S (length (chunk_rte (info path)))) zero_column_compression)
       (perform_vectorized_aggregation path) (vectorized_aggregation_column path)
       (needs_sequence_num path) (reverse path) (batch_sorted_merge path)).

(** [build_decompression_map]: the updated path, or the error raised. *)
Definition build_decompression_map (cat : Catalog) (path : DecompressChunkPath)
    (scan_tlist : list TargetEntry) (chunk_attrs_needed : Bitmapset)
    : result DecompressChunkPath :=
  _ ← check_for_system_columns (selectedCols (info path));
  cinfo ← compressed_attno_to_compression_info (info path);
  mb ← foreach (map_target_entry cat chunk_attrs_needed cinfo) scan_tlist
         (initial_map_build path chunk_attrs_needed);
  let attrs_not_found := bms_difference chunk_attrs_needed (chunk_attrs_found mb) in
  let bit := bms_next_member attrs_not_found (0 - FirstLowInvalidHeapAttributeNumber) in
  if decide (bit >= 0) then
    elog "column not found in the targetlist for compressed chunk"
  else if missing_count mb then
    elog "the count column was not found in the compressed targetlist"
  else if missing_sequence mb then
    elog "the sequence column was not found in the compressed scan targetlist"
  else Ok (mb_path mb).

(** ** planner.c: classification of the scan qualifiers *)

Definition contains_volatile_functions_checker (cat : Catalog) (func_id : Oid) : bool :=
  match func_volatile cat func_id with
  | PROVOLATILE_VOLATILE => true
  | _ => false
  end.

(** The function an [OpExpr] calls: [opfuncid] is a cache of [get_opcode(opno)]
    that [set_opfuncid] fills when it is [InvalidOid]. *)
Definition set_opfuncid (cat : Catalog) (opno opfuncid : Oid) : Oid :=
  if OidIsValid opfuncid then opfuncid else get_opcode cat opno.

(** [check_functions_in_node] of nodeFuncs.c on the node itself. *)
Definition check_functions_in_node (checker : Oid -> bool) (cat : Catalog) (node : Node) : bool :=
  match node with
  | T_Aggref aggfnoid _ => checker aggfnoid
  | T_FuncExpr funcid _ => checker funcid
  | T_OpExpr opno opfuncid _ => checker (set_opfuncid cat opno opfuncid)
  | _ => false
  end.

(** [expression_tree_walker] of nodeFuncs.c: the walker on every child. *)
Definition expression_tree_walker (walker : Node -> bool) (node : Node) : bool :=
  match node with
  | T_Var _ _ _ | T_Const _ _ _ | T_Param _ => false
  | T_PlaceHolderVar phexpr => walker phexpr
  | T_OpExpr _ _ args => existsb walker args
  | T_FuncExpr _ args => existsb walker args
  | T_RelabelType arg => walker arg
  | T_Aggref _ aggargs => existsb walker aggargs
  end.

Fixpoint is_not_runtime_constant_walker (cat : Catalog) (node : Node) : bool :=
  match node with
  | T_Var _ _ _ | T_PlaceHolderVar _ | T_Param _ => true
  | _ =>
      if check_functions_in_node (contains_volatile_functions_checker cat) cat node
      then true
      else expression_tree_walker (is_not_runtime_constant_walker cat) node
  end.

Definition is_not_runtime_constant (cat : Catalog) (node : Node) : bool :=
  is_not_runtime_constant_walker cat node.

(** [path->uncompressed_chunk_attno_to_compression_info[attno]]. The array
    is zero-initialised and has an entry for every attribute number of the
    chunk; an index outside of it reads as an unwritten entry here. *)
Definition column_compression_info (path : DecompressChunkPath) (attno : AttrNumber)
    : DecompressChunkColumnCompression :=
  default zero_column_compression
    (uncompressed_chunk_attno_to_compression_info path !! Z.to_nat attno).

(** [make_vectorized_qual]: the qual to evaluate on the columnar data, with
    the operator commuted if need be, or [None] for the C [NULL]. *)
Definition make_vectorized_qual (cat : Catalog) (path : DecompressChunkPath) (qual : Node)
    : option Node :=
  match qual with
  | T_OpExpr opno opfuncid [arg1; arg2] =>
      (* Try to commute the operator if the Var is on the right. *)
      let o :=
        if is_Var arg2 then
          let commutator_opno := get_commutator cat opno in
          if OidIsValid commutator_opno
          then (commutator_opno, InvalidOid, arg2, arg1)
          else (opno, opfuncid, arg1, arg2)
        else (opno, opfuncid, arg1, arg2) in
      let '(o_opno, o_opfuncid, first, second) := o in
      match first with
      | T_Var _ varattno _ =>
          if is_not_runtime_constant cat second then None
          else if negb (bulk_decompression_possible (column_compression_info path varattno))
          then None (* This column doesn't support bulk decompression. *)
          else
            let opcode := get_opcode cat o_opno in
            match get_vector_const_predicate cat opcode with
            | Some _ => Some (T_OpExpr o_opno o_opfuncid [first; second])
            | None => None
            end
      | _ => None
      end
  | _ => None
  end.

(** [find_vectorized_quals]: both lists are appended to. *)
Fixpoint find_vectorized_quals (cat : Catalog) (path : DecompressChunkPath)
    (qual_list : list Node) (vectorized nonvectorized : list Node)
    : list Node * list Node :=
  match qual_list with
  | [] => (vectorized, nonvectorized)
  | source_qual :: rest =>
      match make_vectorized_qual cat path source_qual with
      | Some vectorized_qual =>
          find_vectorized_quals cat path rest (vectorized ++ [vectorized_qual]) nonvectorized
      | None =>
          find_vectorized_quals cat path rest vectorized (nonvectorized ++ [source_qual])
      end
  end.

(** ** planner.c: the plan node *)

Inductive RequireVectorQual : Type :=
| RVQ_Allow
| RVQ_Forbid
| RVQ_Only.

(** The configuration switches (guc.h). [TS_DEBUG] tells whether the debug
    checks are compiled in. *)
Record GUC : Type := mkGUC {
  ts_guc_enable_bulk_decompression : bool;
  ts_guc_enable_vectorized_aggregation : bool;
  TS_DEBUG : bool;
  ts_guc_debug_require_vector_qual : RequireVectorQual;
  ts_guc_debug_require_batch_sorted_merge : bool }.

(** The [settings] integer list of [custom_private]. *)
Record Settings : Type := mkSettings {
  s_hypertable_id : Z;
  s_chunk_relid : Z;
  s_reverse : bool;
  s_batch_sorted_merge : bool;
  s_enable_bulk_decompression : bool;
  s_perform_vectorized_aggregation : bool }.

(** The fields of the [CustomScan] plan node that the executor reads. *)
Record CustomScan : Type := mkCustomScan {
  targetlist : list TargetEntry;
  custom_scan_tlist : list TargetEntry;
  (* scan.plan.qual: the quals left to the row-by-row evaluation *)
  plan_qual : list Node;
  (* custom_exprs = list_make1(vectorized_quals) *)
  custom_exprs : list (list Node);
  settings : Settings;
  cs_decompression_map : list Z;
  cs_is_segmentby_column : list Z;
  cs_bulk_decompression_column : list Z;
  cs_vectorized_aggregation_column : list Z;
  sort_options : list (list Z) }.

(** [decompress_chunk_plan_create] from the point where the qualifiers of the
    scan have been collected and rewritten to the columns of the chunk
    (line 634). [qual] is that list, [chunk_attrs_needed] the attributes that
    [pull_varattnos] finds in it and in the path target, [scan_tlist] the
    targetlist chosen for the compressed scan, and [heap_sort_info] the
    result of lines 697-844, which assemble the sort keys of the batch sorted
    merge from the pathkeys and are not unfolded here. *)
Definition decompress_chunk_plan_create (cat : Catalog) (guc : GUC)
    (dcpath : DecompressChunkPath) (decompressed_tlist : list TargetEntry)
    (qual : list Node) (scan_tlist : list TargetEntry) (chunk_attrs_needed : Bitmapset)
    (heap_sort_info : result (list (list Z))) : result CustomScan :=
  let custom_scan_tlist :=
    if perform_vectorized_aggregation dcpath then decompressed_tlist else [] in
  dcpath ← build_decompression_map cat dcpath scan_tlist chunk_attrs_needed;
  sort_options ← (if batch_sorted_merge dcpath then heap_sort_info else Ok []);
  let enable_bulk_decompression :=
    negb (batch_sorted_merge dcpath) &&
    ts_guc_enable_bulk_decompression guc &&
    have_bulk_decompression_columns dcpath in
  let '(vectorized_quals, plan_qual) :=
    if enable_bulk_decompression
    then find_vectorized_quals cat dcpath qual [] []
    else ([], qual) in
  _ ← (if TS_DEBUG guc then
         match ts_guc_debug_require_vector_qual guc with
         | RVQ_Forbid =>
             if decide (Z.of_nat (length vectorized_quals) > 0)
             then elog "debug: encountered vector quals when they are disabled"
             else Ok tt
         | RVQ_Only =>
             if decide (Z.of_nat (length plan_qual) > 0)
             then elog "debug: encountered non-vector quals when they are disabled"
             else Ok tt
         | RVQ_Allow => Ok tt
         end
       else Ok tt);
  Ok (mkCustomScan decompressed_tlist custom_scan_tlist plan_qual [vectorized_quals]
        (mkSettings (hypertable_id (info dcpath)) (chunk_rte_relid (info dcpath))
           (reverse dcpath) (batch_sorted_merge dcpath)
           enable_bulk_decompression (perform_vectorized_aggregation dcpath))
        (decompression_map dcpath) (is_segmentby_column dcpath)
        (bulk_decompression_column dcpath) (vectorized_aggregation_column dcpath)
        sort_options).

(** ** planner.c: rewriting the qualifiers to the columns of the chunk *)

(** The object identifier of the type [oid] (catalog/pg_type_d.h). *)
Definition OIDOID : Oid := 26.

(** A list of nodes under [expression_tree_mutator] with a mutator that may
    raise: the elements are rewritten from left to right and the first error
    ends the traversal. *)
Definition mutate_list {A B : Type} (mutator : A -> result B) : list A -> result (list B) :=
  fix go (l : list A) : result (list B) :=
    match l with
    | [] => Ok []
    | x :: rest => y ← mutator x; ys ← go rest; Ok (y :: ys)
    end.

(** [replace_compressed_vars]: a Var of the compressed chunk becomes the Var
    of the column of the same name of the chunk, and [tableoid] of the chunk
    the constant with the chunk's object identifier. *)
Fixpoint replace_compressed_vars (i : CompressionInfo) (node : Node) : result Node :=
  match node with
  | T_Var varno varattno vartype =>
      (* constify tableoid in quals *)
      if decide (varno = chunk_rel_relid i /\ varattno = TableOidAttributeNumber) then
        Ok (T_Const OIDOID (chunk_rte_relid i) false)
      (* If not to be replaced, we can just return the Var unmodified *)
      else if decide (varno <> compressed_rel_relid i) then Ok node
      else
        (* Create a decompressed Var to replace the compressed one *)
        match get_attname (compressed_rte i) varattno with
        | None => elog "cache lookup failed for attribute of relation"
        | Some colname =>
            let new_varattno := get_attnum (chunk_rte i) colname in
            if decide (new_varattno = InvalidAttrNumber)
            then elog "cannot find column on decompressed chunk"
            else Ok (T_Var (chunk_rel_relid i) new_varattno vartype)
        end
  | T_PlaceHolderVar _ => elog "ignoring placeholders"
  | T_Const _ _ _ | T_Param _ => Ok node
  | T_OpExpr opno opfuncid args =>
      args ← mutate_list (replace_compressed_vars i) args; Ok (T_OpExpr opno opfuncid args)
  | T_FuncExpr funcid args =>
      args ← mutate_list (replace_compressed_vars i) args; Ok (T_FuncExpr funcid args)
  | T_RelabelType arg =>
      arg ← replace_compressed_vars i arg; Ok (T_RelabelType arg)
  | T_Aggref aggfnoid aggargs =>
      aggargs ← mutate_list (replace_compressed_vars i) aggargs; Ok (T_Aggref aggfnoid aggargs)
  end.

(** The call on the list of the scan qualifiers (line 634). *)
Definition replace_compressed_vars_in_quals (i : CompressionInfo) (quals : list Node)
    : result (list Node) :=
  mutate_list (replace_compressed_vars i) quals.

(** ** planner.c: the sort keys of the batch sorted merge *)

(** [find_attr_pos_in_tlist]: the [resno] of the entry of the targetlist
    that is the Var of the attribute [pos]. *)
Fixpoint find_attr_pos_in_tlist (targetlist : list TargetEntry) (pos : AttrNumber)
    : result AttrNumber :=
  match targetlist with
  | [] => elog "Unable to locate var in targetlist"
  | target :: rest =>
      match expr target with
      | T_Var _ compressed_attno _ =>
          if decide (compressed_attno = pos) then Ok (resno target)
          else find_attr_pos_in_tlist rest pos
      | _ => elog "compressed scan targetlist entries must be Vars"
      end
  end.

(** A member of an equivalence class and a pathkey with the members of its
    class (pathnodes.h), as far as the planner reads them here. *)
Record EquivalenceMember : Type := mkMember {
  em_is_const : bool;
  em_relids : Bitmapset;
  em_expr : Node }.

Record PathKey : Type := mkPathKey {
  ec_members : list EquivalenceMember;
  pk_opfamily : Oid;
  pk_strategy : Z;
  pk_nulls_first : bool }.

Definition BTLessStrategyNumber : Z := 1.
Definition BTGreaterStrategyNumber : Z := 5.

(** What the construction of the sort keys reads from outside of planner.c:
    the operator families of the catalog, the collation of a Var (a field
    that [Node] does not carry here), and the names of the min and max
    metadata columns of an orderby column. *)
Record SortCatalog : Type := mkSortCatalog {
  (* get_opfamily_member(opfamily, lefttype, righttype, strategy) *)
  get_opfamily_member : Oid -> Oid -> Oid -> Z -> Oid;
  (* get_ordering_op_properties(opno): opfamily, opcintype and strategy *)
  get_ordering_op_properties : Oid -> option (Oid * Oid * Z);
  varcollid : Node -> Oid;
  column_segment_min_name : Z -> string;
  column_segment_max_name : Z -> string }.

(** [bms_get_singleton_member]: the member of a set with one member. *)
Definition bms_get_singleton_member (a : Bitmapset) : option Z :=
  match remove_dups a with
  | [x] => Some x
  | _ => None
  end.

(** The four parallel lists of [sort_options]. *)
Record SortOptions : Type := mkSortOptions {
  sort_col_idx : list Z;
  sort_ops : list Z;
  sort_collations : list Z;
  sort_nulls : list Z }.

(** The loop over the members of the equivalence class of a pathkey
    (lines 716-767): the first member that is not a constant and belongs to
    the chunk alone gives the sort key; [None] when no member does. *)
Fixpoint find_sort_member (sc : SortCatalog) (chunk_relid : Z) (pk : PathKey)
    (members : list EquivalenceMember) (so : SortOptions) : result (option SortOptions) :=
  match members with
  | [] => Ok None
  | em :: rest =>
      if em_is_const em then find_sort_member sc chunk_relid pk rest so
      else
        match bms_get_singleton_member (em_relids em) with
        | None => find_sort_member sc chunk_relid pk rest so
        | Some em_relid =>
            if decide (em_relid <> chunk_relid) then find_sort_member sc chunk_relid pk rest so
            else
              match em_expr em with
              | T_Var _ varattno vartype as var =>
                  (* Look up the correct sort operator from the PathKey *)
                  let sortop :=
                    get_opfamily_member sc (pk_opfamily pk) vartype vartype (pk_strategy pk) in
                  if OidIsValid sortop then
                    Ok (Some (mkSortOptions
                                (sort_col_idx so ++ [varattno])
                                (sort_ops so ++ [sortop])
                                (sort_collations so ++ [varcollid sc var])
                                (sort_nulls so ++ [bool_to_int (pk_nulls_first pk)])))
                  else elog "missing operator in opfamily"
              | _ => elog "non-Var pathkey not expected for compressed batch sorted mege"
              end
        end
  end.

(** The loop over the pathkeys (lines 707-772). *)
Definition add_sort_key (sc : SortCatalog) (chunk_relid : Z) (so : SortOptions) (pk : PathKey)
    : result SortOptions :=
  found ← find_sort_member sc chunk_relid pk (ec_members pk) so;
  match found with
  | Some so => Ok so
  | None =>
      elog "could not find matching decompressed chunk column for batch sorted merge pathkey"
  end.

Definition build_sort_options (sc : SortCatalog) (chunk_relid : Z) (pathkeys : list PathKey)
    : result SortOptions :=
  foreach (add_sort_key sc chunk_relid) pathkeys (mkSortOptions [] [] [] []).

(** A sort key of the Sort node put over the compressed scan. *)
Record CompressedSortKey : Type := mkCompressedSortKey {
  sortColIdx : AttrNumber;
  sortOperator : Oid;
  collation : Oid;
  nullsFirst : bool }.

(** [list_nth_oid(l, n)]; as for [list_nth_int], reading past the end raises
    here. *)
Definition list_nth_oid (l : list Z) (n : nat) : result Z :=
  match l !! n with
  | Some x => Ok x
  | None => elog "list index out of range"
  end.

(** One turn of the loop that derives the sort keys of the compressed
    batches (lines 786-832): key [i] sorts by the min or the max metadata
    column of orderby column [i + 1]. *)
Definition compressed_sort_key (sc : SortCatalog) (i : CompressionInfo)
    (compressed_tlist : list TargetEntry) (target_list_compressed_is_physical : bool)
    (so : SortOptions) (index : nat) : result CompressedSortKey :=
  sortop ← list_nth_oid (sort_ops so) index;
  (* Find the operator in pg_amop --- failure shouldn't happen *)
  match get_ordering_op_properties sc sortop with
  | None => elog "operator is not a valid ordering operator"
  | Some (_, _, strategy) =>
      let meta_col_name :=
        if decide (strategy = BTLessStrategyNumber)
        then column_segment_min_name sc (Z.of_nat index + 1)
        else column_segment_max_name sc (Z.of_nat index + 1) in
      let attr_position := get_attnum (compressed_rte i) meta_col_name in
      if decide (attr_position = InvalidAttrNumber) then
        elog "couldn't find metadata column"
      else
        idx ← (if target_list_compressed_is_physical then Ok attr_position
               else find_attr_pos_in_tlist compressed_tlist attr_position);
        coll ← list_nth_oid (sort_collations so) index;
        nulls ← list_nth_oid (sort_nulls so) index;
        Ok (mkCompressedSortKey idx sortop coll (negb (nulls =? 0)))
  end.

Definition compressed_sort_keys (sc : SortCatalog) (i : CompressionInfo)
    (compressed_tlist : list TargetEntry) (target_list_compressed_is_physical : bool)
    (so : SortOptions) (numsortkeys : nat) : result (list CompressedSortKey) :=
  mutate_list (compressed_sort_key sc i compressed_tlist target_list_compressed_is_physical so)
    (seq 0 numsortkeys).

(** Lines 697-844 for a path with the batch sorted merge: the sort options
    for the executor, once the sort keys of the compressed batches have been
    derived as well. *)
Definition heap_sort_info (sc : SortCatalog) (i : CompressionInfo) (pathkeys : list PathKey)
    (compressed_tlist : list TargetEntry) (target_list_compressed_is_physical : bool)
    : result (list (list Z)) :=
  so ← build_sort_options sc (chunk_rel_relid i) pathkeys;
  _ ← compressed_sort_keys sc i compressed_tlist target_list_compressed_is_physical so
        (length pathkeys);
  Ok [sort_col_idx so; sort_ops so; sort_collations so; sort_nulls so].

End Planner.

(** * The executor side (exec.c) *)

Module Exec.

(** ** Tuples and the child scan *)

(** A datum is passed by value, or points to a compressed column value. *)
Inductive Datum : Type :=
| ValueDatum (bits : Z)
| PointerDatum (header : CompressedDataHeader).

(** [DatumGetInt32]: the low 32 bits, read as a signed integer. *)
Definition DatumGetInt32 (d : Datum) : Z :=
  match d with
  | ValueDatum bits => wrap_signed 32 bits
  | PointerDatum _ => 0
  end.

(** A row of the compressed scan: attribute [i + 1] at index [i], [None] for
    an SQL null. *)
Abbreviation CompressedSlot := (list (option Datum)) (only parsing).

(** [slot_getattr(slot, attno, &isnull)]. *)
Definition slot_getattr (slot : CompressedSlot) (attno : AttrNumber) : result (Datum * bool) :=
  if decide (0 < attno) then
    match slot !! Z.to_nat (attno - 1) with
    | Some (Some d) => Ok (d, false)
    | Some None => Ok (ValueDatum 0, true)
    | None => elog "invalid attribute number"
    end
  else elog "invalid attribute number".

(** The child plan state: the rows it has yet to return, and how often
    [ExecProcNode] was called on it. *)
Record ChildScan : Type := mkChild {
  pending : list CompressedSlot;
  exec_calls : nat }.

Definition ExecProcNode (c : ChildScan) : option CompressedSlot * ChildScan :=
  match pending c with
  | [] => (None, mkChild [] (S (exec_calls c)))
  | slot :: rest => (Some slot, mkChild rest (S (exec_calls c)))
  end.

(** A virtual tuple slot of the decompressed scan. *)
Record TupleTableSlot : Type := mkSlot {
  tts_empty : bool;
  tts_values : list Z;
  tts_isnull : list bool }.

(** [TupIsNull]: a [NULL] pointer or an empty slot. *)
Definition TupIsNull (slot : option TupleTableSlot) : bool :=
  match slot with
  | None => true
  | Some s => tts_empty s
  end.

Definition ExecStoreAllNullTuple (s : TupleTableSlot) : TupleTableSlot :=
  mkSlot false (replicate (length (tts_values s)) 0) (replicate (length (tts_isnull s)) true).

Definition ExecClearTuple (s : TupleTableSlot) : TupleTableSlot :=
  mkSlot true (tts_values s) (tts_isnull s).

(** ** Column descriptions *)

Inductive DecompressChunkColumnType : Type :=
| SEGMENTBY_COLUMN
| COMPRESSED_COLUMN
| COUNT_COLUMN
| SEQUENCE_NUM_COLUMN.

#[global] Instance DecompressChunkColumnType_eq_dec : EqDecision DecompressChunkColumnType.
Proof. solve_decision. Defined.

Record DecompressChunkColumnDescription : Type := mkColumn {
  type : DecompressChunkColumnType;
  typid : Oid;
  value_bytes : Z;
  compressed_scan_attno : AttrNumber;
  output_attno : AttrNumber;
  bulk_decompression_supported : bool }.

(** An element of the [palloc0]-ed descriptor array before it is written. *)
Definition zero_column : DecompressChunkColumnDescription :=
  mkColumn SEGMENTBY_COLUMN 0 0 0 0 false.

#[global] Instance DecompressChunkColumnDescription_inhabited :
  Inhabited DecompressChunkColumnDescription := populate zero_column.

(** Sizes that depend on the platform and on headers outside of this file. *)
Record Platform : Type := mkPlatform {
  sizeof_pointer : Z;
  sizeof_ArrowArray : Z;
  sizeof_DecompressBatchState : Z;
  sizeof_CompressedColumnValues : Z;
  GLOBAL_MAX_ROWS_PER_COMPRESSION : Z }.

Definition sizeof_uint64 : Z := 8.

(** memutils.h *)
Definition ALLOCSET_DEFAULT_INITSIZE : Z := 8 * 1024.

(** The two batch queues. *)
Inductive BatchQueueKind : Type :=
| BatchQueueFunctionsFifo
| BatchQueueFunctionsHeap.

(** The operations of a batch queue (struct BatchQueueFunctions), for the
    operator they were created for, on the state [Q] of the queue.
    [batch_capacity] is the number of batch states that [create] allocates. *)
Record BatchQueueFunctions (Q : Type) : Type := mkQueue {
  batch_capacity : Z;
  create : Q;
  needs_next_batch : Q -> bool;
  pop : Q -> Q;
  push_batch : Q -> CompressedSlot -> result Q;
  reset : Q -> Q;
  top_tuple : Q -> option TupleTableSlot }.

Arguments mkQueue {Q}.
Arguments batch_capacity {Q} _.
Arguments create {Q} _.
Arguments needs_next_batch {Q} _ _.
Arguments pop {Q} _ _.
Arguments push_batch {Q} _ _ _.
Arguments reset {Q} _ _.
Arguments top_tuple {Q} _ _.

(** The executor's view of the rest of the system: both queue
    implementations, the constant folding of PostgreSQL under the bound
    parameters of the query, and the projection of the node, if it has one. *)
Record Executor (Q : Type) : Type := mkExecutor {
  fifo_queue : BatchQueueFunctions Q;
  heap_queue : BatchQueueFunctions Q;
  estimate_expression_value : Node -> Node;
  ps_ProjInfo : option (TupleTableSlot -> TupleTableSlot) }.

Arguments mkExecutor {Q}.
Arguments fifo_queue {Q} _.
Arguments heap_queue {Q} _.
Arguments estimate_expression_value {Q} _ _.
Arguments ps_ProjInfo {Q} _.

Definition queue_functions {Q : Type} (ex : Executor Q) (k : BatchQueueKind)
    : BatchQueueFunctions Q :=
  match k with
  | BatchQueueFunctionsFifo => fifo_queue ex
  | BatchQueueFunctionsHeap => heap_queue ex
  end.

(** ** The state of the node (DecompressChunkState) *)

Record DecompressChunkState (Q : Type) : Type := mkState {
  (* read from the plan by decompress_chunk_state_create *)
  decompression_map : list Z;
  is_segmentby_column : list Z;
  bulk_decompression_column : list Z;
  vectorized_aggregation_column : list Z;
  sortinfo : list (list Z);
  custom_scan_tlist : list TargetEntry;
  hypertable_id : Z;
  chunk_relid : Oid;
  reverse : bool;
  batch_sorted_merge : bool;
  enable_bulk_decompression : bool;
  perform_vectorized_aggregation : bool;
  vectorized_quals_original : list Node;
  (* standard fields set up by ExecInitCustomScan: the scan tuple slot and
     its tuple descriptor *)
  ss_ScanTupleSlot : TupleTableSlot;
  tts_tupleDescriptor : Relation;
  (* computed by decompress_chunk_begin *)
  n_sortkeys : Z;
  custom_ps : list ChildScan;
  num_compressed_columns : Z;
  num_total_columns : Z;
  template_columns : list DecompressChunkColumnDescription;
  n_batch_state_bytes : Z;
  batch_memory_context_bytes : Z;
  batch_queue : option BatchQueueKind;
  vectorized_quals_constified : list Node;
  have_constant_false_vectorized_qual : bool;
  (* the batch array and the queue *)
  n_batch_states : Z;
  unused_batch_states : Bitmapset;
  queue : option Q }.

Arguments mkState {Q}.
Arguments decompression_map {Q} _.
Arguments is_segmentby_column {Q} _.
Arguments bulk_decompression_column {Q} _.
Arguments vectorized_aggregation_column {Q} _.
Arguments sortinfo {Q} _.
Arguments custom_scan_tlist {Q} _.
Arguments hypertable_id {Q} _.
Arguments chunk_relid {Q} _.
Arguments reverse {Q} _.
Arguments batch_sorted_merge {Q} _.
Arguments enable_bulk_decompression {Q} _.
Arguments perform_vectorized_aggregation {Q} _.
Arguments vectorized_quals_original {Q} _.
Arguments ss_ScanTupleSlot {Q} _.
Arguments tts_tupleDescriptor {Q} _.
Arguments n_sortkeys {Q} _.
Arguments custom_ps {Q} _.
Arguments num_compressed_columns {Q} _.
Arguments num_total_columns {Q} _.
Arguments template_columns {Q} _.
Arguments n_batch_state_bytes {Q} _.
Arguments batch_memory_context_bytes {Q} _.
Arguments batch_queue {Q} _.
Arguments vectorized_quals_constified {Q} _.
Arguments have_constant_false_vectorized_qual {Q} _.
Arguments n_batch_states {Q} _.
Arguments unused_batch_states {Q} _.
Arguments queue {Q} _.

(** [decompress_chunk_state_create]: the private fields of the plan are
    copied, everything else is zero. [slot] and [desc] are the scan tuple slot
    and its descriptor, which ExecInitCustomScan sets up before
    [decompress_chunk_begin] runs. *)
Definition decompress_chunk_state_create {Q : Type} (cscan : Planner.CustomScan)
    (slot : TupleTableSlot) (desc : Relation) : DecompressChunkState Q :=
  let settings := Planner.settings cscan in
  mkState
    (Planner.cs_decompression_map cscan)
    (Planner.cs_is_segmentby_column cscan)
    (Planner.cs_bulk_decompression_column cscan)
    (Planner.cs_vectorized_aggregation_column cscan)
    (Planner.sort_options cscan)
    (Planner.custom_scan_tlist cscan)
    (Planner.s_hypertable_id settings)
    (Planner.s_chunk_relid settings)
    (Planner.s_reverse settings)
    (Planner.s_batch_sorted_merge settings)
    (Planner.s_enable_bulk_decompression settings)
    (Planner.s_perform_vectorized_aggregation settings)
    (* linitial(cscan->custom_exprs) *)
    (default [] (head (Planner.custom_exprs cscan)))
    slot desc
    0 [] 0 0 [] 0 0 None [] false 0 [] None.

(** ** decompress_chunk_begin *)

(** [list_nth_int(l, n)]. In C only an assertion guards the index, and
    [decompress_chunk_state_create] asserts that the parallel lists have one
    length; reading past the end raises here. *)
Definition list_nth_int (l : list Z) (n : nat) : result Z :=
  match l !! n with
  | Some x => Ok x
  | None => elog "list index out of range"
  end.

(** The first pass over the decompression map (lines 1237-1265): how many
    columns are decompressed at all, and how many of them are compressed. *)
Fixpoint count_columns (dest is_segmentby : list Z) (num_compressed num_total : Z) : Z * Z :=
  match dest, is_segmentby with
  | output_attno :: dest', segmentby :: is_segmentby' =>
      if decide (output_attno = 0) then
        (* We are asked not to decompress this column, skip it. *)
        count_columns dest' is_segmentby' num_compressed num_total
      else
        count_columns dest' is_segmentby'
          (if decide (output_attno > 0 /\ segmentby = 0)
           then num_compressed + 1 else num_compressed)
          (num_total + 1)
  | _, _ => (num_compressed, num_total)
  end.

(** The descriptor of the column at [compressed_index] of the scan
    targetlist (lines 1283-1335), [None] for a column that is not
    decompressed. *)
Definition describe_column {Q : Type} (cat : Catalog) (st : DecompressChunkState Q)
    (compressed_index : nat) : result (option DecompressChunkColumnDescription) :=
  let compressed_scan_attno := Z.of_nat compressed_index + 1 in
  output_attno ← list_nth_int (decompression_map st) compressed_index;
  bulk ← list_nth_int (bulk_decompression_column st) compressed_index;
  let bulk_decompression_supported := negb (bulk =? 0) in
  if decide (output_attno = 0) then Ok None
  else if decide (output_attno > 0) then
    agg_type ← (if perform_vectorized_aggregation st
                then list_nth_int (vectorized_aggregation_column st) compressed_index
                else Ok (-1));
    '(typid, value_bytes) ←
      (if perform_vectorized_aggregation st && negb (agg_type =? -1) then
         (* the type of the aggregated column; value_bytes stays zero *)
         Ok (agg_type, 0)
       else
         (* normal column that is also present in decompressed chunk *)
         match tts_tupleDescriptor st !! Z.to_nat (output_attno - 1) with
         | Some attribute => Ok (atttypid attribute, get_typlen cat (atttypid attribute))
         | None => elog "attribute number out of the range of the tuple descriptor"
         end);
    segmentby ← list_nth_int (is_segmentby_column st) compressed_index;
    Ok (Some (mkColumn (if decide (segmentby = 0) then COMPRESSED_COLUMN else SEGMENTBY_COLUMN)
                typid value_bytes compressed_scan_attno output_attno
                bulk_decompression_supported))
  else if decide (output_attno = Planner.DECOMPRESS_CHUNK_COUNT_ID) then
    Ok (Some (mkColumn COUNT_COLUMN 0 0 compressed_scan_attno output_attno
                bulk_decompression_supported))
  else if decide (output_attno = Planner.DECOMPRESS_CHUNK_SEQUENCE_NUM_ID) then
    Ok (Some (mkColumn SEQUENCE_NUM_COLUMN 0 0 compressed_scan_attno output_attno
                bulk_decompression_supported))
  else elog "Invalid column attno".

(** The array under construction with its two write positions. *)
Record TemplateBuild : Type := mkTemplateBuild {
  columns : list DecompressChunkColumnDescription;
  current_compressed : Z;
  current_not_compressed : Z }.

(** One iteration of the second pass (lines 1280-1347): compressed columns
    are written from the front, all others from [num_compressed] on. Both
    positions stay inside the array by the count of the first pass, which C
    only asserts. *)
Definition place_column {Q : Type} (cat : Catalog) (st : DecompressChunkState Q)
    (tb : TemplateBuild) (compressed_index : nat) : result TemplateBuild :=
  column ← describe_column cat st compressed_index;
  match column with
  | None => Ok tb
  | Some column =>
      if decide (type column = COMPRESSED_COLUMN) then
        Ok (mkTemplateBuild (<[Z.to_nat (current_compressed tb) := column]> (columns tb))
              (current_compressed tb + 1) (current_not_compressed tb))
      else
        Ok (mkTemplateBuild (<[Z.to_nat (current_not_compressed tb) := column]> (columns tb))
              (current_compressed tb) (current_not_compressed tb + 1))
  end.

Definition build_template_columns {Q : Type} (cat : Catalog) (st : DecompressChunkState Q)
    (num_compressed num_total : Z) : result TemplateBuild :=
  foreach (place_column cat st) (seq 0 (length (decompression_map st)))
    (mkTemplateBuild (replicate (Z.to_nat num_total) zero_column) 0 num_compressed).

(** A C [int]. *)
Definition int32 (z : Z) : Z := wrap_signed 32 z.

(** The allowance for the validity bitmap of one column (lines 1376-1377). *)
Definition nulls_bitmap_bytes (pf : Platform) : Z :=
  Z.quot (GLOBAL_MAX_ROWS_PER_COMPRESSION pf) (64 * sizeof_uint64).

(** The four additions for one column that supports bulk decompression
    (lines 1372-1382), each stored back into the [int]. *)
Definition add_column_bytes (pf : Platform) (bytes : Z)
    (column : DecompressChunkColumnDescription) : Z :=
  if bulk_decompression_supported column then
    (* Values array, with 64 element padding. *)
    let bytes := int32 (bytes + (GLOBAL_MAX_ROWS_PER_COMPRESSION pf + 64) * value_bytes column) in
    (* Also nulls bitmap. *)
    let bytes := int32 (bytes + nulls_bitmap_bytes pf) in
    (* Arrow data structure. *)
    let bytes := int32 (bytes + (sizeof_ArrowArray pf + sizeof_pointer pf * 2)) in
    (* Memory context header overhead for the above parts. *)
    int32 (bytes + sizeof_pointer pf * 3)
  else bytes.

(** The desired size of the batch memory context (lines 1364-1393). *)
Definition compute_batch_memory_context_bytes (pf : Platform) (enable_bulk_decompression : bool)
    (template_columns : list DecompressChunkColumnDescription) : Z :=
  (* Start with the default size. *)
  let bytes := ALLOCSET_DEFAULT_INITSIZE in
  let bytes :=
    if enable_bulk_decompression
    then foldl (add_column_bytes pf) bytes template_columns
    else bytes in
  (* Round up to even number of 4k pages. *)
  let bytes := int32 (int32 (Z.quot (int32 (bytes + 4095)) 4096) * 4096) in
  (* As a precaution, limit it to 1MB. *)
  Z.min bytes (1 * 1024 * 1024).

(** The datum that the pointer to a node converts to. A node is an
    allocated object, so the pointer is not null and the datum not zero;
    which address it is plays no role. *)
Definition PointerGetDatum (n : Node) : Z := 1.

(** The loop that constifies the vectorized predicates (lines 1430-1464):
    whether a qual was found that no row can pass, and the list of the
    constified quals. The test of a [Const] at line 1443 reads
    [c->constisnull || !DatumGetBool(c)], with the pointer [c] itself as the
    argument of [DatumGetBool]. *)
Fixpoint constify_vectorized_quals (estimate : Node -> Node) (quals : list Node)
    (constified_quals : list Node) : result (bool * list Node) :=
  match quals with
  | [] => Ok (false, constified_quals)
  | qual :: rest =>
      match estimate qual with
      | T_Const _ _ constisnull as c =>
          if constisnull || negb (DatumGetBool (PointerGetDatum c)) then
            (* have_constant_false_vectorized_qual = true; break; *)
            Ok (true, constified_quals)
          else
            (* "a constant true qual": Assert(false); continue; *)
            constify_vectorized_quals estimate rest constified_quals
      | T_OpExpr _ _ args as constified =>
          _ ← Ensure (match args with _ :: second :: _ => is_Const second | _ => false end)
                "failed to evaluate runtime constant in vectorized filter";
          constify_vectorized_quals estimate rest (constified_quals ++ [constified])
      | _ => elog "unexpected node type of a constified vectorized qual"
      end
  end.

(** Modelled from the spec: batch_array.c is not among the sources at hand.
    Every batch state of a newly created queue is unused, taking a free slot
    marks the lowest unused one as used, and a rescan frees them all. *)
Definition batch_array_create (n : Z) : Bitmapset := seqZ 0 n.

Definition batch_array_get_free_slot (unused : Bitmapset) : Z * Bitmapset :=
  let next_free_batch := bms_next_member unused (-1) in
  (next_free_batch, filter (fun i => i ≠ next_free_batch) unused).

Definition bms_num_members (a : Bitmapset) : Z := Z.of_nat (length (remove_dups a)).

(** The fields that [decompress_chunk_begin] assigns. *)
Definition set_initialised {Q : Type} (node : DecompressChunkState Q)
    (child : ChildScan) (num_compressed num_total : Z)
    (columns : list DecompressChunkColumnDescription) (n_batch_state_bytes bytes : Z)
    (kind : BatchQueueKind) (batch_queue : BatchQueueFunctions Q)
    (constified : list Node) (constant_false : bool) : DecompressChunkState Q :=
  mkState
    (decompression_map node) (is_segmentby_column node) (bulk_decompression_column node)
    (vectorized_aggregation_column node) (sortinfo node) (custom_scan_tlist node)
    (hypertable_id node) (chunk_relid node) (reverse node) (batch_sorted_merge node)
    (enable_bulk_decompression node) (perform_vectorized_aggregation node)
    (vectorized_quals_original node) (ss_ScanTupleSlot node) (tts_tupleDescriptor node)
    (* build_batch_sorted_merge_info *)
    (match sortinfo node with
     | [] => 0
     | sort_col_idx :: _ => Z.of_nat (length sort_col_idx)
     end)
    (custom_ps node ++ [child]) num_compressed num_total columns
    n_batch_state_bytes bytes (Some kind) constified constant_false
    (batch_capacity batch_queue) (batch_array_create (batch_capacity batch_queue))
    (Some (create batch_queue)).

(** [decompress_chunk_begin]. [compressed_scan] is the state that
    [ExecInitNode] returns for the child plan. The replacement of [tableoid]
    in a projecting targetlist (lines 1194-1218) happens before anything
    below and is part of [ps_ProjInfo]. *)
Definition decompress_chunk_begin {Q : Type} (cat : Catalog) (pf : Platform) (guc : Planner.GUC)
    (ex : Executor Q) (node : DecompressChunkState Q) (compressed_scan : ChildScan)
    : result (DecompressChunkState Q) :=
  let '(num_compressed, num_total) :=
    count_columns (decompression_map node) (is_segmentby_column node) 0 0 in
  tb ← build_template_columns cat node num_compressed num_total;
  let n_batch_state_bytes :=
    sizeof_DecompressBatchState pf + sizeof_CompressedColumnValues pf * num_compressed in
  let bytes :=
    compute_batch_memory_context_bytes pf (enable_bulk_decompression node) (columns tb) in
  (* heap for batch sorted merge, and one-element FIFO for normal decompression *)
  let kind :=
    if batch_sorted_merge node then BatchQueueFunctionsHeap else BatchQueueFunctionsFifo in
  let batch_queue := queue_functions ex kind in
  _ ← (if Planner.ts_guc_debug_require_batch_sorted_merge guc && negb (batch_sorted_merge node)
       then elog "debug: batch sorted merge is required but not used"
       else Ok tt);
  '(constant_false, constified) ←
    constify_vectorized_quals (estimate_expression_value ex)
      (vectorized_quals_original node) (vectorized_quals_constified node);
  Ok (set_initialised node compressed_scan num_compressed num_total (columns tb)
        n_batch_state_bytes bytes kind batch_queue constified constant_false).

(** The fields that change while the node runs: the scan tuple slot, the
    child, the set of unused batch states and the queue. *)
Definition set_running {Q : Type} (st : DecompressChunkState Q) (slot : TupleTableSlot)
    (children : list ChildScan) (unused : Bitmapset) (q : option Q)
    : DecompressChunkState Q :=
  mkState
    (decompression_map st) (is_segmentby_column st) (bulk_decompression_column st)
    (vectorized_aggregation_column st) (sortinfo st) (custom_scan_tlist st)
    (hypertable_id st) (chunk_relid st) (reverse st) (batch_sorted_merge st)
    (enable_bulk_decompression st) (perform_vectorized_aggregation st)
    (vectorized_quals_original st) slot (tts_tupleDescriptor st) (n_sortkeys st)
    children (num_compressed_columns st) (num_total_columns st) (template_columns st)
    (n_batch_state_bytes st) (batch_memory_context_bytes st) (batch_queue st)
    (vectorized_quals_constified st) (have_constant_false_vectorized_qual st)
    (n_batch_states st) unused q.

(** ** Vectorized aggregation *)

(** Modelled from the spec: arrow_c_data_interface.h is not among the sources
    at hand. Bit [i] of the validity bitmap is set iff element [i] is not
    null; the bitmap is an array of 64 bit words. *)
Definition arrow_row_is_valid (bitmap : list Z) (row_number : Z) : bool :=
  Z.testbit (bitmap !!! Z.to_nat (row_number / 64)) (row_number mod 64).

(** [PG_DETOAST_DATUM]: the datum of a compressed column is a pointer. *)
Definition PG_DETOAST_DATUM (d : Datum) : result CompressedDataHeader :=
  match d with
  | PointerDatum header => Ok header
  | ValueDatum _ => elog "compressed column value is not a varlena pointer"
  end.

(** The loop over the rows of a decompressed column (lines 1624-1634); the
    additions are on [int64] without a check. *)
Definition sum_arrow_values (arrow : ArrowArray) : Z :=
  foldl (fun batch_sum i =>
           let arrow_isnull := negb (arrow_row_is_valid (buffers0 arrow) i) in
           if negb arrow_isnull then
             let arrow_value := wrap_signed 32 (buffers1 arrow !!! Z.to_nat i) in
             wrap_signed 64 (batch_sum + arrow_value)
           else batch_sum)
        0 (seqZ 0 (arrow_length arrow)).

(** What the loops of [perform_vectorized_sum_int4] carry from one batch to
    the next: the null flag of the result attribute and the sum. Every turn
    of a loop starts with [ExecProcNode] on the child, which is the [match]
    on the rows the child still has; [calls] counts these calls. *)
Record SumState : Type := mkSum {
  sum_child : ChildScan;
  result_isnull : bool;
  result_sum : Z }.

Definition out_of_range {A : Type} : result A :=
  ereport ERRCODE_NUMERIC_VALUE_OUT_OF_RANGE "bigint out of range".

(** The loop for a segmentby column (lines 1521-1568). *)
Fixpoint sum_segmentby_batches (value_attno count_attno : AttrNumber)
    (rows : list CompressedSlot) (calls : nat) (isnull : bool) (result_sum : Z)
    : result SumState :=
  match rows with
  | [] =>
      (* All segment by values are processed. *)
      Ok (mkSum (mkChild [] (S calls)) isnull result_sum)
  | compressed_slot :: rest =>
      '(value, isnull_value) ← slot_getattr compressed_slot value_attno;
      '(elements, isnull_elements) ← slot_getattr compressed_slot count_attno;
      if negb isnull_value && negb isnull_elements then
        let intvalue := DatumGetInt32 value in
        let amount := DatumGetInt32 elements in
        (* Multiply the number of tuples with the actual value *)
        match pg_mul_s64_overflow intvalue amount with
        | None => out_of_range
        | Some batch_sum =>
            (* Add the value to our sum *)
            match pg_add_s64_overflow result_sum batch_sum with
            | None => out_of_range
            | Some result_sum =>
                sum_segmentby_batches value_attno count_attno rest (S calls) false result_sum
            end
        end
      else
        sum_segmentby_batches value_attno count_attno rest (S calls) isnull result_sum
  end.

(** The loop for a compressed column (lines 1576-1640). *)
Fixpoint sum_compressed_batches (cat : Catalog) (column : DecompressChunkColumnDescription)
    (rows : list CompressedSlot) (calls : nat) (isnull : bool) (result_sum : Z)
    : result SumState :=
  match rows with
  | [] =>
      (* All compressed batches are processed. *)
      Ok (mkSum (mkChild [] (S calls)) isnull result_sum)
  | compressed_slot :: rest =>
      '(value, value_isnull) ← slot_getattr compressed_slot (compressed_scan_attno column);
      _ ← Ensure (negb value_isnull) "got unexpected NULL attribute value from compressed batch";
      (* "We have at least one value": tts_isnull[0] = false *)
      header ← PG_DETOAST_DATUM value;
      match tsl_get_decompress_all_function cat (compression_algorithm header) with
      | None => elog "no bulk decompression function for the compression algorithm"
      | Some decompress_all =>
          let arrow := decompress_all header (typid column) in
          let batch_sum := sum_arrow_values arrow in
          match pg_add_s64_overflow result_sum batch_sum with
          | None => out_of_range
          | Some result_sum =>
              sum_compressed_batches cat column rest (S calls) false result_sum
          end
      end
  end.

(** [perform_vectorized_sum_int4]: the scan tuple slot with the partial sum,
    and the state after the child has been read to its end. *)
Definition perform_vectorized_sum_int4 {Q : Type} (cat : Catalog)
    (chunk_state : DecompressChunkState Q)
    : result (TupleTableSlot * DecompressChunkState Q) :=
  let column_description := template_columns chunk_state !!! 0%nat in
  (* Get a free batch slot *)
  let '(new_batch_index, unused) :=
    batch_array_get_free_slot (unused_batch_states chunk_state) in
  (* Set all attributes of the result tuple to NULL. *)
  let decompressed_scan_slot := ExecStoreAllNullTuple (ss_ScanTupleSlot chunk_state) in
  match custom_ps chunk_state with
  | [] => elog "no child plan state"
  | child :: others =>
      sum ←
        match type column_description with
        | SEGMENTBY_COLUMN =>
            let column_description_count := template_columns chunk_state !!! 1%nat in
            sum_segmentby_batches (compressed_scan_attno column_description)
              (compressed_scan_attno column_description_count)
              (pending child) (exec_calls child) true 0
        | COMPRESSED_COLUMN =>
            sum_compressed_batches cat column_description
              (pending child) (exec_calls child) true 0
        | _ => elog "unsupported column type"
        end;
      let slot :=
        mkSlot false
          (<[0%nat := result_sum sum]> (tts_values decompressed_scan_slot))
          (<[0%nat := result_isnull sum]> (tts_isnull decompressed_scan_slot)) in
      Ok (slot, set_running chunk_state slot (sum_child sum :: others) unused (queue chunk_state))
  end.

(** [perform_vectorized_aggregation]: only one result tuple is produced; once
    a batch state is in use the aggregation was already performed and the
    cleared slot is returned. *)
Definition perform_vectorized_aggregation_impl {Q : Type} (cat : Catalog)
    (chunk_state : DecompressChunkState Q)
    : result (TupleTableSlot * DecompressChunkState Q) :=
  if decide (bms_num_members (unused_batch_states chunk_state) ≠ n_batch_states chunk_state)
  then
    let slot := ExecClearTuple (ss_ScanTupleSlot chunk_state) in
    Ok (slot, set_running chunk_state slot (custom_ps chunk_state)
                (unused_batch_states chunk_state) (queue chunk_state))
  else
    (* Determine which kind of vectorized aggregation we should perform *)
    match custom_scan_tlist chunk_state with
    | mkTargetEntry (T_Aggref aggfnoid _) _ :: _ =>
        if decide (aggfnoid = F_SUM_INT4) then perform_vectorized_sum_int4 cat chunk_state
        else ereport ERRCODE_FEATURE_NOT_SUPPORTED
               "vectorized aggregation for function is not supported"
    | _ => elog "the target of a vectorized aggregation is not an Aggref"
    end.

(** The loop of [decompress_chunk_exec_impl] that feeds the queue
    (lines 1721-1731), by recursion on the rows the child still has. *)
Fixpoint feed_queue {Q : Type} (batch_queue : BatchQueueFunctions Q) (q : Q)
    (rows : list CompressedSlot) (calls : nat) : result (Q * ChildScan) :=
  if needs_next_batch batch_queue q then
    match rows with
    | [] =>
        (* Won't have more compressed tuples. *)
        Ok (q, mkChild [] (S calls))
    | subslot :: rest =>
        q ← push_batch batch_queue q subslot;
        feed_queue batch_queue q rest (S calls)
    end
  else Ok (q, mkChild rows calls).

(** [decompress_chunk_exec_impl]: the tuple returned ([None] for [NULL]) and
    the state after the call. *)
Definition decompress_chunk_exec_impl {Q : Type} (cat : Catalog) (ex : Executor Q)
    (chunk_state : DecompressChunkState Q) (batch_queue : BatchQueueFunctions Q)
    : result (option TupleTableSlot * DecompressChunkState Q) :=
  if perform_vectorized_aggregation chunk_state then
    '(slot, chunk_state) ← perform_vectorized_aggregation_impl cat chunk_state;
    Ok (Some slot, chunk_state)
  else if have_constant_false_vectorized_qual chunk_state then
    Ok (None, chunk_state)
  else
    match queue chunk_state, custom_ps chunk_state with
    | Some q, child :: others =>
        let q := pop batch_queue q in
        '(q, child) ← feed_queue batch_queue q (pending child) (exec_calls child);
        let result_slot := top_tuple batch_queue q in
        let chunk_state :=
          set_running chunk_state (ss_ScanTupleSlot chunk_state) (child :: others)
            (unused_batch_states chunk_state) (Some q) in
        if TupIsNull result_slot then Ok (None, chunk_state)
        else
          match ps_ProjInfo ex with
          | Some ExecProject => Ok (ExecProject <$> result_slot, chunk_state)
          | None => Ok (result_slot, chunk_state)
          end
    | _, _ => elog "the node was not initialised"
    end.

Definition decompress_chunk_exec_fifo {Q : Type} (cat : Catalog) (ex : Executor Q)
    (node : DecompressChunkState Q) :=
  decompress_chunk_exec_impl cat ex node (fifo_queue ex).

Definition decompress_chunk_exec_heap {Q : Type} (cat : Catalog) (ex : Executor Q)
    (node : DecompressChunkState Q) :=
  decompress_chunk_exec_impl cat ex node (heap_queue ex).

(** [ExecCustomScan] as [decompress_chunk_begin] sets it. *)
Definition ExecCustomScan {Q : Type} (cat : Catalog) (ex : Executor Q)
    (node : DecompressChunkState Q)
    : result (option TupleTableSlot * DecompressChunkState Q) :=
  match batch_queue node with
  | Some BatchQueueFunctionsHeap => decompress_chunk_exec_heap cat ex node
  | Some BatchQueueFunctionsFifo => decompress_chunk_exec_fifo cat ex node
  | None => elog "ExecCustomScan is not set"
  end.

(** A sequence of [n] calls of the node: the tuples returned, in order, and
    the final state; the first error ends it. *)
Fixpoint exec_many {Q : Type} (cat : Catalog) (ex : Executor Q) (n : nat)
    (node : DecompressChunkState Q)
    : result (list (option TupleTableSlot) * DecompressChunkState Q) :=
  match n with
  | O => Ok ([], node)
  | S n' =>
      '(slot, node) ← ExecCustomScan cat ex node;
      '(slots, node) ← exec_many cat ex n' node;
      Ok (slot :: slots, node)
  end.

(** The number of [ExecProcNode] calls made on the child so far. *)
Definition child_exec_calls {Q : Type} (node : DecompressChunkState Q) : nat :=
  match custom_ps node with
  | child :: _ => exec_calls child
  | [] => O
  end.

(** ** exec.c: [tableoid] in a projecting targetlist *)

(** A list of nodes under [expression_tree_mutator] with a mutator that
    updates its context and may raise. *)
Definition mutate_list_with {A C : Type} (mutator : A -> C -> result (A * C))
    : list A -> C -> result (list A * C) :=
  fix go (l : list A) (ctx : C) : result (list A * C) :=
    match l with
    | [] => Ok ([], ctx)
    | x :: rest =>
        '(y, ctx) ← mutator x ctx;
        '(ys, ctx) ← go rest ctx;
        Ok (y :: ys, ctx)
    end.

(** [constify_tableoid_walker]: [made_changes] is the flag of the context,
    [chunk_index] and [chunk_relid] its two constant fields. *)
Fixpoint constify_tableoid_walker (chunk_index : Z) (chunk_relid : Oid) (node : Node)
    (made_changes : bool) : result (Node * bool) :=
  match node with
  | T_Var varno varattno _ =>
      if decide (varno <> chunk_index) then Ok (node, made_changes)
      else if decide (varattno = TableOidAttributeNumber) then
        Ok (T_Const Planner.OIDOID chunk_relid false, true)
      (* we doublecheck system columns here because projection will segfault
         if any system columns get through *)
      else if decide (varattno < SelfItemPointerAttributeNumber) then
        elog "transparent decompression only supports tableoid system column"
      else Ok (node, made_changes)
  | T_Const _ _ _ | T_Param _ => Ok (node, made_changes)
  | T_PlaceHolderVar phexpr =>
      '(phexpr, made_changes) ←
        constify_tableoid_walker chunk_index chunk_relid phexpr made_changes;
      Ok (T_PlaceHolderVar phexpr, made_changes)
  | T_OpExpr opno opfuncid args =>
      '(args, made_changes) ←
        mutate_list_with (constify_tableoid_walker chunk_index chunk_relid) args made_changes;
      Ok (T_OpExpr opno opfuncid args, made_changes)
  | T_FuncExpr funcid args =>
      '(args, made_changes) ←
        mutate_list_with (constify_tableoid_walker chunk_index chunk_relid) args made_changes;
      Ok (T_FuncExpr funcid args, made_changes)
  | T_RelabelType arg =>
      '(arg, made_changes) ← constify_tableoid_walker chunk_index chunk_relid arg made_changes;
      Ok (T_RelabelType arg, made_changes)
  | T_Aggref aggfnoid aggargs =>
      '(aggargs, made_changes) ←
        mutate_list_with (constify_tableoid_walker chunk_index chunk_relid) aggargs
          made_changes;
      Ok (T_Aggref aggfnoid aggargs, made_changes)
  end.

(** The walker on an entry of a targetlist: the expression is rewritten. *)
Definition constify_tableoid_entry (chunk_index : Z) (chunk_relid : Oid) (target : TargetEntry)
    (made_changes : bool) : result (TargetEntry * bool) :=
  '(e, made_changes) ←
    constify_tableoid_walker chunk_index chunk_relid (expr target) made_changes;
  Ok (mkTargetEntry e (resno target), made_changes).

(** [constify_tableoid]: the rewritten targetlist, or the targetlist itself
    when the walker made no change. *)
Definition constify_tableoid (tlist : list TargetEntry) (chunk_index : Z) (chunk_relid : Oid)
    : result (list TargetEntry) :=
  '(modified_tlist, made_changes) ←
    mutate_list_with (constify_tableoid_entry chunk_index chunk_relid) tlist false;
  if (made_changes : bool) then Ok modified_tlist else Ok tlist.

(** ** exec.c: the sort keys of the heap *)

(** The fields of [SortSupportData] that [build_batch_sorted_merge_info]
    sets, and the ordering operator that [PrepareSortSupportFromOrderingOp]
    is called with. *)
Record SortSupportData : Type := mkSortSupport {
  ssup_collation : Oid;
  ssup_nulls_first : bool;
  ssup_attno : AttrNumber;
  abbreviate : bool;
  ssup_ordering_op : Oid }.

(** [build_batch_sorted_merge_info]: [n_sortkeys] and the array [sortkeys].
    The four lists are read with [linitial] to [lfourth]; C only asserts
    that they are there and have one length. *)
Definition build_batch_sorted_merge_info (sortinfo : list (list Z))
    : result (Z * list SortSupportData) :=
  match sortinfo with
  | [] => Ok (0, [])
  | sort_col_idx :: rest =>
      match rest with
      | sort_ops :: sort_collations :: sort_nulls :: _ =>
          let n_sortkeys := length sort_col_idx in
          sortkeys ←
            Planner.mutate_list
              (fun i =>
                 coll ← Planner.list_nth_oid sort_collations i;
                 nulls ← Planner.list_nth_oid sort_nulls i;
                 attno ← Planner.list_nth_oid sort_col_idx i;
                 op ← Planner.list_nth_oid sort_ops i;
                 Ok (mkSortSupport coll (negb (nulls =? 0)) attno false op))
              (seq 0 n_sortkeys);
          Ok (Z.of_nat n_sortkeys, sortkeys)
      | _ => elog "the sort info does not have four lists"
      end
  end.

(** ** exec.c: rescan *)

(** Modelled from the spec: batch_array.c is not among the sources at hand;
    [batch_array_free_at] returns a batch state to the unused ones. *)
Definition batch_array_free_at (unused : Bitmapset) (batch_index : Z) : Bitmapset :=
  bms_add_member unused batch_index.

(** [decompress_chunk_rescan]: the queue is reset, every batch state is
    freed and the child is rescanned; [ExecReScan] is the rescan of the child
    plan state. *)
Definition decompress_chunk_rescan {Q : Type} (ex : Executor Q)
    (ExecReScan : ChildScan -> ChildScan) (chunk_state : DecompressChunkState Q)
    : result (DecompressChunkState Q) :=
  match batch_queue chunk_state, queue chunk_state, custom_ps chunk_state with
  | Some kind, Some q, child :: others =>
      let q := reset (queue_functions ex kind) q in
      let unused :=
        foldl batch_array_free_at (unused_batch_states chunk_state)
          (seqZ 0 (n_batch_states chunk_state)) in
      Ok (set_running chunk_state (ss_ScanTupleSlot chunk_state)
            (ExecReScan child :: others) unused (Some q))
  | _, _, _ => elog "the node was not initialised"
  end.

End Exec.

(** * The vocabulary of the design document

    The notions the stated properties are phrased in, defined on their own
    so that they can be compared with what the code computes. *)

(** ** Runtime constants and vectorizable qualifiers *)

(** [occurs_in m n]: the node [m] is [n] or lies below it. *)
Inductive occurs_in (m : Node) : Node -> Prop :=
| occurs_here : occurs_in m m
| occurs_PlaceHolderVar phexpr :
    occurs_in m phexpr -> occurs_in m (T_PlaceHolderVar phexpr)
| occurs_OpExpr opno opfuncid args a :
    a ∈ args -> occurs_in m a -> occurs_in m (T_OpExpr opno opfuncid args)
| occurs_FuncExpr funcid args a :
    a ∈ args -> occurs_in m a -> occurs_in m (T_FuncExpr funcid args)
| occurs_RelabelType arg :
    occurs_in m arg -> occurs_in m (T_RelabelType arg)
| occurs_Aggref aggfnoid aggargs a :
    a ∈ aggargs -> occurs_in m a -> occurs_in m (T_Aggref aggfnoid aggargs).

(** A reference to a variable, a placeholder or a parameter. *)
Definition is_variable_reference (n : Node) : Prop :=
  match n with
  | T_Var _ _ _ | T_PlaceHolderVar _ | T_Param _ => True
  | _ => False
  end.

(** A call of a volatile function, as a function, an operator or an
    aggregate. *)
Definition calls_volatile_function (cat : Catalog) (n : Node) : Prop :=
  match n with
  | T_OpExpr opno opfuncid _ =>
      func_volatile cat (if OidIsValid opfuncid then opfuncid else get_opcode cat opno)
      = PROVOLATILE_VOLATILE
  | T_FuncExpr funcid _ => func_volatile cat funcid = PROVOLATILE_VOLATILE
  | T_Aggref aggfnoid _ => func_volatile cat aggfnoid = PROVOLATILE_VOLATILE
  | _ => False
  end.

(** A runtime constant contains no reference to a variable, placeholder or
    parameter and no volatile function. *)
Definition runtime_constant (cat : Catalog) (n : Node) : Prop :=
  forall m, occurs_in m n -> ~ is_variable_reference m /\ ~ calls_volatile_function cat m.

(** A Var of a column that supports bulk decompression. *)
Definition bulk_decompressible_var (path : Planner.DecompressChunkPath) (n : Node) : Prop :=
  exists varno varattno vartype,
    n = T_Var varno varattno vartype /\
    Planner.bulk_decompression_possible (Planner.column_compression_info path varattno) = true.

(** The qualifier is a binary operator expression and, as written or with
    the operator replaced by its commutator and the operands swapped, has a
    bulk-decompressible Var on the left, a runtime constant on the right and
    an operator whose function is in the vector predicate registry. *)
Definition vectorizable (cat : Catalog) (path : Planner.DecompressChunkPath) (qual : Node)
    : Prop :=
  exists opno opfuncid left right,
    qual = T_OpExpr opno opfuncid [left; right] /\
    exists op var const,
      ((op = opno /\ var = left /\ const = right) \/
       (OidIsValid (get_commutator cat opno) = true /\
        op = get_commutator cat opno /\ var = right /\ const = left)) /\
      bulk_decompressible_var path var /\
      runtime_constant cat const /\
      is_Some (get_vector_const_predicate cat (get_opcode cat op)).

(** [v] is the form in which the vectorizable qualifier [q] is evaluated:
    [q] itself when its Var is on the left, and [q] with the operator
    replaced by its commutator and the operands swapped when the Var is on
    the right. *)
Definition vectorized_form (cat : Catalog) (path : Planner.DecompressChunkPath) (q v : Node)
    : Prop :=
  exists opno opfuncid left right,
    q = T_OpExpr opno opfuncid [left; right] /\
    ((v = q /\
      bulk_decompressible_var path left /\
      runtime_constant cat right /\
      is_Some (get_vector_const_predicate cat (get_opcode cat opno))) \/
     (OidIsValid (get_commutator cat opno) = true /\
      v = T_OpExpr (get_commutator cat opno) InvalidOid [right; left] /\
      bulk_decompressible_var path right /\
      runtime_constant cat left /\
      is_Some (get_vector_const_predicate cat (get_opcode cat (get_commutator cat opno))))).

(** The classification of a list of qualifiers: a vectorizable qualifier
    goes to the vectorized ones, in its vectorized form, every other one
    stays with the qualifiers that are evaluated row by row; both lists keep
    the order. *)
Inductive classified (cat : Catalog) (path : Planner.DecompressChunkPath)
    : list Node -> list Node -> list Node -> Prop :=
| classified_nil : classified cat path [] [] []
| classified_vectorized q v quals vectorized others :
    vectorized_form cat path q v ->
    classified cat path quals vectorized others ->
    classified cat path (q :: quals) (v :: vectorized) others
| classified_other q quals vectorized others :
    ~ vectorizable cat path q ->
    classified cat path quals vectorized others ->
    classified cat path (q :: quals) vectorized (q :: others).

(** ** The partial sum over a segmentby column *)

(** The product [v * c] that a batch contributes to the sum: the segmentby
    value times the number of rows, if neither is null. *)
Definition batch_product (value_attno count_attno : AttrNumber) (slot : Exec.CompressedSlot)
    : option Z :=
  match Exec.slot_getattr slot value_attno, Exec.slot_getattr slot count_attno with
  | Ok (v, false), Ok (c, false) => Some (Exec.DatumGetInt32 v * Exec.DatumGetInt32 c)
  | _, _ => None
  end.

(** The batch has both attributes, null or not. *)
Definition has_attributes (value_attno count_attno : AttrNumber) (slot : Exec.CompressedSlot)
    : Prop :=
  is_ok (Exec.slot_getattr slot value_attno) = true /\
  is_ok (Exec.slot_getattr slot count_attno) = true.

(** The values an accumulator takes that starts at [acc] and adds the
    elements of the list one after the other. *)
Fixpoint running_sums (acc : Z) (l : list Z) : list Z :=
  match l with
  | [] => []
  | x :: rest => (acc + x) :: running_sums (acc + x) rest
  end.

Definition sum_list (l : list Z) : Z := foldr Z.add 0 l.

(** ** The decompression map *)

(** A column of the compressed chunk is a metadata column if no row of the
    compression catalog names it. *)
Definition is_metadata_attno (i : Planner.CompressionInfo) (compressed_attno : AttrNumber)
    : Prop :=
  forall row, row ∈ Planner.hypertable_compression_info i ->
              get_attnum (Planner.compressed_rte i) (Planner.attname row) <> compressed_attno.

(** The entry is a Var of the metadata column with the given name. *)
Definition target_is_metadata_column (i : Planner.CompressionInfo) (name : string)
    (target : TargetEntry) : Prop :=
  exists varno compressed_attno vartype,
    expr target = T_Var varno compressed_attno vartype /\
    get_attname (Planner.compressed_rte i) compressed_attno = Some name /\
    is_metadata_attno i compressed_attno.

(** The scan targetlist has the metadata column with the given name. *)
Definition lists_metadata_column (i : Planner.CompressionInfo) (scan_tlist : list TargetEntry)
    (name : string) : Prop :=
  exists target, target ∈ scan_tlist /\ target_is_metadata_column i name target.

(** The entry is a Var of a normal column and produces the attribute of
    the chunk whose number, offset as in the bitmapsets, is [bit]. *)
Definition target_produces (i : Planner.CompressionInfo) (bit : Z) (target : TargetEntry)
    : Prop :=
  exists varno compressed_attno vartype name,
    expr target = T_Var varno compressed_attno vartype /\
    get_attname (Planner.compressed_rte i) compressed_attno = Some name /\
    ~ is_metadata_attno i compressed_attno /\
    get_attnum (Planner.chunk_rte i) name - FirstLowInvalidHeapAttributeNumber = bit.

(** The conditions under which no other error of [build_decompression_map]
    is raised: of the system columns only [tableoid] is selected, every
    column of the compression catalog exists in the compressed chunk, every
    entry of the targetlist is a Var of a column of the compressed chunk, and
    the target of a vectorized aggregation starts with a Var. *)
Definition well_formed_scan_tlist (path : Planner.DecompressChunkPath)
    (scan_tlist : list TargetEntry) : Prop :=
  (forall b, b ∈ Planner.selectedCols (Planner.info path) ->
             b + FirstLowInvalidHeapAttributeNumber < 0 ->
             b + FirstLowInvalidHeapAttributeNumber = TableOidAttributeNumber) /\
  (forall row, row ∈ Planner.hypertable_compression_info (Planner.info path) ->
               get_attnum (Planner.compressed_rte (Planner.info path)) (Planner.attname row)
               <> InvalidAttrNumber) /\
  (forall target, target ∈ scan_tlist ->
                  exists varno compressed_attno vartype name,
                    expr target = T_Var varno compressed_attno vartype /\
                    get_attname (Planner.compressed_rte (Planner.info path)) compressed_attno
                    = Some name) /\
  (Planner.perform_vectorized_aggregation path = true ->
   exists varno attno vartype rest,
     Planner.reltarget_exprs path = T_Var varno attno vartype :: rest).

(** ** The layout of the column descriptions

    A column of the scan targetlist is compressed if its destination is an
    attribute of the chunk and it is not a segmentby column. *)
Definition is_compressed_entry (output_attno segmentby : Z) : bool :=
  (0 <? output_attno) && (segmentby =? 0).

(** The indices of the columns that are decompressed (destination not 0)
    and are compressed, or not, in the order of the scan targetlist;
    [index] is the index of the first element of the lists. *)
Fixpoint decompressed_indices (compressed : bool) (dest segs : list Z) (index : nat)
    : list nat :=
  match dest, segs with
  | output_attno :: dest', segmentby :: segs' =>
      (if negb (output_attno =? 0) &&
          Bool.eqb (is_compressed_entry output_attno segmentby) compressed
       then [index] else [])
      ++ decompressed_indices compressed dest' segs' (S index)
  | _, _ => []
  end.

(** The description [c] stands for the compressed column with index [i] of
    the scan targetlist, and for another decompressed column: a segmentby
    column or one of the two metadata columns. *)
Definition compressed_description (dest segs : list Z) (i : nat)
    (c : Exec.DecompressChunkColumnDescription) : Prop :=
  Exec.compressed_scan_attno c = Z.of_nat i + 1 /\
  dest !! i = Some (Exec.output_attno c) /\
  Exec.type c = Exec.COMPRESSED_COLUMN /\
  Exec.output_attno c > 0 /\
  segs !! i = Some 0.

Definition other_description (dest segs : list Z) (i : nat)
    (c : Exec.DecompressChunkColumnDescription) : Prop :=
  Exec.compressed_scan_attno c = Z.of_nat i + 1 /\
  dest !! i = Some (Exec.output_attno c) /\
  ((Exec.type c = Exec.SEGMENTBY_COLUMN /\ Exec.output_attno c > 0 /\
    exists s, segs !! i = Some s /\ s <> 0) \/
   (Exec.type c = Exec.COUNT_COLUMN /\
    Exec.output_attno c = Planner.DECOMPRESS_CHUNK_COUNT_ID) \/
   (Exec.type c = Exec.SEQUENCE_NUM_COLUMN /\
    Exec.output_attno c = Planner.DECOMPRESS_CHUNK_SEQUENCE_NUM_ID)).

(** ** The size of the batch memory context *)

(** The next multiple of 4 KiB. *)
Definition round_up_4k (bytes : Z) : Z := (bytes + 4095) / 4096 * 4096.

(** The columns that support bulk decompression. *)
Definition bulk_columns (columns : list Exec.DecompressChunkColumnDescription)
    : list Exec.DecompressChunkColumnDescription :=
  filter (fun c => Exec.bulk_decompression_supported c = true) columns.

(** What the code reserves for one such column: the values with 64
    elements of padding, the allowance for the validity bitmap, the Arrow
    structure with its two buffer pointers, and the headers of the memory
    context. *)
Definition column_arena_bytes (pf : Exec.Platform) (c : Exec.DecompressChunkColumnDescription)
    : Z :=
  (Exec.GLOBAL_MAX_ROWS_PER_COMPRESSION pf + 64) * Exec.value_bytes c +
  Exec.nulls_bitmap_bytes pf +
  (Exec.sizeof_ArrowArray pf + Exec.sizeof_pointer pf * 2) +
  Exec.sizeof_pointer pf * 3.

(** The size as the design document states it, for a given header
    overhead per column: the sum over the bulk columns, rounded up and
    clamped, with [N_MAX / 64 * 8] bytes for the bitmap. *)
Definition claimed_arena_bytes (pf : Exec.Platform) (header_overhead : Z)
    (columns : list Exec.DecompressChunkColumnDescription) : Z :=
  Z.min
    (round_up_4k
       (sum_list
          ((fun c => (Exec.GLOBAL_MAX_ROWS_PER_COMPRESSION pf + 64) * Exec.value_bytes c +
                     Exec.GLOBAL_MAX_ROWS_PER_COMPRESSION pf / 64 * 8 + header_overhead)
             <$> bulk_columns columns)))
    (1024 * 1024).

(** ** Constant folding of null constants

    What PostgreSQL's [estimate_expression_value] does with a comparison of a
    Var with an expression that folds to the null constant: the call of a
    strict function is never made and folds to the null constant, any other
    call is left in place with its folded argument. *)
Definition folds_strict_calls (cat : Catalog) (estimate : Node -> Node) : Prop :=
  forall opno opfuncid var arg,
    is_Var var = true ->
    is_null_Const (estimate arg) = true ->
    func_strict cat (Planner.set_opfuncid cat opno opfuncid) = true ->
    is_null_Const (estimate (T_OpExpr opno opfuncid [var; arg])) = true.

Definition keeps_other_calls (cat : Catalog) (estimate : Node -> Node) : Prop :=
  forall opno opfuncid var arg,
    is_Var var = true ->
    func_strict cat (Planner.set_opfuncid cat opno opfuncid) = false ->
    estimate (T_OpExpr opno opfuncid [var; arg])
    = T_OpExpr opno (Planner.set_opfuncid cat opno opfuncid) [var; estimate arg].

(** A qual of the list that folds to a constant folds to the null one. A
    vectorized qual compares a Var, which is no constant, so PostgreSQL does
    not evaluate the comparison; the only constant it folds to is the null
    constant that stands for the call of a strict function with a null
    argument. *)
Definition folds_only_to_null (estimate : Node -> Node) (quals : list Node) : Prop :=
  forall q, q ∈ quals -> is_Const (estimate q) = true -> is_null_Const (estimate q) = true.

(** ** Errors

    The result is not an error with another code than the internal one. *)
Definition raises_only_internal {A : Type} (r : result A) : Prop :=
  forall code msg, r = Raise code msg -> code = ERRCODE_INTERNAL_ERROR.

(** * Further vocabulary

    Notions for the properties of the code beyond the design document. *)

(** ** The entries of the decompression map *)

(** A destination of the decompression map: 0 for a column that is not
    decompressed, the number of one of the two metadata columns, or the
    number of an attribute of the chunk that is needed. *)
Definition destination_ok (needed : list Z) (p : Planner.DecompressChunkPath) (dest : Z) : Prop :=
  dest = 0 \/
  dest = Planner.DECOMPRESS_CHUNK_COUNT_ID \/
  (dest = Planner.DECOMPRESS_CHUNK_SEQUENCE_NUM_ID /\ Planner.needs_sequence_num p = true) \/
  (0 < dest <= Z.of_nat (length (Planner.chunk_rte (Planner.info p))) /\
   (0 - FirstLowInvalidHeapAttributeNumber ∈ needed \/
    dest - FirstLowInvalidHeapAttributeNumber ∈ needed)).

(** What one entry of the scan targetlist appends to the lists of the path. *)
Record MapEntry : Type := mkMapEntry {
  me_dest : Z;
  me_segmentby : bool;
  me_bulk : bool }.

(** The relation of the three values of an entry to each other and to the
    needed attributes. *)
Definition entry_ok (needed : list Z) (p : Planner.DecompressChunkPath) (e : MapEntry) : Prop :=
  (me_bulk e = true -> 0 < me_dest e) /\
  (me_dest e < 0 -> me_segmentby e = false) /\
  destination_ok needed p (me_dest e).

(** What [map_target_entry] changes for the entry [e]. *)
Definition appends_entry (needed : list Z) (mb mb' : Planner.MapBuild) (e : MapEntry) : Prop :=
  let p := Planner.mb_path mb in
  let p' := Planner.mb_path mb' in
  Planner.decompression_map p' = Planner.decompression_map p ++ [me_dest e] /\
  Planner.is_segmentby_column p'
  = Planner.is_segmentby_column p ++ [Planner.bool_to_int (me_segmentby e)] /\
  Planner.bulk_decompression_column p'
  = Planner.bulk_decompression_column p ++ [Planner.bool_to_int (me_bulk e)] /\
  Planner.have_bulk_decompression_columns p'
  = Planner.have_bulk_decompression_columns p || me_bulk e /\
  length (Planner.vectorized_aggregation_column p')
  = (length (Planner.vectorized_aggregation_column p) +
     if Planner.perform_vectorized_aggregation p then 1 else 0)%nat /\
  (forall attno,
      Planner.bulk_decompression_possible (Planner.column_compression_info p' attno) = true ->
      (attno = me_dest e /\ me_bulk e = true) \/
      Planner.bulk_decompression_possible (Planner.column_compression_info p attno) = true) /\
  (Planner.missing_count mb' = false ->
   Planner.missing_count mb = false \/ me_dest e = Planner.DECOMPRESS_CHUNK_COUNT_ID) /\
  (Planner.missing_sequence mb' = false ->
   Planner.missing_sequence mb = false \/
   me_dest e = Planner.DECOMPRESS_CHUNK_SEQUENCE_NUM_ID) /\
  entry_ok needed p e.

(** ** Commuted qualifiers *)

(** [v] is [q] with the operator replaced by its commutator and the operands
    swapped. *)
Definition commuted (cat : Catalog) (q v : Node) : Prop :=
  exists opno opfuncid left right,
    q = T_OpExpr opno opfuncid [left; right] /\
    v = T_OpExpr (get_commutator cat opno) InvalidOid [right; left].

(** ** Targetlists of the compressed scan *)

(** An entry of a scan targetlist that is a Var of another attribute than
    [pos]. *)
Definition other_var_entry (pos : AttrNumber) (target : TargetEntry) : Prop :=
  exists varno varattno vartype, expr target = T_Var varno varattno vartype /\ varattno <> pos.

(** ** Vars of the compressed chunk in expressions *)

(** A node that [replace_compressed_vars] cannot rewrite: a placeholder, or
    a Var of the compressed chunk (that is not [tableoid] of the chunk) whose
    attribute has no name or no namesake among the columns of the chunk. *)
Definition unreplaceable (i : Planner.CompressionInfo) (n : Node) : Prop :=
  match n with
  | T_PlaceHolderVar _ => True
  | T_Var varno varattno _ =>
      ~ (varno = Planner.chunk_rel_relid i /\ varattno = TableOidAttributeNumber) /\
      varno = Planner.compressed_rel_relid i /\
      forall name, get_attname (Planner.compressed_rte i) varattno = Some name ->
                   get_attnum (Planner.chunk_rte i) name = InvalidAttrNumber
  | _ => False
  end.



(** ** Sort keys of the batch sorted merge *)

(** The sort keys that the four parallel lists of the sort info stand for. *)
Fixpoint sort_keys_of (sort_col_idx sort_ops sort_collations sort_nulls : list Z)
    : list Exec.SortSupportData :=
  match sort_col_idx, sort_ops, sort_collations, sort_nulls with
  | attno :: sort_col_idx, op :: sort_ops, coll :: sort_collations, nulls :: sort_nulls =>
      Exec.mkSortSupport coll (negb (nulls =? 0)) attno false op
      :: sort_keys_of sort_col_idx sort_ops sort_collations sort_nulls
  | _, _, _, _ => []
  end.

(** [sort_key_of sc chunk_relid pk key]: the sort key of the heap is the one
    the pathkey asks for, through a member of its equivalence class that is
    not a constant and is a Var of the chunk alone. *)
Definition sort_key_of (sc : Planner.SortCatalog) (chunk_relid : Z) (pk : Planner.PathKey)
    (key : Exec.SortSupportData) : Prop :=
  exists em varno vartype,
    em ∈ Planner.ec_members pk /\
    Planner.em_is_const em = false /\
    Planner.bms_get_singleton_member (Planner.em_relids em) = Some chunk_relid /\
    Planner.em_expr em = T_Var varno (Exec.ssup_attno key) vartype /\
    Exec.ssup_ordering_op key =
      Planner.get_opfamily_member sc (Planner.pk_opfamily pk) vartype vartype
        (Planner.pk_strategy pk) /\
    OidIsValid (Exec.ssup_ordering_op key) = true /\
    Exec.ssup_collation key = Planner.varcollid sc (Planner.em_expr em) /\
    Exec.ssup_nulls_first key = Planner.pk_nulls_first pk /\
    Exec.abbreviate key = false.

(** The sort keys of the sort options of the planner. *)
Definition sort_options_keys (so : Planner.SortOptions) : list Exec.SortSupportData :=
  sort_keys_of (Planner.sort_col_idx so) (Planner.sort_ops so) (Planner.sort_collations so)
    (Planner.sort_nulls so).

(** The four lists of the sort options have the length [n]. *)
Definition sort_options_length (so : Planner.SortOptions) (n : nat) : Prop :=
  length (Planner.sort_col_idx so) = n /\ length (Planner.sort_ops so) = n /\
  length (Planner.sort_collations so) = n /\ length (Planner.sort_nulls so) = n.

(** ** [tableoid] in a projecting targetlist *)

(** [tableoid] of the chunk replaced by the constant everywhere in an
    expression. *)
Fixpoint tableoid_constified (chunk_index : Z) (chunk_relid : Oid) (n : Node) : Node :=
  match n with
  | T_Var varno varattno _ =>
      if decide (varno = chunk_index /\ varattno = TableOidAttributeNumber)
      then T_Const Planner.OIDOID chunk_relid false else n
  | T_Const _ _ _ | T_Param _ => n
  | T_PlaceHolderVar phexpr => T_PlaceHolderVar (tableoid_constified chunk_index chunk_relid phexpr)
  | T_OpExpr opno opfuncid args =>
      T_OpExpr opno opfuncid (map (tableoid_constified chunk_index chunk_relid) args)
  | T_FuncExpr funcid args =>
      T_FuncExpr funcid (map (tableoid_constified chunk_index chunk_relid) args)
  | T_RelabelType arg => T_RelabelType (tableoid_constified chunk_index chunk_relid arg)
  | T_Aggref aggfnoid aggargs =>
      T_Aggref aggfnoid (map (tableoid_constified chunk_index chunk_relid) aggargs)
  end.

(** A system column of the chunk below [ctid] other than [tableoid], which
    the projection cannot produce, occurs in the expression. *)
Definition has_unsupported_system_column (chunk_index : Z) (n : Node) : Prop :=
  exists varattno vartype,
    occurs_in (T_Var chunk_index varattno vartype) n /\
    varattno <> TableOidAttributeNumber /\ varattno < SelfItemPointerAttributeNumber.

(** [tableoid] of the chunk occurs in the expression. *)
Definition has_chunk_tableoid (chunk_index : Z) (n : Node) : Prop :=
  exists vartype, occurs_in (T_Var chunk_index TableOidAttributeNumber vartype) n.

(** An entry of a targetlist with [tableoid] of the chunk replaced. *)
Definition tableoid_constified_entry (chunk_index : Z) (chunk_relid : Oid) (target : TargetEntry)
    : TargetEntry :=
  mkTargetEntry (tableoid_constified chunk_index chunk_relid (expr target)) (resno target).

(** The message of the error for a system column. *)
Definition unsupported_msg : string :=
  "transparent decompression only supports tableoid system column".

(** What a mutator with the [made_changes] flag does on one element [x]:
    it returns the expected element [gx], raises the flag when it changed
    something, and raises the error exactly on a [bad] element. *)
Definition flagged_mutator_ok {A : Type} (gx : A) (bad changed : A -> Prop) (x : A) (mc : bool)
    (r : result (A * bool)) : Prop :=
  match r with
  | Ok (y, mc') =>
      y = gx /\ (mc' = false -> mc = false /\ y = x) /\ (changed x -> mc' = true) /\ ~ bad x
  | Raise code msg => code = ERRCODE_INTERNAL_ERROR /\ msg = unsupported_msg /\ bad x
  end.

(** ** The partial sum over a compressed column *)

(** The value of row [i] of a decompressed column, if the row is not null. *)
Definition arrow_valid_value (arrow : ArrowArray) (i : Z) : option Z :=
  if Exec.arrow_row_is_valid (buffers0 arrow) i
  then Some (wrap_signed 32 (buffers1 arrow !!! Z.to_nat i))
  else None.

(** The values of the rows of a decompressed column that are not null. *)
Definition arrow_valid_values (arrow : ArrowArray) : list Z :=
  omap (arrow_valid_value arrow) (seqZ 0 (arrow_length arrow)).

(** The decompressed column of a batch: the attribute of the column is a
    pointer to a compressed value whose algorithm has a bulk decompression
    function. *)
Definition batch_arrow (cat : Catalog) (column : Exec.DecompressChunkColumnDescription)
    (slot : Exec.CompressedSlot) : option ArrowArray :=
  match Exec.slot_getattr slot (Exec.compressed_scan_attno column) with
  | Ok (Exec.PointerDatum header, false) =>
      match tsl_get_decompress_all_function cat (compression_algorithm header) with
      | Some decompress_all => Some (decompress_all header (Exec.typid column))
      | None => None
      end
  | _ => None
  end.

(** A batch whose column decompresses to a number of rows that the [int]
    counter of the loop can count. *)
Definition decompresses (cat : Catalog) (column : Exec.DecompressChunkColumnDescription)
    (slot : Exec.CompressedSlot) : Prop :=
  exists arrow, batch_arrow cat column slot = Some arrow /\ arrow_length arrow <= PG_INT32_MAX.

(** What a batch contributes to the sum. *)
Definition batch_sum (cat : Catalog) (column : Exec.DecompressChunkColumnDescription)
    (slot : Exec.CompressedSlot) : option Z :=
  (fun arrow => sum_list (arrow_valid_values arrow)) <$> batch_arrow cat column slot.

(** ** One-shot aggregation *)

(** A node that aggregates and has a batch state in use: its aggregation
    has been performed. *)
Definition aggregated {Q : Type} (st : Exec.DecompressChunkState Q) : Prop :=
  Exec.perform_vectorized_aggregation st = true /\
  is_Some (Exec.batch_queue st) /\
  Exec.bms_num_members (Exec.unused_batch_states st) ≠ Exec.n_batch_states st.

(** * Example inputs *)

Module Examples.

Import Exec.

(** A codec for the examples: the payload is the number of rows, the words
    of the validity bitmap up to a zero word, and the values. *)
Definition example_decompress_all : DecompressAllFunction :=
  fun header _ =>
    match compressed_payload header with
    | n :: bitmap :: values => mkArrowArray n [bitmap] values
    | _ => mkArrowArray 0 [] []
    end.

(** Operators 96 (=), 97 (<) and 521 (>) on int4 with their functions 65, 66
    and 147; 97 and 521 commute into each other; operator 9001 has no
    commutator, function 9002 is volatile, function 9003 is not strict;
    the functions 65, 66, 147 and 9101 have a vector predicate. Only
    algorithm 4 has a bulk decompression function. *)
Definition example_catalog : Catalog :=
  mkCatalog
    (fun opno => if decide (opno = 96) then 96 else if decide (opno = 97) then 521
                 else if decide (opno = 521) then 97 else InvalidOid)
    (fun opno => if decide (opno = 96) then 65 else if decide (opno = 97) then 66
                 else if decide (opno = 521) then 147 else opno + 1)
    (fun f => if decide (f = 9002) then PROVOLATILE_VOLATILE else PROVOLATILE_IMMUTABLE)
    (fun f => negb (f =? 9003))
    (fun t => if decide (t = 20) then 8 else 4)
    (fun f => if decide (f = 65 \/ f = 66 \/ f = 147 \/ f = 9101)
              then Some (vector_const_predicate (Z.to_nat f))
              else None)
    (fun algo => if decide (algo = 4) then Some example_decompress_all else None).

Definition x86_64 : Platform := mkPlatform 8 80 96 24 1015.

(** A one-slot batch queue for the examples. Its state is the list of the
    rows of the current batch from the current row on; a batch decompresses
    to a single row, made of its scalar attributes. *)
Definition example_row (slot : CompressedSlot) : TupleTableSlot :=
  mkSlot false
    ((fun a => match a with Some (ValueDatum z) => z | _ => 0 end) <$> slot)
    ((fun a => bool_decide (a = None)) <$> slot).

Definition example_queue : BatchQueueFunctions (list TupleTableSlot) :=
  mkQueue 1 []
    (fun q => bool_decide (q = []))
    (fun q => tail q)
    (fun _ slot => Ok [example_row slot])
    (fun _ => [])
    (fun q => head q).

(** Constant folding for the examples, after PostgreSQL's: a call of a
    strict function with a null constant among its arguments folds to the
    null constant, any other operator expression keeps its folded
    arguments. *)
Fixpoint example_estimate (n : Node) : Node :=
  match n with
  | T_OpExpr opno opfuncid args =>
      let args := example_estimate <$> args in
      let funcid := Planner.set_opfuncid example_catalog opno opfuncid in
      if func_strict example_catalog funcid && existsb is_null_Const args
      then T_Const 16 0 true
      else T_OpExpr opno funcid args
  | _ => n
  end.

Definition example_executor : Executor (list TupleTableSlot) :=
  mkExecutor example_queue example_queue example_estimate None.

Definition example_guc : Planner.GUC := Planner.mkGUC true true false Planner.RVQ_Allow false.

(** A chunk with the columns [time], [device] and [x]; [device] is the
    segmentby column, the other two are compressed with algorithm 4. *)
Definition example_chunk : Relation :=
  [mkAttribute "time" 20; mkAttribute "device" 23; mkAttribute "x" 23].

Definition example_compressed_chunk : Relation :=
  [mkAttribute "time" 0; mkAttribute "device" 23; mkAttribute "x" 0;
   mkAttribute "_ts_meta_count" 23; mkAttribute "_ts_meta_sequence_num" 23;
   mkAttribute "_ts_meta_min_1" 20; mkAttribute "_ts_meta_max_1" 20].

Definition example_info (selected : Bitmapset) : Planner.CompressionInfo :=
  Planner.mkCompressionInfo 1 2 16400 example_chunk example_compressed_chunk example_chunk
    selected 7
    [Planner.mkCompression "time" 4 0 1;
     Planner.mkCompression "device" 0 1 0;
     Planner.mkCompression "x" 4 0 0].

Definition example_path (selected : Bitmapset) (needs_sequence_num sorted_merge aggregate : bool)
    (target : list Node) : Planner.DecompressChunkPath :=
  Planner.mkPath target (example_info selected) [] [] [] false [] aggregate []
    needs_sequence_num false sorted_merge.

(** The physical targetlist of the compressed chunk. *)
Definition example_scan_tlist : list TargetEntry :=
  (fun i => mkTargetEntry (T_Var 2 i 0) i) <$> seqZ 1 7.

(** The scan tuple slot of the chunk and the one of an aggregating node. *)
Definition example_slot : TupleTableSlot := mkSlot true [0; 0; 0] [true; true; true].
Definition example_agg_slot : TupleTableSlot := mkSlot true [0] [true].

(** The plan of [SELECT agg(c)] with the given qualifiers, for the chunk
    column with number [attno]. *)
Definition example_filtered_agg_plan (aggfnoid : Oid) (attno : AttrNumber) (qual : list Node)
    : result Planner.CustomScan :=
  Planner.decompress_chunk_plan_create example_catalog example_guc
    (example_path [] false false true [T_Var 1 attno 23])
    [mkTargetEntry (T_Aggref aggfnoid [T_Var 1 attno 23]) 1] qual
    example_scan_tlist [attno - FirstLowInvalidHeapAttributeNumber] (Ok []).

(** The plan of [SELECT sum(c)] without qualifiers. *)
Definition example_sum_plan (aggfnoid : Oid) (attno : AttrNumber) : result Planner.CustomScan :=
  example_filtered_agg_plan aggfnoid attno [].

(** The plan of [SELECT x] with the given qualifiers on the chunk. *)
Definition example_scan_plan (sorted_merge : bool) (qual : list Node)
    : result Planner.CustomScan :=
  Planner.decompress_chunk_plan_create example_catalog example_guc
    (example_path [] false sorted_merge false [T_Var 1 3 23]) [] qual
    example_scan_tlist [3 - FirstLowInvalidHeapAttributeNumber] (Ok [[3]; [97]; [0]; [0]]).

(** Initialisation of the node for a plan over a child that returns [rows]. *)
Definition example_begin (ex : Executor (list TupleTableSlot))
    (plan : result Planner.CustomScan) (slot : TupleTableSlot)
    (rows : list CompressedSlot) : result (DecompressChunkState (list TupleTableSlot)) :=
  cscan ← plan;
  decompress_chunk_begin example_catalog x86_64 example_guc ex
    (decompress_chunk_state_create cscan slot example_chunk) (mkChild rows 0).

(** Initialisation followed by [n] calls of the node. *)
Definition example_run (ex : Executor (list TupleTableSlot))
    (plan : result Planner.CustomScan) (slot : TupleTableSlot)
    (rows : list CompressedSlot) (n : nat)
    : result (list (option TupleTableSlot) * DecompressChunkState (list TupleTableSlot)) :=
  node ← example_begin ex plan slot rows;
  exec_many example_catalog ex n node.

(** The tuples a run returns, without the final state. *)
Definition returned {S : Type} (r : result (list (option TupleTableSlot) * S))
    : result (list (option TupleTableSlot)) :=
  '(slots, _) ← r; Ok slots.

(** A compressed row of the example chunk: the segmentby value of [device],
    the decoded form of the compressed column [x] (the rows of the batch, the
    validity bitmap and the values) and the count. *)
Definition example_batch (device : option Z) (x : option (list Z)) (count : option Z)
    : CompressedSlot :=
  [None; ValueDatum <$> device; (fun p => PointerDatum (mkCompressedData 4 p)) <$> x;
   ValueDatum <$> count; None; None; None].

(** The plan of [SELECT x WHERE x > 5] and the node created from it. *)
Definition example_cscan : Planner.CustomScan :=
  match example_scan_plan false [T_OpExpr 521 0 [T_Var 1 3 23; T_Const 23 5 false]] with
  | Ok cscan => cscan
  | Raise _ _ =>
      Planner.mkCustomScan [] [] [] [] (Planner.mkSettings 0 0 false false false false)
        [] [] [] [] []
  end.

Definition example_node : DecompressChunkState (list TupleTableSlot) :=
  decompress_chunk_state_create example_cscan example_slot example_chunk.

(** The node of [SELECT x WHERE x > NULL]. *)
Definition example_null_qual_node : DecompressChunkState (list TupleTableSlot) :=
  match example_scan_plan false [T_OpExpr 521 0 [T_Var 1 3 23; T_Const 23 0 true]] with
  | Ok cscan => decompress_chunk_state_create cscan example_slot example_chunk
  | Raise _ _ => example_node
  end.

End Examples.

(** * Further example inputs *)

Module MoreExamples.

(** The path of [SELECT x] on the example chunk once the decompression map
    has been built. *)
Definition example_mapped_path : Planner.DecompressChunkPath :=
  let path := Examples.example_path [] false false false [T_Var 1 3 23] in
  match Planner.build_decompression_map Examples.example_catalog path
          Examples.example_scan_tlist [3 - FirstLowInvalidHeapAttributeNumber] with
  | Ok mapped => mapped
  | Raise _ _ => path
  end.

(** The node of [SELECT sum(device)] on the example chunk. *)
Definition example_sum_node : Exec.DecompressChunkState (list Exec.TupleTableSlot) :=
  match Examples.example_sum_plan F_SUM_INT4 2 with
  | Ok cscan =>
      Exec.decompress_chunk_state_create cscan Examples.example_agg_slot Examples.example_chunk
  | Raise _ _ => Examples.example_node
  end.

(** The operator family 1976 of the integers: operator 97 sorts ascending,
    operator 521 descending; the min and max metadata columns of the first
    orderby column are the only ones. *)
Definition example_sort_catalog : Planner.SortCatalog :=
  Planner.mkSortCatalog
    (fun opfamily lefttype righttype strategy =>
       if decide (opfamily = 1976 /\ strategy = Planner.BTLessStrategyNumber) then 97
       else if decide (opfamily = 1976 /\ strategy = Planner.BTGreaterStrategyNumber) then 521
       else InvalidOid)
    (fun opno =>
       if decide (opno = 97) then Some (1976, 20, Planner.BTLessStrategyNumber)
       else if decide (opno = 521) then Some (1976, 20, Planner.BTGreaterStrategyNumber)
       else None)
    (fun _ => InvalidOid)
    (fun _ => "_ts_meta_min_1"%string)
    (fun _ => "_ts_meta_max_1"%string).

(** The pathkey of [ORDER BY time]: its class has a constant and the Var of
    the column of the chunk. *)
Definition example_pathkeys : list Planner.PathKey :=
  [Planner.mkPathKey
     [Planner.mkMember true [] (T_Const 20 0 false);
      Planner.mkMember false [1] (T_Var 1 1 20)]
     1976 Planner.BTLessStrategyNumber false].

(** A decompressed column of three rows, the second of which is null. *)
Definition example_arrow : ArrowArray := mkArrowArray 3 [5] [7; 8; -9].

End MoreExamples.

(** * Properties

  ** Induction on expression trees *)

Section NodeInduction.
Variable P : Node -> Prop.
Hypothesis HVar : forall a b c, P (T_Var a b c).
Hypothesis HConst : forall a b c, P (T_Const a b c).
Hypothesis HParam : forall a, P (T_Param a).
Hypothesis HPlaceHolderVar : forall e, P e -> P (T_PlaceHolderVar e).
Hypothesis HOpExpr : forall o f args, Forall P args -> P (T_OpExpr o f args).
Hypothesis HFuncExpr : forall f args, Forall P args -> P (T_FuncExpr f args).
Hypothesis HRelabelType : forall e, P e -> P (T_RelabelType e).
Hypothesis HAggref : forall f args, Forall P args -> P (T_Aggref f args).

Fixpoint Node_nested_ind (n : Node) : P n :=
  let all := fix all (l : list Node) : Forall P l :=
    match l with
    | [] => Forall_nil P
    | x :: r => Forall_cons P x r (Node_nested_ind x) (all r)
    end in
  match n with
  | T_Var a b c => HVar a b c
  | T_Const a b c => HConst a b c
  | T_Param a => HParam a
  | T_PlaceHolderVar e => HPlaceHolderVar e (Node_nested_ind e)
  | T_OpExpr o f args => HOpExpr o f args (all args)
  | T_FuncExpr f args => HFuncExpr f args (all args)
  | T_RelabelType e => HRelabelType e (Node_nested_ind e)
  | T_Aggref f args => HAggref f args (all args)
  end.
End NodeInduction.

(** ** Classification of the qualifiers *)

Section Quals.
Variable cat : Catalog.

Lemma existsb_false_elem {A} (f : A -> bool) l a :
  existsb f l = false -> a ∈ l -> f a = false.
Proof.
  induction l as [|x l IH]; intros H Hin; [by apply elem_of_nil in Hin|].
  simpl in H. apply orb_false_iff in H as [Hx Hl].
  apply elem_of_cons in Hin as [->|Hin]; auto.
Qed.

Lemma volatile_checker_spec f :
  Planner.contains_volatile_functions_checker cat f = true <->
  func_volatile cat f = PROVOLATILE_VOLATILE.
Proof.
  unfold Planner.contains_volatile_functions_checker.
  destruct (func_volatile cat f); split; congruence.
Qed.

Lemma walker_false_here n :
  Planner.is_not_runtime_constant_walker cat n = false ->
  ~ is_variable_reference n /\ ~ calls_volatile_function cat n.
Proof.
  destruct n; simpl; try discriminate; intros H; split; try tauto;
    unfold Planner.set_opfuncid in H;
    intros Hv; apply volatile_checker_spec in Hv; rewrite Hv in H; discriminate.
Qed.

Lemma walker_false_sound n :
  Planner.is_not_runtime_constant_walker cat n = false -> runtime_constant cat n.
Proof.
  intros H m Hm. induction Hm.
  - by apply walker_false_here.
  - discriminate.
  - apply IHHm. simpl in H.
    destruct (Planner.contains_volatile_functions_checker _ _); [discriminate|].
    eapply existsb_false_elem; eauto.
  - apply IHHm. simpl in H.
    destruct (Planner.contains_volatile_functions_checker _ _); [discriminate|].
    eapply existsb_false_elem; eauto.
  - apply IHHm. exact H.
  - apply IHHm. simpl in H.
    destruct (Planner.contains_volatile_functions_checker _ _); [discriminate|].
    eapply existsb_false_elem; eauto.
Qed.

Lemma existsb_walker_false args :
  Forall (fun a =>
            runtime_constant cat a -> Planner.is_not_runtime_constant_walker cat a = false) args ->
  (forall a, a ∈ args -> runtime_constant cat a) ->
  existsb (Planner.is_not_runtime_constant_walker cat) args = false.
Proof.
  induction 1 as [|a args Ha _ IH]; intros Hrc; [done|].
  simpl. rewrite Ha by (apply Hrc; left).
  apply IH. intros b Hb. apply Hrc. by right.
Qed.

Lemma checker_false f :
  func_volatile cat f <> PROVOLATILE_VOLATILE ->
  Planner.contains_volatile_functions_checker cat f = false.
Proof.
  intros H. destruct (Planner.contains_volatile_functions_checker cat f) eqn:E; [|done].
  by apply volatile_checker_spec in E.
Qed.

Lemma walker_false_complete n :
  runtime_constant cat n -> Planner.is_not_runtime_constant_walker cat n = false.
Proof.
  induction n using Node_nested_ind; intros Hrc.
  - destruct (Hrc _ (occurs_here _)) as [Hv _]. by destruct Hv.
  - done.
  - destruct (Hrc _ (occurs_here _)) as [Hv _]. by destruct Hv.
  - destruct (Hrc _ (occurs_here _)) as [Hv _]. by destruct Hv.
  - simpl. destruct (Hrc _ (occurs_here _)) as [_ Hvol]. simpl in Hvol.
    unfold Planner.set_opfuncid. rewrite checker_false by exact Hvol.
    apply existsb_walker_false; [done|].
    intros a Ha m Hm. apply Hrc. by eapply occurs_OpExpr.
  - simpl. destruct (Hrc _ (occurs_here _)) as [_ Hvol]. simpl in Hvol.
    rewrite checker_false by exact Hvol.
    apply existsb_walker_false; [done|].
    intros a Ha m Hm. apply Hrc. by eapply occurs_FuncExpr.
  - simpl. apply IHn. intros m Hm. apply Hrc. by apply occurs_RelabelType.
  - simpl. destruct (Hrc _ (occurs_here _)) as [_ Hvol]. simpl in Hvol.
    rewrite checker_false by exact Hvol.
    apply existsb_walker_false; [done|].
    intros a Ha m Hm. apply Hrc. by eapply occurs_Aggref.
Qed.

Lemma is_not_runtime_constant_spec n :
  Planner.is_not_runtime_constant cat n = false <-> runtime_constant cat n.
Proof. split; [apply walker_false_sound | apply walker_false_complete]. Qed.

Lemma runtime_constant_not_Var n : runtime_constant cat n -> is_Var n = false.
Proof.
  intros H. destruct n; try done. destruct (H _ (occurs_here _)) as [Hv _]. by destruct Hv.
Qed.

End Quals.

(** ** The partial sum over a segmentby column *)

Lemma wrap_signed_32_range z : PG_INT32_MIN <= wrap_signed 32 z <= PG_INT32_MAX.
Proof.
  unfold wrap_signed, PG_INT32_MIN, PG_INT32_MAX.
  pose proof (Z.mod_pos_bound (z + 2 ^ (32 - 1)) (2 ^ 32) ltac:(lia)). lia.
Qed.

Lemma int32_product_in_int64 a b :
  PG_INT32_MIN <= a <= PG_INT32_MAX -> PG_INT32_MIN <= b <= PG_INT32_MAX ->
  in_int64 (a * b) = true.
Proof.
  unfold PG_INT32_MIN, PG_INT32_MAX, in_int64, PG_INT64_MIN, PG_INT64_MAX.
  intros Ha Hb. apply andb_true_iff. split; apply Z.leb_le; nia.
Qed.

Lemma pg_mul_s64_overflow_int32 v c :
  pg_mul_s64_overflow (Exec.DatumGetInt32 v) (Exec.DatumGetInt32 c)
  = Some (Exec.DatumGetInt32 v * Exec.DatumGetInt32 c).
Proof.
  unfold pg_mul_s64_overflow. rewrite int32_product_in_int64; [done| |].
  - destruct v; simpl; [apply wrap_signed_32_range|]. unfold PG_INT32_MIN, PG_INT32_MAX. lia.
  - destruct c; simpl; [apply wrap_signed_32_range|]. unfold PG_INT32_MIN, PG_INT32_MAX. lia.
Qed.

(** The loop from any accumulator: the running sums decide between the sum
    and the error. *)
Lemma sum_segmentby_batches_from value_attno count_attno rows :
  Forall (has_attributes value_attno count_attno) rows ->
  forall calls isnull acc,
    Exec.sum_segmentby_batches value_attno count_attno rows calls isnull acc =
    let products := omap (batch_product value_attno count_attno) rows in
    if forallb in_int64 (running_sums acc products)
    then Ok (Exec.mkSum (Exec.mkChild [] (S (calls + length rows)))
               (isnull && bool_decide (products = [])) (acc + sum_list products))
    else Raise ERRCODE_NUMERIC_VALUE_OUT_OF_RANGE "bigint out of range".
Proof.
  induction 1 as [|slot rows [Hv Hc] _ IH]; intros calls isnull acc.
  - simpl. rewrite andb_true_r, Z.add_0_r, Nat.add_0_r. done.
  - simpl. unfold batch_product.
    destruct (Exec.slot_getattr slot value_attno) as [[v vnull]|] eqn:Ev; [|discriminate].
    destruct (Exec.slot_getattr slot count_attno) as [[c cnull]|] eqn:Ec; [|discriminate].
    simpl. destruct vnull, cnull; simpl; rewrite ?IH; simpl;
      rewrite ?Nat.add_succ_r; try done.
    rewrite pg_mul_s64_overflow_int32. unfold pg_add_s64_overflow.
    destruct (in_int64 (acc + _)) eqn:Hin; simpl; [|done].
    rewrite IH. simpl. rewrite andb_false_r, Z.add_assoc. done.
Qed.

(** C1, amended. For SUM(int4) over a segmentby column every batch whose
    value [v] and count [c] are both non-null adds [v * c], computed in 64
    bits, to the 64 bit accumulator; the query ends with a numeric-range error
    exactly when a running sum leaves the range of a 64 bit integer, and
    otherwise the result is the sum of the products. One batch with [v = 3]
    and [c = 1000] yields 3000; one batch with [v = INT32_MAX] and [c = 2]
    yields 4294967294 (no error: the product fits in 64 bits). *)
Theorem sum_int4_segmentby_adds_checked_products
    (value_attno count_attno : AttrNumber) (rows : list Exec.CompressedSlot) (calls : nat) :
  Forall (has_attributes value_attno count_attno) rows ->
  let products := omap (batch_product value_attno count_attno) rows in
  let sum := Exec.sum_segmentby_batches value_attno count_attno rows calls true 0 in
  (Forall (fun s => PG_INT64_MIN <= s <= PG_INT64_MAX) (running_sums 0 products) ->
   sum = Ok (Exec.mkSum (Exec.mkChild [] (S (calls + length rows)))
               (bool_decide (products = [])) (sum_list products))) /\
  (~ Forall (fun s => PG_INT64_MIN <= s <= PG_INT64_MAX) (running_sums 0 products) ->
   sum = Raise ERRCODE_NUMERIC_VALUE_OUT_OF_RANGE "bigint out of range") /\
  Examples.returned
    (Examples.example_run Examples.example_executor (Examples.example_sum_plan F_SUM_INT4 2)
       Examples.example_agg_slot
       [Examples.example_batch (Some 3) None (Some 1000)] 1)
  = Ok [Some (Exec.mkSlot false [3000] [false])] /\
  Examples.returned
    (Examples.example_run Examples.example_executor (Examples.example_sum_plan F_SUM_INT4 2)
       Examples.example_agg_slot
       [Examples.example_batch (Some PG_INT32_MAX) None (Some 2)] 1)
  = Ok [Some (Exec.mkSlot false [4294967294] [false])].
Proof.
  intros Hrows products sum.
  assert (Hdec : forallb in_int64 (running_sums 0 products) = true <->
                 Forall (fun s => PG_INT64_MIN <= s <= PG_INT64_MAX) (running_sums 0 products)).
  { rewrite forallb_forall, List.Forall_forall. split; intros H x Hx.
    - specialize (H x Hx).
      unfold in_int64 in H. apply andb_true_iff in H as [H1 H2]. lia.
    - specialize (H x Hx).
      unfold in_int64. apply andb_true_iff. split; apply Z.leb_le; lia. }
  assert (Hsum : sum =
            if forallb in_int64 (running_sums 0 products)
            then Ok (Exec.mkSum (Exec.mkChild [] (S (calls + length rows)))
                       (bool_decide (products = [])) (sum_list products))
            else Raise ERRCODE_NUMERIC_VALUE_OUT_OF_RANGE "bigint out of range").
  { subst sum. rewrite (sum_segmentby_batches_from _ _ _ Hrows). reflexivity. }
  split; [|split; [|split]].
  - intros H. apply Hdec in H. rewrite Hsum, H. done.
  - intros H. rewrite Hsum. destruct (forallb in_int64 _); [|done].
    exfalso. by apply H, Hdec.
  - vm_compute. reflexivity.
  - vm_compute. reflexivity.
Qed.

Lemma sum_int4_segmentby_adds_checked_products_witness :
  let rows := [Examples.example_batch (Some 3) None (Some 1000);
               Examples.example_batch None None (Some 7);
               Examples.example_batch (Some (-2)) None (Some 10)] in
  Forall (has_attributes 2 4) rows /\
  Exec.sum_segmentby_batches 2 4 rows 0 true 0
  = Ok (Exec.mkSum (Exec.mkChild [] 4) false 2980).
Proof.
  intros rows.
  assert (Hattr : Forall (has_attributes 2 4) rows) by (repeat constructor).
  split; [exact Hattr|].
  destruct (sum_int4_segmentby_adds_checked_products 2 4 rows 0 Hattr) as [Hok _].
  apply Hok. repeat constructor; vm_compute; congruence.
Defined.

(** C1 as stated fails: the batch with [v = INT32_MAX] and [c = 2] raises no
    numeric-range error. *)
Lemma sum_int4_int32_max_times_two_raises_nothing :
  ~ (exists msg,
        Examples.returned
          (Examples.example_run Examples.example_executor (Examples.example_sum_plan F_SUM_INT4 2)
             Examples.example_agg_slot
             [Examples.example_batch (Some PG_INT32_MAX) None (Some 2)] 1)
        = Raise ERRCODE_NUMERIC_VALUE_OUT_OF_RANGE msg).
Proof. intros [msg H]. vm_compute in H. discriminate H. Qed.

(** ** Initialisation of the node *)

Section Begin.
Context {Q : Type}.
Variable cat : Catalog.
Variable pf : Exec.Platform.
Variable guc : Planner.GUC.
Variable ex : Exec.Executor Q.

(** What a successful initialisation computed. *)
Lemma decompress_chunk_begin_Ok node child st :
  Exec.decompress_chunk_begin cat pf guc ex node child = Ok st ->
  let counts := Exec.count_columns (Exec.decompression_map node)
                  (Exec.is_segmentby_column node) 0 0 in
  let kind := if Exec.batch_sorted_merge node
              then Exec.BatchQueueFunctionsHeap else Exec.BatchQueueFunctionsFifo in
  exists tb flag constified,
    Exec.build_template_columns cat node counts.1 counts.2 = Ok tb /\
    Exec.constify_vectorized_quals (Exec.estimate_expression_value ex)
      (Exec.vectorized_quals_original node) (Exec.vectorized_quals_constified node)
    = Ok (flag, constified) /\
    (Planner.ts_guc_debug_require_batch_sorted_merge guc && negb (Exec.batch_sorted_merge node)
     = false) /\
    st = Exec.set_initialised node child counts.1 counts.2 (Exec.columns tb)
           (Exec.sizeof_DecompressBatchState pf + Exec.sizeof_CompressedColumnValues pf * counts.1)
           (Exec.compute_batch_memory_context_bytes pf (Exec.enable_bulk_decompression node)
              (Exec.columns tb))
           kind (Exec.queue_functions ex kind) constified flag.
Proof.
  intros H counts kind. unfold Exec.decompress_chunk_begin in H.
  subst counts. destruct (Exec.count_columns _ _ 0 0) as [nc nt]. simpl.
  destruct (Exec.build_template_columns cat node nc nt) as [tb|] eqn:Htb; [|discriminate].
  simpl in H.
  destruct (Planner.ts_guc_debug_require_batch_sorted_merge guc &&
            negb (Exec.batch_sorted_merge node)) eqn:Hdebug; [discriminate|].
  simpl in H.
  destruct (Exec.constify_vectorized_quals _ _ _) as [[flag constified]|] eqn:Hc; [|discriminate].
  simpl in H. injection H as <-.
  exists tb, flag, constified. done.
Qed.
End Begin.

(** ** Errors of the initialisation *)

Lemma Ok_internal {A} (a : A) : raises_only_internal (Ok a).
Proof. intros c m H. discriminate. Qed.

Lemma elog_internal {A} msg : raises_only_internal (@elog A msg).
Proof. intros c m H. injection H as <- _. reflexivity. Qed.

Lemma bind_internal {A B} (r : result A) (k : A -> result B) :
  raises_only_internal r -> (forall a, raises_only_internal (k a)) ->
  raises_only_internal (r ≫= k).
Proof.
  intros Hr Hk. destruct r as [a|c m]; simpl; [apply Hk|].
  intros c' m' H. injection H as <- <-. by eapply Hr.
Qed.

Lemma foreach_internal {A S} (body : S -> A -> result S) l :
  (forall s x, raises_only_internal (body s x)) ->
  forall s, raises_only_internal (foreach body l s).
Proof.
  intros Hbody. induction l as [|x l IH]; intros s; simpl.
  - apply Ok_internal.
  - apply bind_internal; auto.
Qed.

Create HintDb internal.

#[local] Hint Resolve Ok_internal elog_internal : internal.

Lemma list_nth_int_internal l n : raises_only_internal (Exec.list_nth_int l n).
Proof. unfold Exec.list_nth_int. destruct (l !! n); auto with internal. Qed.

#[local] Hint Resolve list_nth_int_internal : internal.

Lemma describe_column_internal {Q} cat (st : Exec.DecompressChunkState Q) i :
  raises_only_internal (Exec.describe_column cat st i).
Proof.
  unfold Exec.describe_column.
  apply bind_internal; [auto with internal|]. intros output_attno.
  apply bind_internal; [auto with internal|]. intros bulk.
  repeat case_decide; auto with internal.
  apply bind_internal; [destruct (Exec.perform_vectorized_aggregation st); auto with internal|].
  intros agg_type. apply bind_internal.
  - destruct (_ && _); auto with internal. destruct (_ !! _); auto with internal.
  - intros [typid value_bytes]. apply bind_internal; auto with internal.
Qed.

Lemma build_template_columns_internal {Q} cat (st : Exec.DecompressChunkState Q) nc nt :
  raises_only_internal (Exec.build_template_columns cat st nc nt).
Proof.
  apply foreach_internal. intros tb i. unfold Exec.place_column.
  apply bind_internal; [apply describe_column_internal|].
  intros [column|]; [case_decide|]; auto with internal.
Qed.

Lemma constify_vectorized_quals_internal estimate quals :
  forall acc, raises_only_internal (Exec.constify_vectorized_quals estimate quals acc).
Proof.
  induction quals as [|q quals IH]; intros acc; simpl; [auto with internal|].
  destruct (estimate q); auto with internal.
  - destruct (_ || _); auto with internal.
  - apply bind_internal; [|auto]. unfold Ensure. destruct args as [|? [|? ?]]; auto with internal.
    destruct (is_Const _); auto with internal.
Qed.

Lemma decompress_chunk_begin_internal {Q} cat pf guc (ex : Exec.Executor Q) node child :
  raises_only_internal (Exec.decompress_chunk_begin cat pf guc ex node child).
Proof.
  unfold Exec.decompress_chunk_begin.
  destruct (Exec.count_columns _ _ 0 0) as [nc nt].
  apply bind_internal; [apply build_template_columns_internal|]. intros tb.
  apply bind_internal; [destruct (_ && _); auto with internal|]. intros _.
  apply bind_internal; [apply constify_vectorized_quals_internal|].
  intros [flag constified]. auto with internal.
Qed.

(** ** Aggregates other than SUM(int4) *)

Lemma remove_dups_NoDup {A} `{EqDecision A} (l : list A) : NoDup l -> remove_dups l = l.
Proof.
  induction 1 as [|x l Hx _ IH]; simpl; [done|].
  destruct (decide_rel elem_of x l); [done|]. by rewrite IH.
Qed.

Lemma bms_num_members_batch_array_create n :
  0 <= n -> Exec.bms_num_members (Exec.batch_array_create n) = n.
Proof.
  intros Hn. unfold Exec.bms_num_members, Exec.batch_array_create.
  rewrite remove_dups_NoDup by apply NoDup_seqZ. rewrite length_seqZ. lia.
Qed.

(** An aggregating node whose batch states are all unused and whose
    aggregate is not SUM(int4) raises when it is called. *)
Lemma exec_impl_unsupported_aggregate {Q : Type} (cat : Catalog) (ex : Exec.Executor Q)
    (st : Exec.DecompressChunkState Q) (q : Exec.BatchQueueFunctions Q)
    aggfnoid aggargs resno rest :
  Exec.perform_vectorized_aggregation st = true ->
  Exec.bms_num_members (Exec.unused_batch_states st) = Exec.n_batch_states st ->
  Exec.custom_scan_tlist st = mkTargetEntry (T_Aggref aggfnoid aggargs) resno :: rest ->
  aggfnoid <> F_SUM_INT4 ->
  Exec.decompress_chunk_exec_impl cat ex st q
  = Raise ERRCODE_FEATURE_NOT_SUPPORTED "vectorized aggregation for function is not supported".
Proof.
  intros Hagg Hunused Htlist Hfn.
  unfold Exec.decompress_chunk_exec_impl. rewrite Hagg.
  unfold Exec.perform_vectorized_aggregation_impl.
  rewrite decide_False by (intros H; by apply H).
  rewrite Htlist. rewrite decide_False by done. reflexivity.
Qed.

(** C9, amended. When vectorized aggregation is selected for an aggregate
    function other than the supported SUM (of this node: SUM(int4)), the
    initialisation of the node does not raise the error that the function is
    not supported; the first call of the node raises it, before any row is
    returned, so never mid-stream. *)
Theorem unsupported_aggregate_raised_by_first_exec {Q : Type} (cat : Catalog)
    (pf : Exec.Platform) (guc : Planner.GUC) (ex : Exec.Executor Q)
    (node : Exec.DecompressChunkState Q) (child : Exec.ChildScan) :
  (forall msg,
      Exec.decompress_chunk_begin cat pf guc ex node child
      <> Raise ERRCODE_FEATURE_NOT_SUPPORTED msg) /\
  (forall st aggfnoid aggargs resno rest,
      Exec.decompress_chunk_begin cat pf guc ex node child = Ok st ->
      Exec.perform_vectorized_aggregation node = true ->
      Exec.custom_scan_tlist node = mkTargetEntry (T_Aggref aggfnoid aggargs) resno :: rest ->
      aggfnoid <> F_SUM_INT4 ->
      0 <= Exec.batch_capacity (Exec.fifo_queue ex) ->
      0 <= Exec.batch_capacity (Exec.heap_queue ex) ->
      forall n,
        Exec.exec_many cat ex (S n) st
        = Raise ERRCODE_FEATURE_NOT_SUPPORTED
            "vectorized aggregation for function is not supported").
Proof.
  split.
  - intros msg H. apply decompress_chunk_begin_internal in H. discriminate.
  - intros st aggfnoid aggargs resno rest Hbegin Hagg Htlist Hfn Hfifo Hheap n.
    apply decompress_chunk_begin_Ok in Hbegin as (tb & flag & constified & _ & _ & _ & ->).
    simpl. unfold Exec.ExecCustomScan. simpl.
    destruct (Exec.batch_sorted_merge node); simpl;
      unfold Exec.decompress_chunk_exec_heap, Exec.decompress_chunk_exec_fifo;
      erewrite exec_impl_unsupported_aggregate; eauto; simpl;
      by apply bms_num_members_batch_array_create.
Qed.

Lemma unsupported_aggregate_raised_by_first_exec_witness :
  exists st,
    Examples.example_begin Examples.example_executor (Examples.example_sum_plan F_AVG_INT4 3)
       Examples.example_agg_slot
      [Examples.example_batch (Some 1) None (Some 3)] = Ok st /\
    Exec.exec_many Examples.example_catalog Examples.example_executor 1 st
    = Raise ERRCODE_FEATURE_NOT_SUPPORTED
        "vectorized aggregation for function is not supported".
Proof.
  destruct (Examples.example_sum_plan F_AVG_INT4 3) as [cscan|] eqn:Hplan;
    [|vm_compute in Hplan; discriminate Hplan].
  destruct (Examples.example_begin Examples.example_executor (Ok cscan) Examples.example_agg_slot
              [Examples.example_batch (Some 1) None (Some 3)]) as [st|] eqn:Hbegin;
    [|vm_compute in Hplan; injection Hplan as <-; vm_compute in Hbegin; discriminate Hbegin].
  exists st. split; [reflexivity|].
  refine (proj2 (unsupported_aggregate_raised_by_first_exec Examples.example_catalog
                   Examples.x86_64 Examples.example_guc Examples.example_executor
                   (Exec.decompress_chunk_state_create cscan Examples.example_agg_slot
                      Examples.example_chunk)
                   (Exec.mkChild [Examples.example_batch (Some 1) None (Some 3)] 0))
            st F_AVG_INT4 [T_Var 1 3 23] 1 [] Hbegin _ _ _ _ _ 0%nat).
  - vm_compute in Hplan. injection Hplan as <-. reflexivity.
  - vm_compute in Hplan. injection Hplan as <-. reflexivity.
  - discriminate.
  - simpl. lia.
  - simpl. lia.
Defined.

(** C9 as stated fails: the initialisation of a node that is to compute
    AVG(int4) succeeds. *)
Lemma unsupported_aggregate_passes_initialisation :
  is_ok (Examples.example_begin Examples.example_executor (Examples.example_sum_plan F_AVG_INT4 3)
           Examples.example_agg_slot [Examples.example_batch (Some 1) None (Some 3)]) = true.
Proof. vm_compute. reflexivity. Qed.

(** ** Null propagation of the vectorized sum *)

(** C4. The sum over a compressed column is not null as soon as the child
    returned a batch, whether or not the batch holds a value that is not null:
    a batch of three rows whose values are all null (validity bitmap 0) makes
    the result the non-null 0, where the claim asks for null. The same column
    stored as an SQL null ends the query with an error. The sibling loop for
    a segmentby column returns null for a null value, as does either loop
    without any batch. *)
Theorem sum_int4_all_null_batch_is_not_null :
  Examples.returned
    (Examples.example_run Examples.example_executor (Examples.example_sum_plan F_SUM_INT4 3)
       Examples.example_agg_slot
       [Examples.example_batch (Some 1) (Some [3; 0; 11; 12; 13]) (Some 3)] 1)
  = Ok [Some (Exec.mkSlot false [0] [false])] /\
  Examples.returned
    (Examples.example_run Examples.example_executor (Examples.example_sum_plan F_SUM_INT4 3)
       Examples.example_agg_slot
       [Examples.example_batch (Some 1) None (Some 3)] 1)
  = Raise ERRCODE_INTERNAL_ERROR "got unexpected NULL attribute value from compressed batch" /\
  Examples.returned
    (Examples.example_run Examples.example_executor (Examples.example_sum_plan F_SUM_INT4 2)
       Examples.example_agg_slot
       [Examples.example_batch None (Some [3; 0; 11; 12; 13]) (Some 3)] 1)
  = Ok [Some (Exec.mkSlot false [0] [true])] /\
  Examples.returned
    (Examples.example_run Examples.example_executor (Examples.example_sum_plan F_SUM_INT4 3)
       Examples.example_agg_slot [] 1)
  = Ok [Some (Exec.mkSlot false [0] [true])].
Proof. repeat split; vm_compute; reflexivity. Qed.

(** ** A vectorized qual that folds to a constant *)

(** Whatever the value of a constant that is not null, the loop goes on with
    the next qual and neither sets the flag nor keeps the qual: the test at
    line 1443 applies [DatumGetBool] to the pointer to the constant. *)
Lemma constify_skips_non_null_constant estimate qual rest acc consttype constvalue :
  estimate qual = T_Const consttype constvalue false ->
  Exec.constify_vectorized_quals estimate (qual :: rest) acc
  = Exec.constify_vectorized_quals estimate rest acc.
Proof. intros H. simpl. rewrite H. reflexivity. Qed.

(** ** Null constants in vectorized quals *)

Section Contradictions.
Context {Q : Type}.
Variable cat : Catalog.
Variable ex : Exec.Executor Q.

(** A qual that folds to the null constant sets the flag, wherever it is in
    the list, unless an earlier qual ends the initialisation with an error. *)
Lemma constify_null_constant_sets_flag estimate qual quals :
  qual ∈ quals -> is_null_Const (estimate qual) = true ->
  forall acc flag constified,
    Exec.constify_vectorized_quals estimate quals acc = Ok (flag, constified) ->
    flag = true.
Proof.
  intros Hin Hnull. induction quals as [|q quals IH]; [by apply elem_of_nil in Hin|].
  intros acc flag constified. simpl.
  apply elem_of_cons in Hin as [<-|Hin].
  - destruct (estimate qual) as [| ? ? []| | | | | |]; try discriminate.
    simpl. congruence.
  - destruct (estimate q) as [| ? ? isnull| | |? ? args| | |]; try discriminate.
    + destruct isnull; simpl; [congruence|]. by apply IH.
    + destruct (Ensure _ _); [|discriminate]. simpl. by apply IH.
Qed.

(** With the flag set and no aggregation, a call returns [NULL] and leaves
    the state, the child included, as it is. *)
Lemma exec_impl_constant_false st q :
  Exec.perform_vectorized_aggregation st = false ->
  Exec.have_constant_false_vectorized_qual st = true ->
  Exec.decompress_chunk_exec_impl cat ex st q = Ok (None, st).
Proof.
  intros Hagg Hflag. unfold Exec.decompress_chunk_exec_impl. by rewrite Hagg, Hflag.
Qed.

Lemma exec_many_constant_false st n :
  is_Some (Exec.batch_queue st) ->
  Exec.perform_vectorized_aggregation st = false ->
  Exec.have_constant_false_vectorized_qual st = true ->
  Exec.exec_many cat ex n st = Ok (replicate n None, st).
Proof.
  intros [kind Hkind] Hagg Hflag. induction n as [|n IH]; [done|].
  simpl. unfold Exec.ExecCustomScan. rewrite Hkind.
  unfold Exec.decompress_chunk_exec_heap, Exec.decompress_chunk_exec_fifo.
  destruct kind; rewrite exec_impl_constant_false by done; simpl; rewrite IH; done.
Qed.

(** C6. Given PostgreSQL's folding of calls with a null constant
    argument, a vectorized qual [Var op c] whose constant operand evaluates to
    null is treated as a contradiction exactly when its operator is strict.
    In that case the flag is set by the initialisation and, in a node that
    does not perform vectorized aggregation, every call returns end-of-stream
    and leaves the state, the child included, untouched: no batch is fetched
    or decompressed. Under an operator that is not strict the flag is not
    set and the qual is kept with its null constant. *)
Theorem null_constant_contradiction_iff_strict
    (pf : Exec.Platform) (guc : Planner.GUC) (opno opfuncid : Oid) (var arg : Node) :
  folds_strict_calls cat (Exec.estimate_expression_value ex) ->
  keeps_other_calls cat (Exec.estimate_expression_value ex) ->
  is_Var var = true ->
  is_null_Const (Exec.estimate_expression_value ex arg) = true ->
  let qual := T_OpExpr opno opfuncid [var; arg] in
  let strict := func_strict cat (Planner.set_opfuncid cat opno opfuncid) in
  (forall acc,
      Exec.constify_vectorized_quals (Exec.estimate_expression_value ex) [qual] acc
      = Ok (strict, if strict then acc
                    else acc ++ [T_OpExpr opno (Planner.set_opfuncid cat opno opfuncid)
                                   [var; Exec.estimate_expression_value ex arg]])) /\
  (strict = true ->
   forall node child st,
     qual ∈ Exec.vectorized_quals_original node ->
     Exec.decompress_chunk_begin cat pf guc ex node child = Ok st ->
     Exec.have_constant_false_vectorized_qual st = true /\
     (Exec.perform_vectorized_aggregation node = false ->
      forall n, Exec.exec_many cat ex n st = Ok (replicate n None, st))) /\
  (strict = false ->
   forall node child st,
     Exec.vectorized_quals_original node = [qual] ->
     Exec.decompress_chunk_begin cat pf guc ex node child = Ok st ->
     Exec.have_constant_false_vectorized_qual st = false /\
     Exec.vectorized_quals_constified st
     = Exec.vectorized_quals_constified node ++
       [T_OpExpr opno (Planner.set_opfuncid cat opno opfuncid)
          [var; Exec.estimate_expression_value ex arg]]).
Proof.
  intros Hstrict Hkeep Hvar Hnull qual strict. subst qual strict.
  assert (Hone : forall acc,
      Exec.constify_vectorized_quals (Exec.estimate_expression_value ex)
        [T_OpExpr opno opfuncid [var; arg]] acc
      = Ok (func_strict cat (Planner.set_opfuncid cat opno opfuncid),
            if func_strict cat (Planner.set_opfuncid cat opno opfuncid) then acc
            else acc ++ [T_OpExpr opno (Planner.set_opfuncid cat opno opfuncid)
                           [var; Exec.estimate_expression_value ex arg]])).
  { intros acc. simpl.
    destruct (func_strict cat _) eqn:Hs.
    - specialize (Hstrict opno opfuncid var arg Hvar Hnull Hs).
      destruct (Exec.estimate_expression_value ex (T_OpExpr opno opfuncid [var; arg]))
        as [| ? ? []| | | | | |]; try discriminate. reflexivity.
    - rewrite (Hkeep opno opfuncid var arg Hvar Hs).
      destruct (Exec.estimate_expression_value ex arg) as [| ? ? []| | | | | |];
        try discriminate. reflexivity. }
  split; [exact Hone|]. split.
  - intros Hs node child st Hin Hbegin.
    apply decompress_chunk_begin_Ok in Hbegin as (tb & flag & constified & _ & Hc & _ & ->).
    assert (flag = true) as ->.
    { eapply constify_null_constant_sets_flag; [exact Hin| |exact Hc]. by apply Hstrict. }
    split; [reflexivity|]. intros Hagg n.
    apply exec_many_constant_false; simpl; [by eexists|done|done].
  - intros Hs node child st Hquals Hbegin.
    apply decompress_chunk_begin_Ok in Hbegin as (tb & flag & constified & _ & Hc & _ & ->).
    rewrite Hquals, Hone, Hs in Hc. injection Hc as <- <-.
    simpl. split; done.
Qed.
End Contradictions.

Lemma example_estimate_folds_strict_calls :
  folds_strict_calls Examples.example_catalog Examples.example_estimate.
Proof.
  intros opno opfuncid var arg Hvar Hnull Hs.
  cbn [Examples.example_estimate fmap list_fmap existsb]. rewrite Hs, Hnull.
  rewrite orb_true_r. reflexivity.
Qed.

Lemma example_estimate_keeps_other_calls :
  keeps_other_calls Examples.example_catalog Examples.example_estimate.
Proof.
  intros opno opfuncid var arg Hvar Hs.
  cbn [Examples.example_estimate fmap list_fmap existsb]. rewrite Hs.
  destruct var; try discriminate. reflexivity.
Qed.

Lemma null_constant_contradiction_iff_strict_witness :
  let qual := T_OpExpr 521 0 [T_Var 1 3 23; T_Const 23 0 true] in
  Exec.constify_vectorized_quals Examples.example_estimate [qual] [] = Ok (true, []).
Proof.
  exact (proj1 (null_constant_contradiction_iff_strict Examples.example_catalog
                  Examples.example_executor Examples.x86_64 Examples.example_guc
                  521 0 (T_Var 1 3 23) (T_Const 23 0 true)
                  example_estimate_folds_strict_calls example_estimate_keeps_other_calls
                  eq_refl eq_refl) []).
Defined.

(** C3. With PostgreSQL's constant folding, under which a vectorized qual
    that folds to a constant folds to the null one, a vectorized qual that
    constifies to a constant sets [have_constant_false_vectorized_qual] in
    the initialisation of the node, and from then on every call of a node
    that reads its batches through the queue returns end-of-stream and leaves
    the state as it is, the child included: no row is returned and the child
    is not called again. *)
Theorem constant_qual_ends_the_scan {Q : Type} (cat : Catalog) (pf : Exec.Platform)
    (guc : Planner.GUC) (ex : Exec.Executor Q) (node : Exec.DecompressChunkState Q)
    (child : Exec.ChildScan) (st : Exec.DecompressChunkState Q) (qual : Node) :
  folds_only_to_null (Exec.estimate_expression_value ex) (Exec.vectorized_quals_original node) ->
  qual ∈ Exec.vectorized_quals_original node ->
  is_Const (Exec.estimate_expression_value ex qual) = true ->
  Exec.decompress_chunk_begin cat pf guc ex node child = Ok st ->
  Exec.have_constant_false_vectorized_qual st = true /\
  (Exec.perform_vectorized_aggregation node = false ->
   forall n,
     Exec.exec_many cat ex n st = Ok (replicate n None, st) /\
     Exec.custom_ps st = Exec.custom_ps node ++ [child]).
Proof.
  intros Hfold Hin Hconst Hbegin.
  apply decompress_chunk_begin_Ok in Hbegin as (tb & flag & constified & _ & Hc & _ & ->).
  assert (flag = true) as ->.
  { eapply constify_null_constant_sets_flag; [exact Hin| |exact Hc]. by apply Hfold. }
  split; [reflexivity|]. intros Hagg n. split; [|reflexivity].
  apply exec_many_constant_false; simpl; [by eexists|done|done].
Qed.

Lemma constant_qual_ends_the_scan_witness :
  let rows := [Examples.example_batch (Some 1) (Some [3; 7; 11; 12; 13]) (Some 3)] in
  exists st,
    Exec.decompress_chunk_begin Examples.example_catalog Examples.x86_64 Examples.example_guc
      Examples.example_executor Examples.example_null_qual_node (Exec.mkChild rows 0) = Ok st /\
    Exec.have_constant_false_vectorized_qual st = true /\
    Exec.exec_many Examples.example_catalog Examples.example_executor 3 st
    = Ok ([None; None; None], st) /\
    Exec.custom_ps st = [Exec.mkChild rows 0].
Proof.
  intros rows.
  pose (qual := T_OpExpr 521 0 [T_Var 1 3 23; T_Const 23 0 true]).
  assert (Hquals : Exec.vectorized_quals_original Examples.example_null_qual_node = [qual])
    by (vm_compute; reflexivity).
  assert (Hfold : folds_only_to_null (Exec.estimate_expression_value Examples.example_executor)
                    (Exec.vectorized_quals_original Examples.example_null_qual_node)).
  { intros q Hq _. rewrite Hquals in Hq. apply list_elem_of_singleton in Hq as ->.
    vm_compute. reflexivity. }
  assert (Hin : qual ∈ Exec.vectorized_quals_original Examples.example_null_qual_node)
    by (rewrite Hquals; left).
  assert (Hconst : is_Const (Exec.estimate_expression_value Examples.example_executor qual)
                   = true) by (vm_compute; reflexivity).
  assert (Hagg : Exec.perform_vectorized_aggregation Examples.example_null_qual_node = false)
    by (vm_compute; reflexivity).
  eexists.
  assert (Hbegin : Exec.decompress_chunk_begin Examples.example_catalog Examples.x86_64
                     Examples.example_guc Examples.example_executor Examples.example_null_qual_node
                     (Exec.mkChild rows 0) = Ok _) by (vm_compute; reflexivity).
  split; [exact Hbegin|].
  destruct (constant_qual_ends_the_scan Examples.example_catalog Examples.x86_64
              Examples.example_guc Examples.example_executor Examples.example_null_qual_node
              (Exec.mkChild rows 0) _ qual Hfold Hin Hconst Hbegin) as [Hflag Hexec].
  split; [exact Hflag|].
  destruct (Hexec Hagg 3%nat) as [Hrun Hps].
  split; [exact Hrun|].
  rewrite Hps. vm_compute. reflexivity.
Defined.

(** ** Batch sorted merge and vectorized quals *)

Lemma bind_Ok {A B} (r : result A) (k : A -> result B) b :
  r ≫= k = Ok b -> exists a, r = Ok a /\ k a = Ok b.
Proof. destruct r as [a|]; [|discriminate]. intros H. by exists a. Qed.

Lemma foreach_invariant {A S} (P : S -> Prop) (body : S -> A -> result S) l :
  (forall s x s', body s x = Ok s' -> P s -> P s') ->
  forall s s', foreach body l s = Ok s' -> P s -> P s'.
Proof.
  intros Hbody. induction l as [|x l IH]; intros s s' H Hs; simpl in H.
  - by injection H as <-.
  - apply bind_Ok in H as (s1 & H1 & H2). eauto.
Qed.

Lemma map_target_entry_batch_sorted_merge cat needed cinfo mb target mb' :
  Planner.map_target_entry cat needed cinfo mb target = Ok mb' ->
  Planner.batch_sorted_merge (Planner.mb_path mb')
  = Planner.batch_sorted_merge (Planner.mb_path mb).
Proof.
  unfold Planner.map_target_entry. intros H.
  repeat case_match; try discriminate;
    apply bind_Ok in H as (agg & _ & H); injection H as <-; reflexivity.
Qed.

Lemma build_decompression_map_batch_sorted_merge cat path scan_tlist needed path' :
  Planner.build_decompression_map cat path scan_tlist needed = Ok path' ->
  Planner.batch_sorted_merge path' = Planner.batch_sorted_merge path.
Proof.
  unfold Planner.build_decompression_map. intros H.
  apply bind_Ok in H as (_ & _ & H).
  apply bind_Ok in H as (cinfo & _ & H).
  apply bind_Ok in H as (mb & Hmb & H).
  assert (Hpath : path' = Planner.mb_path mb)
    by (repeat case_match; try discriminate; by injection H as <-).
  subst path'. clear H.
  eapply (foreach_invariant
            (fun mb => Planner.batch_sorted_merge (Planner.mb_path mb)
                       = Planner.batch_sorted_merge path)); [|exact Hmb|reflexivity].
  intros s x s' Hs <-. by eapply map_target_entry_batch_sorted_merge.
Qed.

(** C10. A plan for the batch sorted merge has bulk decompression disabled
    and an empty list of vectorized quals, all qualifiers staying with the
    row-by-row evaluation; the node created from a plan uses the heap queue
    exactly for the batch sorted merge, so a node with vectorized quals uses
    the FIFO queue. *)
Theorem sorted_merge_has_no_vectorized_quals (cat : Catalog) (guc : Planner.GUC)
    (dcpath : Planner.DecompressChunkPath) (decompressed_tlist : list TargetEntry)
    (qual : list Node) (scan_tlist : list TargetEntry) (chunk_attrs_needed : Bitmapset)
    (heap_sort_info : result (list (list Z))) (cscan : Planner.CustomScan) :
  Planner.decompress_chunk_plan_create cat guc dcpath decompressed_tlist qual scan_tlist
    chunk_attrs_needed heap_sort_info = Ok cscan ->
  (Planner.batch_sorted_merge dcpath = true ->
   Planner.s_enable_bulk_decompression (Planner.settings cscan) = false /\
   Planner.custom_exprs cscan = [[]] /\
   Planner.plan_qual cscan = qual) /\
  (forall (Q : Type) (pf : Exec.Platform) (guc' : Planner.GUC) (ex : Exec.Executor Q)
          (slot : Exec.TupleTableSlot) (desc : Relation) (child : Exec.ChildScan)
          (st : Exec.DecompressChunkState Q),
      Exec.decompress_chunk_begin cat pf guc' ex
        (Exec.decompress_chunk_state_create cscan slot desc) child = Ok st ->
      (Exec.batch_queue st = Some Exec.BatchQueueFunctionsHeap <->
       Planner.batch_sorted_merge dcpath = true) /\
      (Planner.batch_sorted_merge dcpath = true ->
       Exec.enable_bulk_decompression st = false /\
       Exec.vectorized_quals_original st = [] /\
       Exec.vectorized_quals_constified st = [] /\
       Exec.have_constant_false_vectorized_qual st = false) /\
      (Exec.vectorized_quals_original st <> [] ->
       Exec.batch_queue st = Some Exec.BatchQueueFunctionsFifo)).
Proof.
  intros Hplan. unfold Planner.decompress_chunk_plan_create in Hplan.
  apply bind_Ok in Hplan as (path' & Hmap & Hplan).
  apply build_decompression_map_batch_sorted_merge in Hmap.
  apply bind_Ok in Hplan as (sort_options & _ & Hplan).
  rewrite Hmap in Hplan.
  destruct (Planner.batch_sorted_merge dcpath) eqn:Hbsm.
  - simpl in Hplan. apply bind_Ok in Hplan as (_ & _ & Hplan). injection Hplan as <-.
    split; [done|]. intros Q pf guc' ex slot desc child st Hbegin.
    apply decompress_chunk_begin_Ok in Hbegin as (tb & flag & constified & _ & Hc & _ & ->).
    simpl in *. injection Hc as <- <-. done.
  - split; [done|]. intros Q pf guc' ex slot desc child st Hbegin.
    destruct (if _ && _ && _ then _ else _) as [vectorized_quals plan_qual].
    apply bind_Ok in Hplan as (_ & _ & Hplan). injection Hplan as <-.
    apply decompress_chunk_begin_Ok in Hbegin as (tb & flag & constified & _ & Hc & _ & ->).
    simpl. done.
Qed.

Lemma sorted_merge_has_no_vectorized_quals_witness :
  let qual := T_OpExpr 521 0 [T_Var 1 3 23; T_Const 23 5 false] in
  exists cscan,
    Examples.example_scan_plan true [qual] = Ok cscan /\
    Planner.s_enable_bulk_decompression (Planner.settings cscan) = false /\
    Planner.custom_exprs cscan = [[]] /\
    Planner.plan_qual cscan = [qual].
Proof.
  intros qual. eexists. split; [vm_compute; reflexivity|].
  refine (proj1 (sorted_merge_has_no_vectorized_quals Examples.example_catalog
                   Examples.example_guc
                   (Examples.example_path [] false true false [T_Var 1 3 23]) [] [qual]
                   Examples.example_scan_tlist [3 - FirstLowInvalidHeapAttributeNumber]
                   (Ok [[3]; [97]; [0]; [0]]) _ _) eq_refl).
  vm_compute. reflexivity.
Defined.

(** ** The layout of the column descriptions *)

Section Template.
Context {Q : Type}.
Variable cat : Catalog.
Variable node : Exec.DecompressChunkState Q.

Lemma list_nth_int_Ok l n x : Exec.list_nth_int l n = Ok x -> l !! n = Some x.
Proof. unfold Exec.list_nth_int. destruct (l !! n); [|discriminate]. congruence. Qed.

(** The description of a column follows its entries in the parallel lists. *)
Lemma describe_column_Ok i a r :
  Exec.decompression_map node !! i = Some a ->
  Exec.describe_column cat node i = Ok r ->
  match r with
  | None => a = 0
  | Some c =>
      a <> 0 /\
      Exec.compressed_scan_attno c = Z.of_nat i + 1 /\
      Exec.output_attno c = a /\
      ((a > 0 /\ exists s, Exec.is_segmentby_column node !! i = Some s /\
                           Exec.type c = if decide (s = 0) then Exec.COMPRESSED_COLUMN
                                         else Exec.SEGMENTBY_COLUMN) \/
       (a = Planner.DECOMPRESS_CHUNK_COUNT_ID /\ Exec.type c = Exec.COUNT_COLUMN) \/
       (a = Planner.DECOMPRESS_CHUNK_SEQUENCE_NUM_ID /\ Exec.type c = Exec.SEQUENCE_NUM_COLUMN))
  end.
Proof.
  intros Ha H. unfold Exec.describe_column in H.
  apply bind_Ok in H as (a' & Ha' & H). apply list_nth_int_Ok in Ha'.
  rewrite Ha in Ha'. injection Ha' as <-.
  apply bind_Ok in H as (bulk & _ & H).
  destruct (decide (a = 0)); [by injection H as <-|].
  destruct (decide (a > 0)).
  - apply bind_Ok in H as (agg_type & _ & H).
    apply bind_Ok in H as ([typid value_bytes] & _ & H).
    apply bind_Ok in H as (s & Hs & H). injection H as <-. simpl.
    apply list_nth_int_Ok in Hs. split; [done|]. split; [done|]. split; [done|].
    left. split; [done|]. by exists s.
  - repeat case_decide; try discriminate; injection H as <-; simpl; auto 10.
Qed.

Lemma insert_at_length {A} (l1 l2 : list A) x y :
  <[length l1 := x]> (l1 ++ y :: l2) = l1 ++ x :: l2.
Proof. induction l1 as [|z l1 IH]; simpl; [done|]. by rewrite IH. Qed.

(** The second pass from the column [i] on, with [pre_c] and [pre_o] already
    placed, [k1] free positions in front and [k2] at the back. *)
Lemma place_columns_layout dsuf :
  forall ssuf i tb tb' pre_c k1 pre_o k2,
    length dsuf = length ssuf ->
    (forall k a, dsuf !! k = Some a -> Exec.decompression_map node !! (i + k)%nat = Some a) ->
    (forall k s, ssuf !! k = Some s -> Exec.is_segmentby_column node !! (i + k)%nat = Some s) ->
    foreach (Exec.place_column cat node) (seq i (length dsuf)) tb = Ok tb' ->
    Exec.columns tb
    = pre_c ++ replicate k1 Exec.zero_column ++ pre_o ++ replicate k2 Exec.zero_column ->
    Exec.current_compressed tb = Z.of_nat (length pre_c) ->
    Exec.current_not_compressed tb = Z.of_nat (length pre_c + k1 + length pre_o) ->
    (length (decompressed_indices true dsuf ssuf i) <= k1)%nat ->
    (length (decompressed_indices false dsuf ssuf i) <= k2)%nat ->
    exists cs os,
      Forall2 (compressed_description (Exec.decompression_map node)
                 (Exec.is_segmentby_column node))
        (decompressed_indices true dsuf ssuf i) cs /\
      Forall2 (other_description (Exec.decompression_map node)
                 (Exec.is_segmentby_column node))
        (decompressed_indices false dsuf ssuf i) os /\
      Exec.columns tb'
      = (pre_c ++ cs) ++ replicate (k1 - length cs) Exec.zero_column ++
        (pre_o ++ os) ++ replicate (k2 - length os) Exec.zero_column.
Proof.
  induction dsuf as [|a dsuf IH];
    intros ssuf i tb tb' pre_c k1 pre_o k2 Hlen Hd Hs Hloop Hcols Hcc Hcnc Hk1 Hk2.
  - simpl in Hloop. injection Hloop as <-. exists [], []. simpl.
    rewrite !app_nil_r, !Nat.sub_0_r. repeat split; [constructor..|done].
  - destruct ssuf as [|s ssuf]; [discriminate|].
    simpl in Hloop. apply bind_Ok in Hloop as (tb1 & Hplace & Hloop).
    pose proof (Hd 0%nat a eq_refl) as Ha. pose proof (Hs 0%nat s eq_refl) as Hsi.
    rewrite Nat.add_0_r in Ha, Hsi.
    assert (Hd' : forall k a', dsuf !! k = Some a' ->
                   Exec.decompression_map node !! (S i + k)%nat = Some a').
    { intros k a' Hk. specialize (Hd (S k) a' Hk). by rewrite Nat.add_succ_r in Hd. }
    assert (Hs' : forall k s', ssuf !! k = Some s' ->
                   Exec.is_segmentby_column node !! (S i + k)%nat = Some s').
    { intros k s' Hk. specialize (Hs (S k) s' Hk). by rewrite Nat.add_succ_r in Hs. }
    assert (Hlen' : length dsuf = length ssuf) by (simpl in Hlen; lia).
    unfold Exec.place_column in Hplace.
    apply bind_Ok in Hplace as (r & Hdesc & Hplace).
    pose proof (describe_column_Ok i a r Ha Hdesc) as Hr.
    simpl in Hk1, Hk2. simpl.
    destruct r as [c|].
    + destruct Hr as (Hne & Hattno & Hout & Hkind).
      assert (Hz : (a =? 0) = false) by (by apply Z.eqb_neq).
      rewrite Hz in Hk1, Hk2 |- *. simpl in Hk1, Hk2 |- *.
      assert (Hcases :
        (Exec.type c = Exec.COMPRESSED_COLUMN /\ is_compressed_entry a s = true /\
         compressed_description (Exec.decompression_map node)
           (Exec.is_segmentby_column node) i c) \/
        (Exec.type c <> Exec.COMPRESSED_COLUMN /\ is_compressed_entry a s = false /\
         other_description (Exec.decompression_map node)
           (Exec.is_segmentby_column node) i c)).
      { unfold is_compressed_entry, compressed_description, other_description.
        rewrite Hout, Ha.
        destruct Hkind as [(Hpos & s0 & Hs0 & Hty)|[(-> & Hty)|(-> & Hty)]].
        - rewrite Hsi in Hs0. injection Hs0 as <-.
          assert ((0 <? a) = true) as -> by (apply Z.ltb_lt; lia).
          destruct (decide (s = 0)) as [->|Hsne].
          + left. rewrite Hty. simpl. rewrite Hsi. done.
          + right. rewrite Hty. assert ((s =? 0) = false) as -> by (by apply Z.eqb_neq).
            simpl. split; [done|]. split; [done|]. split; [done|]. split; [done|].
            left. split; [done|]. split; [done|]. by exists s.
        - right. rewrite Hty. simpl. split; [done|]. split; [done|]. auto 10.
        - right. rewrite Hty. simpl. split; [done|]. split; [done|]. auto 10. }
      destruct Hcases as [(Hty & Hce & Hrel)|(Hty & Hce & Hrel)];
        rewrite Hce in Hk1, Hk2 |- *; simpl in Hk1, Hk2 |- *.
      * rewrite decide_True in Hplace by done. injection Hplace as <-.
        destruct k1 as [|k1]; [lia|].
        edestruct (IH ssuf (S i) _ tb' (pre_c ++ [c]) k1 pre_o k2 Hlen' Hd' Hs' Hloop)
          as (cs & os & Hcs & Hos & Hfinal); simpl.
        { rewrite Hcols, Hcc, Nat2Z.id. simpl. rewrite insert_at_length.
          by rewrite <- app_assoc. }
        { rewrite Hcc, length_app. simpl. lia. }
        { rewrite Hcnc, length_app. simpl. lia. }
        { lia. }
        { lia. }
        exists (c :: cs), os. split; [by constructor|]. split; [done|].
        rewrite Hfinal. simpl. by rewrite <- !app_assoc.
      * rewrite decide_False in Hplace by done. injection Hplace as <-.
        destruct k2 as [|k2]; [lia|].
        edestruct (IH ssuf (S i) _ tb' pre_c k1 (pre_o ++ [c]) k2 Hlen' Hd' Hs' Hloop)
          as (cs & os & Hcs & Hos & Hfinal); simpl.
        { rewrite Hcols, Hcnc, Nat2Z.id. simpl.
          rewrite !app_assoc.
          replace (length pre_c + k1 + length pre_o)%nat
            with (length ((pre_c ++ replicate k1 Exec.zero_column) ++ pre_o))
            by (rewrite !length_app, length_replicate; lia).
          rewrite insert_at_length. by rewrite <- !app_assoc. }
        { done. }
        { rewrite Hcnc, length_app. simpl. lia. }
        { lia. }
        { lia. }
        exists cs, (c :: os). split; [done|]. split; [by constructor|].
        rewrite Hfinal. simpl. by rewrite <- !app_assoc.
    + subst a. simpl in Hk1, Hk2 |- *. injection Hplace as <-.
      by eapply (IH ssuf (S i) tb tb' pre_c k1 pre_o k2).
Qed.

(** The first pass counts the columns of both kinds. *)
Lemma count_columns_indices dest :
  forall segs i num_compressed num_total,
    Exec.count_columns dest segs num_compressed num_total
    = (num_compressed + Z.of_nat (length (decompressed_indices true dest segs i)),
       num_total + Z.of_nat (length (decompressed_indices true dest segs i) +
                             length (decompressed_indices false dest segs i))).
Proof.
  induction dest as [|a dest IH]; intros segs i nc nt; simpl.
  - f_equal; lia.
  - destruct segs as [|s segs]; simpl; [f_equal; lia|].
    destruct (decide (a = 0)) as [->|Hne].
    + simpl. apply IH.
    + assert ((a =? 0) = false) as -> by (by apply Z.eqb_neq). simpl.
      rewrite (IH segs (S i)). unfold is_compressed_entry.
      destruct (decide (a > 0 /\ s = 0)) as [[Hpos ->]|Hno].
      * assert ((0 <? a) = true) as -> by (apply Z.ltb_lt; lia). simpl. f_equal; lia.
      * assert ((0 <? a) && (s =? 0) = false) as ->.
        { apply andb_false_iff. destruct (decide (a > 0)).
          - right. apply Z.eqb_neq. intros ->. by apply Hno.
          - left. apply Z.ltb_ge. lia. }
        simpl. f_equal; lia.
Qed.
End Template.

(** C7. After the initialisation of a node whose parallel lists have one
    length, the positions [0, num_compressed) of [template_columns] hold
    exactly the compressed columns, neither segmentby nor metadata, and the
    positions [num_compressed, num_total) all segmentby and metadata columns,
    each group in the order of the scan targetlist; columns with the
    destination 0 are left out. *)
Theorem template_columns_compressed_prefix {Q : Type} (cat : Catalog) (pf : Exec.Platform)
    (guc : Planner.GUC) (ex : Exec.Executor Q) (node : Exec.DecompressChunkState Q)
    (child : Exec.ChildScan) (st : Exec.DecompressChunkState Q) :
  length (Exec.decompression_map node) = length (Exec.is_segmentby_column node) ->
  Exec.decompress_chunk_begin cat pf guc ex node child = Ok st ->
  let dest := Exec.decompression_map node in
  let segs := Exec.is_segmentby_column node in
  exists compressed others,
    Exec.template_columns st = compressed ++ others /\
    Exec.num_compressed_columns st = Z.of_nat (length compressed) /\
    Exec.num_total_columns st = Z.of_nat (length (compressed ++ others)) /\
    Forall2 (compressed_description dest segs) (decompressed_indices true dest segs 0)
      compressed /\
    Forall2 (other_description dest segs) (decompressed_indices false dest segs 0) others.
Proof.
  intros Hlen Hbegin dest segs.
  apply decompress_chunk_begin_Ok in Hbegin as (tb & flag & constified & Htb & _ & _ & ->).
  fold dest segs in Htb. rewrite (count_columns_indices dest segs 0) in Htb.
  simpl in Htb. unfold Exec.build_template_columns in Htb.
  set (k1 := length (decompressed_indices true dest segs 0)) in *.
  set (k2 := length (decompressed_indices false dest segs 0)) in *.
  pose proof (fun tb0 => place_columns_layout cat node dest segs 0%nat tb0 tb [] k1 [] k2 Hlen)
    as Hlayout.
  specialize (Hlayout _ (fun k a H => H) (fun k s H => H) Htb).
  destruct Hlayout as (cs & os & Hcs & Hos & Hfinal).
  - simpl. rewrite Z.add_0_l, Nat2Z.id. apply replicate_add.
  - done.
  - simpl. lia.
  - done.
  - done.
  - pose proof (Forall2_length Hcs) as Hl1.
    pose proof (Forall2_length Hos) as Hl2.
    fold k1 in Hl1. fold k2 in Hl2. simpl in Hfinal.
    rewrite <- Hl1, <- Hl2, !Nat.sub_diag in Hfinal. simpl in Hfinal.
    rewrite app_nil_r in Hfinal.
    exists cs, os. simpl. rewrite (count_columns_indices dest segs 0). simpl.
    fold k1 k2. rewrite length_app, Hl1, Hl2. done.
Qed.

Lemma template_columns_compressed_prefix_witness :
  exists st compressed others,
    Exec.decompress_chunk_begin Examples.example_catalog Examples.x86_64 Examples.example_guc
      Examples.example_executor Examples.example_node (Exec.mkChild [] 0) = Ok st /\
    Exec.template_columns st = compressed ++ others /\
    Exec.num_compressed_columns st = Z.of_nat (length compressed) /\
    Exec.num_total_columns st = Z.of_nat (length (compressed ++ others)) /\
    Forall2 (compressed_description [0; 0; 3; -9; 0; 0; 0] [0; 1; 0; 0; 0; 0; 0]) [2%nat]
      compressed /\
    Forall2 (other_description [0; 0; 3; -9; 0; 0; 0] [0; 1; 0; 0; 0; 0; 0]) [3%nat] others.
Proof.
  eexists.
  assert (Hbegin : Exec.decompress_chunk_begin Examples.example_catalog Examples.x86_64
                     Examples.example_guc Examples.example_executor Examples.example_node
                     (Exec.mkChild [] 0) = Ok _) by (vm_compute; reflexivity).
  destruct (template_columns_compressed_prefix Examples.example_catalog Examples.x86_64
              Examples.example_guc Examples.example_executor Examples.example_node
              (Exec.mkChild [] 0) _ eq_refl Hbegin)
    as (compressed & others & H).
  exists compressed, others. split; [exact Hbegin|exact H].
Defined.

(** ** The size of the batch memory context *)

Lemma int32_id z : PG_INT32_MIN <= z <= PG_INT32_MAX -> Exec.int32 z = z.
Proof.
  unfold PG_INT32_MIN, PG_INT32_MAX, Exec.int32, wrap_signed. intros Hz.
  rewrite Z.mod_small; lia.
Qed.

Section ContextBytes.
Variable pf : Exec.Platform.
Hypothesis rows_nonneg : 0 <= Exec.GLOBAL_MAX_ROWS_PER_COMPRESSION pf.
Hypothesis pointer_nonneg : 0 <= Exec.sizeof_pointer pf.
Hypothesis arrow_nonneg : 0 <= Exec.sizeof_ArrowArray pf.

Lemma nulls_bitmap_bytes_nonneg : 0 <= Exec.nulls_bitmap_bytes pf.
Proof. unfold Exec.nulls_bitmap_bytes, Exec.sizeof_uint64. apply Z.quot_pos; lia. Qed.

Lemma add_column_bytes_exact bytes c :
  0 <= bytes ->
  0 <= Exec.value_bytes c ->
  bytes + column_arena_bytes pf c <= PG_INT32_MAX ->
  Exec.bulk_decompression_supported c = true ->
  Exec.add_column_bytes pf bytes c = bytes + column_arena_bytes pf c.
Proof.
  intros Hb Hv Hmax Hbulk. unfold Exec.add_column_bytes. rewrite Hbulk.
  pose proof nulls_bitmap_bytes_nonneg as Hn.
  unfold column_arena_bytes in *.
  assert (0 <= (Exec.GLOBAL_MAX_ROWS_PER_COMPRESSION pf + 64) * Exec.value_bytes c) by nia.
  unfold PG_INT32_MAX in Hmax.
  assert (Hid : forall z, 0 <= z <= 2 ^ 31 - 1 -> Exec.int32 z = z).
  { intros z Hz. apply int32_id. unfold PG_INT32_MIN, PG_INT32_MAX. lia. }
  cbv zeta.
  rewrite (Hid (bytes + _)) by lia.
  rewrite (Hid (bytes + _ + _)) by lia.
  rewrite (Hid (bytes + _ + _ + _)) by lia.
  rewrite Hid by lia. lia.
Qed.

Lemma column_arena_bytes_nonneg c : 0 <= Exec.value_bytes c -> 0 <= column_arena_bytes pf c.
Proof.
  intros Hv. pose proof nulls_bitmap_bytes_nonneg. unfold column_arena_bytes. nia.
Qed.

Lemma sum_list_cons x l : sum_list (x :: l) = x + sum_list l.
Proof. reflexivity. Qed.

Lemma sum_arena_bytes_nonneg l :
  Forall (fun c => 0 <= Exec.value_bytes c) l ->
  0 <= sum_list (column_arena_bytes pf <$> l).
Proof.
  induction 1 as [|x l Hx _ IHl]; [done|].
  rewrite fmap_cons, sum_list_cons. pose proof (column_arena_bytes_nonneg x Hx). lia.
Qed.

Lemma foldl_add_column_bytes columns :
  forall bytes,
    0 <= bytes ->
    Forall (fun c => 0 <= Exec.value_bytes c) (bulk_columns columns) ->
    bytes + sum_list (column_arena_bytes pf <$> bulk_columns columns) <= PG_INT32_MAX ->
    foldl (Exec.add_column_bytes pf) bytes columns
    = bytes + sum_list (column_arena_bytes pf <$> bulk_columns columns).
Proof.
  induction columns as [|c columns IH]; intros bytes Hb Hv Hmax; simpl.
  - unfold sum_list. simpl. lia.
  - unfold bulk_columns in *. rewrite filter_cons in Hv, Hmax |- *.
    destruct (decide (Exec.bulk_decompression_supported c = true)) as [Hbulk|Hbulk].
    + apply Forall_cons_1 in Hv as [Hc Hv].
      rewrite fmap_cons, sum_list_cons in Hmax |- *.
      pose proof (column_arena_bytes_nonneg c Hc).
      pose proof (sum_arena_bytes_nonneg _ Hv).
      rewrite add_column_bytes_exact by (done || lia).
      rewrite IH by (done || lia). lia.
    + unfold Exec.add_column_bytes at 2.
      destruct (Exec.bulk_decompression_supported c); [done|]. by apply IH.
Qed.

Lemma compute_batch_memory_context_bytes_exact (enable : bool)
    (columns : list Exec.DecompressChunkColumnDescription) :
  let bulk := if enable then bulk_columns columns else [] in
  Forall (fun c => 0 <= Exec.value_bytes c) bulk ->
  Exec.ALLOCSET_DEFAULT_INITSIZE + sum_list (column_arena_bytes pf <$> bulk)
  <= PG_INT32_MAX - 4095 ->
  Exec.compute_batch_memory_context_bytes pf enable columns
  = Z.min (round_up_4k (Exec.ALLOCSET_DEFAULT_INITSIZE +
                        sum_list (column_arena_bytes pf <$> bulk)))
      (1 * 1024 * 1024).
Proof.
  intros bulk Hv Hmax. unfold Exec.compute_batch_memory_context_bytes. cbv zeta.
  assert (Hsum : (if enable
                  then foldl (Exec.add_column_bytes pf) Exec.ALLOCSET_DEFAULT_INITSIZE columns
                  else Exec.ALLOCSET_DEFAULT_INITSIZE)
                 = Exec.ALLOCSET_DEFAULT_INITSIZE + sum_list (column_arena_bytes pf <$> bulk)).
  { subst bulk. destruct enable.
    - apply foldl_add_column_bytes; [done|done|lia].
    - unfold sum_list. simpl. lia. }
  rewrite Hsum. clear Hsum.
  pose proof (sum_arena_bytes_nonneg _ Hv) as Hnn.
  set (total := Exec.ALLOCSET_DEFAULT_INITSIZE + sum_list (column_arena_bytes pf <$> bulk)) in *.
  assert (0 <= total) by (unfold total, Exec.ALLOCSET_DEFAULT_INITSIZE; lia).
  unfold PG_INT32_MAX in Hmax.
  assert (Hid : forall z, 0 <= z <= 2 ^ 31 - 1 -> Exec.int32 z = z).
  { intros z Hz. apply int32_id. unfold PG_INT32_MIN, PG_INT32_MAX. lia. }
  rewrite (Hid (total + 4095)) by lia.
  rewrite Z.quot_div_nonneg by lia.
  pose proof (Z.mul_div_le (total + 4095) 4096 ltac:(lia)).
  pose proof (Z.div_pos (total + 4095) 4096 ltac:(lia) ltac:(lia)).
  rewrite (Hid ((total + 4095) / 4096)) by lia.
  rewrite Hid by lia. reflexivity.
Qed.
End ContextBytes.

(** C8, amended. The size of the batch memory context computed by the
    initialisation is the 8 KiB default initial size plus, when bulk
    decompression is enabled, for every column that supports bulk
    decompression [(N_MAX + 64) * value_bytes] for the values and what the
    code reserves for the validity bitmap, the Arrow structure and the
    headers; the sum is rounded up to a multiple of 4 KiB and clamped to
    1 MiB. This holds as long as the sum fits the C [int] it is held in. *)
Theorem batch_memory_context_bytes_formula {Q : Type} (cat : Catalog) (pf : Exec.Platform)
    (guc : Planner.GUC) (ex : Exec.Executor Q) (node : Exec.DecompressChunkState Q)
    (child : Exec.ChildScan) (st : Exec.DecompressChunkState Q) :
  Exec.decompress_chunk_begin cat pf guc ex node child = Ok st ->
  let bulk := if Exec.enable_bulk_decompression st
              then bulk_columns (Exec.template_columns st) else [] in
  let total := Exec.ALLOCSET_DEFAULT_INITSIZE + sum_list (column_arena_bytes pf <$> bulk) in
  0 <= Exec.GLOBAL_MAX_ROWS_PER_COMPRESSION pf ->
  0 <= Exec.sizeof_pointer pf ->
  0 <= Exec.sizeof_ArrowArray pf ->
  Forall (fun c => 0 <= Exec.value_bytes c) bulk ->
  total <= PG_INT32_MAX - 4095 ->
  Exec.batch_memory_context_bytes st = Z.min (round_up_4k total) (1024 * 1024) /\
  Exec.batch_memory_context_bytes st mod 4096 = 0 /\
  Exec.ALLOCSET_DEFAULT_INITSIZE <= Exec.batch_memory_context_bytes st <= 1024 * 1024.
Proof.
  intros Hbegin bulk total Hrows Hptr Harrow Hv Hmax.
  apply decompress_chunk_begin_Ok in Hbegin as (tb & flag & constified & _ & _ & _ & ->).
  simpl in *.
  rewrite (compute_batch_memory_context_bytes_exact pf Hrows Hptr Harrow _ _ Hv Hmax).
  change (1 * 1024 * 1024) with (1024 * 1024). fold bulk total.
  pose proof (sum_arena_bytes_nonneg pf Hrows Hptr Harrow _ Hv) as Hnn. fold bulk in Hnn.
  assert (Hdefault : Exec.ALLOCSET_DEFAULT_INITSIZE = 2 * 4096) by reflexivity.
  assert (Htotal : Exec.ALLOCSET_DEFAULT_INITSIZE <= total) by (unfold total; lia).
  unfold round_up_4k.
  pose proof (Z.mul_div_le (total + 4095) 4096 ltac:(lia)).
  pose proof (Z.mul_succ_div_gt (total + 4095) 4096 ltac:(lia)).
  split; [reflexivity|]. split.
  - destruct (Z.min_spec ((total + 4095) / 4096 * 4096) (1024 * 1024)) as [[_ ->]|[_ ->]].
    + apply Z.mod_mul. lia.
    + reflexivity.
  - lia.
Qed.

Lemma batch_memory_context_bytes_formula_witness :
  exists st,
    Exec.decompress_chunk_begin Examples.example_catalog Examples.x86_64 Examples.example_guc
      Examples.example_executor Examples.example_node (Exec.mkChild [] 0) = Ok st /\
    Exec.batch_memory_context_bytes st = 16384.
Proof.
  eexists.
  assert (Hbegin : Exec.decompress_chunk_begin Examples.example_catalog Examples.x86_64
                     Examples.example_guc Examples.example_executor Examples.example_node
                     (Exec.mkChild [] 0) = Ok _) by (vm_compute; reflexivity).
  split; [exact Hbegin|].
  refine (proj1 (batch_memory_context_bytes_formula Examples.example_catalog Examples.x86_64
                   Examples.example_guc Examples.example_executor Examples.example_node
                   (Exec.mkChild [] 0) _ Hbegin _ _ _ _ _)).
  - simpl. lia.
  - simpl. lia.
  - simpl. lia.
  - repeat constructor. simpl. lia.
  - vm_compute. discriminate.
Defined.

(** C8 as stated fails: the size of a node without a column that supports
    bulk decompression is 8 KiB, not the empty sum. *)
Lemma batch_memory_context_bytes_is_not_the_claimed_sum :
  let st := Examples.example_begin Examples.example_executor
              (Examples.example_sum_plan F_SUM_INT4 2) Examples.example_agg_slot [] in
  Exec.batch_memory_context_bytes <$> st = Ok 8192 /\
  (fun st => bulk_columns (Exec.template_columns st)) <$> st = Ok [] /\
  ~ (exists header_overhead, claimed_arena_bytes Examples.x86_64 header_overhead [] = 8192).
Proof.
  repeat split; try (vm_compute; reflexivity).
  intros [header_overhead H]. vm_compute in H. discriminate H.
Qed.

(** ** Bitmapsets *)

Lemma bms_is_member_spec x a : bms_is_member x a = true <-> x ∈ a.
Proof. unfold bms_is_member. apply bool_decide_eq_true. Qed.

Lemma elem_of_bms_add_member x a y : x ∈ bms_add_member a y <-> x = y \/ x ∈ a.
Proof.
  unfold bms_add_member. destruct (bms_is_member y a) eqn:E.
  - apply bms_is_member_spec in E. split; [auto|]. intros [->|]; done.
  - apply elem_of_cons.
Qed.

Lemma elem_of_bms_difference x a b : x ∈ bms_difference a b <-> x ∈ a /\ x ∉ b.
Proof. unfold bms_difference. rewrite list_elem_of_filter. tauto. Qed.

Lemma bms_next_member_found a prev :
  bms_next_member a prev = -2 \/
  (bms_next_member a prev ∈ a /\ prev < bms_next_member a prev).
Proof.
  induction a as [|x a IH]; simpl; [by left|].
  fold (bms_next_member a prev).
  destruct (decide (prev < x)) as [Hx|Hx].
  - destruct (decide (bms_next_member a prev = -2 \/ x < bms_next_member a prev)).
    + right. split; [left|done].
    + destruct IH as [IH|[IH1 IH2]]; [tauto|]. right. split; [by right|done].
  - destruct IH as [IH|[IH1 IH2]]; [by left|]. right. split; [by right|done].
Qed.

Lemma bms_next_member_none a prev :
  (forall x, x ∈ a -> x <= prev) -> bms_next_member a prev = -2.
Proof.
  intros H. induction a as [|x a IH]; simpl; [done|].
  fold (bms_next_member a prev).
  assert (Hx : x <= prev) by (apply H; left).
  destruct (decide (prev < x)); [lia|].
  apply IH. intros y Hy. apply H. by right.
Qed.

Lemma check_for_system_columns_Ok attrs_used :
  (forall b, b ∈ attrs_used ->
             b + FirstLowInvalidHeapAttributeNumber < 0 ->
             b + FirstLowInvalidHeapAttributeNumber = TableOidAttributeNumber) ->
  Planner.check_for_system_columns attrs_used = Ok tt.
Proof.
  unfold Planner.check_for_system_columns, FirstLowInvalidHeapAttributeNumber,
    TableOidAttributeNumber.
  intros H.
  destruct (bms_next_member_found attrs_used (-1)) as [->|[Hin Hgt]]; [done|].
  set (bit := bms_next_member attrs_used (-1)) in *.
  destruct (decide (bit > 0 /\ bit + -7 < 0)) as [[Hpos Hsys]|]; [|done].
  pose proof (H bit Hin Hsys) as Hbit.
  destruct (decide (bit = -6 - -7)); [|lia].
  destruct (bms_next_member_found attrs_used bit) as [->|[Hin2 Hgt2]]; [done|].
  set (bit2 := bms_next_member attrs_used bit) in *.
  destruct (decide (bit2 > 0 /\ bit2 + -7 < 0)) as [[Hpos2 Hsys2]|]; [|done].
  pose proof (H bit2 Hin2 Hsys2). lia.
Qed.

(** ** Catalog lookups *)

Lemma get_attnum_from_range rel name :
  forall start, 0 < start ->
    get_attnum_from rel name start = InvalidAttrNumber \/
    start <= get_attnum_from rel name start < start + Z.of_nat (length rel).
Proof.
  induction rel as [|a rel IH]; intros start Hstart; simpl; [by left|].
  destruct (String.eqb (pg_attname a) name); [right; lia|].
  destruct (IH (start + 1) ltac:(lia)) as [->|H]; [by left|right; lia].
Qed.

Lemma get_attnum_range rel name : 0 <= get_attnum rel name <= Z.of_nat (length rel).
Proof.
  unfold get_attnum. destruct (get_attnum_from_range rel name 1 ltac:(lia)) as [->|H];
    unfold InvalidAttrNumber; lia.
Qed.

Lemma get_attname_Some rel attno name :
  get_attname rel attno = Some name -> 0 < attno <= Z.of_nat (length rel).
Proof.
  unfold get_attname. destruct (decide (0 < attno)); [|discriminate].
  intros H. destruct (rel !! Z.to_nat (attno - 1)) eqn:E; [|discriminate].
  apply lookup_lt_Some in E. lia.
Qed.

(** ** The helper array of compression infos *)

Lemma fill_compression_info_Ok compressed rows :
  forall arr arr',
    Planner.fill_compression_info compressed rows arr = Ok arr' ->
    length arr = S (length compressed) ->
    length arr' = length arr /\
    forall n, (n < length arr)%nat ->
      (mjoin (arr' !! n) = None <->
       mjoin (arr !! n) = None /\
       forall row, row ∈ rows -> Z.to_nat (get_attnum compressed (Planner.attname row)) <> n).
Proof.
  induction rows as [|row rows IH]; intros arr arr' H Hlen; simpl in H.
  - injection H as <-. split; [done|]. intros n Hn. split; [|tauto].
    intros Hnone. split; [done|]. intros row Hrow. by apply elem_of_nil in Hrow.
  - destruct (decide (get_attnum compressed (Planner.attname row) = InvalidAttrNumber));
      [discriminate|].
    apply IH in H as [Hlen' Hiff]; [|by rewrite length_insert].
    rewrite length_insert in Hlen', Hiff. split; [done|].
    intros k Hk. rewrite (Hiff k Hk).
    pose proof (get_attnum_range compressed (Planner.attname row)) as Hrange.
    destruct (decide (Z.to_nat (get_attnum compressed (Planner.attname row)) = k)) as [<-|Hne].
    + rewrite list_lookup_insert_eq by lia. simpl. split; [intros [? _]; discriminate|].
      intros [_ Hall]. exfalso. eapply Hall; [left|done].
    + rewrite list_lookup_insert_ne by done. split.
      * intros [Hnone Hall]. split; [done|]. intros r Hr.
        apply elem_of_cons in Hr as [->|Hr]; [done|by apply Hall].
      * intros [Hnone Hall]. split; [done|]. intros r Hr. apply Hall. by right.
Qed.

Lemma fill_compression_info_succeeds compressed rows :
  (forall row, row ∈ rows ->
               get_attnum compressed (Planner.attname row) <> InvalidAttrNumber) ->
  forall arr, is_ok (Planner.fill_compression_info compressed rows arr) = true.
Proof.
  induction rows as [|row rows IH]; intros Hrows arr; simpl; [done|].
  rewrite decide_False by (apply Hrows; left).
  apply IH. intros r Hr. apply Hrows. by right.
Qed.

(** The code finds no compression info for a column of the compressed chunk
    exactly when the column is a metadata column. *)
Lemma compression_info_None i cinfo attno :
  Planner.compressed_attno_to_compression_info i = Ok cinfo ->
  0 < attno <= Z.of_nat (length (Planner.compressed_rte i)) ->
  mjoin (cinfo !! Z.to_nat attno) = None <-> is_metadata_attno i attno.
Proof.
  unfold Planner.compressed_attno_to_compression_info. intros H Hattno.
  apply fill_compression_info_Ok in H as [_ Hiff]; [|by rewrite length_replicate].
  rewrite length_replicate in Hiff. rewrite Hiff by lia. clear Hiff.
  unfold is_metadata_attno. split.
  - intros [_ Hall] row Hrow Heq. apply (Hall row Hrow). by rewrite Heq.
  - intros Hall. split.
    + rewrite lookup_replicate_2 by lia. done.
    + intros row Hrow Heq. apply (Hall row Hrow).
      pose proof (get_attnum_range (Planner.compressed_rte i) (Planner.attname row)). lia.
Qed.

(** ** One entry of the scan targetlist *)

(** What a successful turn of the loop did. *)
Lemma map_target_entry_Ok cat needed cinfo mb target mb' :
  Planner.map_target_entry cat needed cinfo mb target = Ok mb' ->
  let path := Planner.mb_path mb in
  exists varno attno vartype name,
    expr target = T_Var varno attno vartype /\
    get_attname (Planner.compressed_rte (Planner.info path)) attno = Some name /\
    Planner.info (Planner.mb_path mb') = Planner.info path /\
    Planner.needs_sequence_num (Planner.mb_path mb') = Planner.needs_sequence_num path /\
    Planner.perform_vectorized_aggregation (Planner.mb_path mb')
    = Planner.perform_vectorized_aggregation path /\
    Planner.reltarget_exprs (Planner.mb_path mb') = Planner.reltarget_exprs path /\
    match mjoin (cinfo !! Z.to_nat attno) with
    | Some _ =>
        let bit := get_attnum (Planner.chunk_rte (Planner.info path)) name
                   - FirstLowInvalidHeapAttributeNumber in
        Planner.missing_count mb' = Planner.missing_count mb /\
        Planner.missing_sequence mb' = Planner.missing_sequence mb /\
        Planner.chunk_attrs_found mb'
        = if bms_is_member (0 - FirstLowInvalidHeapAttributeNumber) needed ||
             bms_is_member bit needed
          then bms_add_member (Planner.chunk_attrs_found mb) bit
          else Planner.chunk_attrs_found mb
    | None =>
        Planner.chunk_attrs_found mb' = Planner.chunk_attrs_found mb /\
        Planner.missing_count mb'
        = (if String.eqb name Planner.COMPRESSION_COLUMN_METADATA_COUNT_NAME
           then false else Planner.missing_count mb) /\
        Planner.missing_sequence mb'
        = (if String.eqb name Planner.COMPRESSION_COLUMN_METADATA_COUNT_NAME
           then Planner.missing_sequence mb
           else if Planner.needs_sequence_num path &&
                   String.eqb name Planner.COMPRESSION_COLUMN_METADATA_SEQUENCE_NUM_NAME
                then false else Planner.missing_sequence mb)
    end.
Proof.
  intros H path. unfold Planner.map_target_entry in H. fold path in H.
  destruct (expr target) as [varno attno vartype| | | | | | |]; try discriminate.
  destruct (decide (attno = InvalidAttrNumber)); [discriminate|].
  destruct (get_attname _ attno) as [name|] eqn:Hname; [|discriminate].
  exists varno, attno, vartype, name. split; [done|]. split; [done|].
  destruct (mjoin (cinfo !! Z.to_nat attno)) as [ci|]; cbv zeta in H |- *.
  - destruct (bms_is_member (0 - FirstLowInvalidHeapAttributeNumber) needed);
      [|destruct (bms_is_member _ needed)];
      apply bind_Ok in H as (agg & _ & H); injection H as <-; simpl; done.
  - destruct (String.eqb name Planner.COMPRESSION_COLUMN_METADATA_COUNT_NAME);
      [|destruct (_ && _)];
      apply bind_Ok in H as (agg & _ & H); injection H as <-; simpl; done.
Qed.

(** A turn of the loop succeeds on a Var of a column of the compressed
    chunk. *)
Lemma map_target_entry_succeeds cat needed cinfo mb target varno attno vartype name :
  expr target = T_Var varno attno vartype ->
  get_attname (Planner.compressed_rte (Planner.info (Planner.mb_path mb))) attno = Some name ->
  (Planner.perform_vectorized_aggregation (Planner.mb_path mb) = true ->
   exists varno' attno' vartype' rest,
     Planner.reltarget_exprs (Planner.mb_path mb) = T_Var varno' attno' vartype' :: rest) ->
  is_ok (Planner.map_target_entry cat needed cinfo mb target) = true.
Proof.
  intros Hexpr Hname Hagg. unfold Planner.map_target_entry. rewrite Hexpr.
  apply get_attname_Some in Hname as Hrange.
  rewrite decide_False by (unfold InvalidAttrNumber; lia). rewrite Hname.
  assert (Hentry : forall dest,
             exists agg, Planner.aggregation_column_entry (Planner.mb_path mb) dest = Ok agg).
  { intros dest. unfold Planner.aggregation_column_entry.
    destruct (Planner.perform_vectorized_aggregation (Planner.mb_path mb)); [|by eexists].
    destruct (Hagg eq_refl) as (v & a & t & rest & ->). by eexists. }
  repeat case_match;
    match goal with
    | |- context [Planner.aggregation_column_entry ?p ?d] =>
        destruct (Hentry d) as [agg ->]
    end; reflexivity.
Qed.

(** ** Loops over the targetlist *)

Lemma foreach_invariant_elem {A S} (P : S -> Prop) (body : S -> A -> result S) l :
  (forall s x s', x ∈ l -> body s x = Ok s' -> P s -> P s') ->
  forall s s', foreach body l s = Ok s' -> P s -> P s'.
Proof.
  induction l as [|x l IH]; intros Hbody s s' H Hs; simpl in H.
  - by injection H as <-.
  - apply bind_Ok in H as (s1 & H1 & H2).
    apply (IH (fun s0 y s0' Hy => Hbody s0 y s0' (proj2 (elem_of_cons l y x) (or_intror Hy)))
             s1 s' H2).
    eapply Hbody; [left|exact H1|exact Hs].
Qed.

Lemma foreach_each {A S} (I : S -> Prop) (M : S -> S -> Prop) (R : A -> S -> Prop)
    (body : S -> A -> result S) l :
  (forall s, M s s) ->
  (forall s1 s2 s3, M s1 s2 -> M s2 s3 -> M s1 s3) ->
  (forall x s s', M s s' -> R x s -> R x s') ->
  (forall s x s', I s -> body s x = Ok s' -> I s' /\ R x s' /\ M s s') ->
  forall s s', I s -> foreach body l s = Ok s' ->
               I s' /\ M s s' /\ forall x, x ∈ l -> R x s'.
Proof.
  intros Hrefl Htrans Hstable Hstep.
  induction l as [|x l IH]; intros s s' Hs H; simpl in H.
  - injection H as <-. split; [done|]. split; [done|].
    intros x Hx. by apply elem_of_nil in Hx.
  - apply bind_Ok in H as (s1 & H1 & H2).
    destruct (Hstep s x s1 Hs H1) as (Hs1 & Hx1 & Hm1).
    destruct (IH s1 s' Hs1 H2) as (Hs' & Hm' & Hall).
    split; [done|]. split; [by eapply Htrans|].
    intros y Hy. apply elem_of_cons in Hy as [->|Hy]; [by eapply Hstable|by apply Hall].
Qed.

Lemma foreach_succeeds {A S} (I : S -> Prop) (body : S -> A -> result S) l :
  (forall s x, x ∈ l -> I s -> exists s', body s x = Ok s' /\ I s') ->
  forall s, I s -> exists s', foreach body l s = Ok s'.
Proof.
  induction l as [|x l IH]; intros Hbody s Hs; simpl; [by eexists|].
  destruct (Hbody s x ltac:(left) Hs) as (s1 & -> & Hs1). simpl.
  apply IH; [|done]. intros s0 y Hy. apply Hbody. by right.
Qed.

(** ** The decompression map *)

Section DecompressionMap.
Variable cat : Catalog.
Variable path : Planner.DecompressChunkPath.
Variable scan_tlist : list TargetEntry.
Variable needed : list Z.

Lemma build_decompression_map_Ok path' :
  Planner.build_decompression_map cat path scan_tlist needed = Ok path' ->
  exists cinfo mb,
    Planner.compressed_attno_to_compression_info (Planner.info path) = Ok cinfo /\
    foreach (Planner.map_target_entry cat needed cinfo) scan_tlist
      (Planner.initial_map_build path needed) = Ok mb /\
    Planner.missing_count mb = false /\
    Planner.missing_sequence mb = false.
Proof.
  unfold Planner.build_decompression_map. intros H.
  apply bind_Ok in H as (_ & _ & H).
  apply bind_Ok in H as (cinfo & Hcinfo & H).
  apply bind_Ok in H as (mb & Hmb & H).
  exists cinfo, mb. split; [done|]. split; [done|].
  destruct (decide (_ >= 0)); [discriminate|].
  destruct (Planner.missing_count mb); [discriminate|].
  destruct (Planner.missing_sequence mb); [discriminate|]. done.
Qed.

(** The loop only clears [missing_count] and [missing_sequence] at an entry
    for the count and the sequence number column. *)
Lemma metadata_found_in_tlist cinfo mb :
  Planner.compressed_attno_to_compression_info (Planner.info path) = Ok cinfo ->
  foreach (Planner.map_target_entry cat needed cinfo) scan_tlist
    (Planner.initial_map_build path needed) = Ok mb ->
  (Planner.missing_count mb = false ->
   lists_metadata_column (Planner.info path) scan_tlist
     Planner.COMPRESSION_COLUMN_METADATA_COUNT_NAME) /\
  (Planner.missing_sequence mb = false -> Planner.needs_sequence_num path = true ->
   lists_metadata_column (Planner.info path) scan_tlist
     Planner.COMPRESSION_COLUMN_METADATA_SEQUENCE_NUM_NAME).
Proof.
  intros Hcinfo Hloop.
  pose (P := fun mb : Planner.MapBuild =>
    Planner.info (Planner.mb_path mb) = Planner.info path /\
    Planner.needs_sequence_num (Planner.mb_path mb) = Planner.needs_sequence_num path /\
    (Planner.missing_count mb = false ->
     lists_metadata_column (Planner.info path) scan_tlist
       Planner.COMPRESSION_COLUMN_METADATA_COUNT_NAME) /\
    (Planner.missing_sequence mb = false -> Planner.needs_sequence_num path = true ->
     lists_metadata_column (Planner.info path) scan_tlist
       Planner.COMPRESSION_COLUMN_METADATA_SEQUENCE_NUM_NAME)).
  assert (HP : P mb); [|by destruct HP as (_ & _ & ? & ?)].
  eapply (foreach_invariant_elem P); [|exact Hloop|].
  - intros s target s' Hin Hstep (Hinfo & Hseq & Hcount & Hsequence).
    apply map_target_entry_Ok in Hstep
      as (varno & attno & vartype & name & Hexpr & Hname & Hinfo' & Hseq' & _ & _ & Hcase).
    rewrite Hinfo in Hname. unfold P. rewrite Hinfo', Hseq', Hinfo, Hseq.
    split; [done|]. split; [done|].
    pose proof (get_attname_Some _ _ _ Hname) as Hrange.
    pose proof (compression_info_None _ _ attno Hcinfo Hrange) as Hmeta.
    destruct (mjoin (cinfo !! Z.to_nat attno)) as [ci|].
    + destruct Hcase as (-> & -> & _). done.
    + destruct Hcase as (_ & -> & ->).
      assert (Hlists : forall column,
                 String.eqb name column = true ->
                 lists_metadata_column (Planner.info path) scan_tlist column).
      { intros column Heq. apply String.eqb_eq in Heq as <-.
        exists target. split; [done|]. exists varno, attno, vartype.
        split; [done|]. split; [done|]. by apply Hmeta. }
      rewrite Hseq.
      destruct (String.eqb name Planner.COMPRESSION_COLUMN_METADATA_COUNT_NAME) eqn:Ecount.
      * split; [intros _; by apply Hlists|done].
      * split; [done|].
        destruct (String.eqb name Planner.COMPRESSION_COLUMN_METADATA_SEQUENCE_NUM_NAME)
          eqn:Eseq; rewrite ?andb_false_r; [|done].
        destruct (Planner.needs_sequence_num path); [|done].
        intros _ _. by apply Hlists.
  - unfold P. simpl. split; [done|]. split; [done|]. split; [discriminate|].
    intros -> H. discriminate H.
Qed.

(** The loop runs to its end on a well-formed targetlist. *)
Lemma map_loop_succeeds cinfo :
  well_formed_scan_tlist path scan_tlist ->
  exists mb,
    foreach (Planner.map_target_entry cat needed cinfo) scan_tlist
      (Planner.initial_map_build path needed) = Ok mb.
Proof.
  intros (_ & _ & Hvars & Hagg).
  pose (I := fun mb : Planner.MapBuild =>
    Planner.info (Planner.mb_path mb) = Planner.info path /\
    Planner.perform_vectorized_aggregation (Planner.mb_path mb)
    = Planner.perform_vectorized_aggregation path /\
    Planner.reltarget_exprs (Planner.mb_path mb) = Planner.reltarget_exprs path).
  apply (foreach_succeeds I); [|done].
  intros s target Hin (Hinfo & Hsagg & Hsrel).
  destruct (Hvars target Hin) as (varno & attno & vartype & name & Hexpr & Hname).
  destruct (Planner.map_target_entry cat needed cinfo s target) as [s'|] eqn:Hstep.
  - exists s'. split; [done|].
    apply map_target_entry_Ok in Hstep as (_ & _ & _ & _ & _ & _ & Hi & _ & Ha & Hr & _).
    unfold I. by rewrite Hi, Ha, Hr.
  - exfalso.
    pose proof (map_target_entry_succeeds cat needed cinfo s target varno attno vartype name
                  Hexpr) as Hok.
    rewrite Hinfo, Hsagg, Hsrel, Hstep in Hok. by specialize (Hok Hname Hagg).
Qed.

(** What the loop has found at its end. *)
Lemma map_loop_effects cinfo mb :
  Planner.compressed_attno_to_compression_info (Planner.info path) = Ok cinfo ->
  foreach (Planner.map_target_entry cat needed cinfo) scan_tlist
    (Planner.initial_map_build path needed) = Ok mb ->
  (lists_metadata_column (Planner.info path) scan_tlist
     Planner.COMPRESSION_COLUMN_METADATA_COUNT_NAME ->
   Planner.missing_count mb = false) /\
  ((Planner.needs_sequence_num path = true ->
    lists_metadata_column (Planner.info path) scan_tlist
      Planner.COMPRESSION_COLUMN_METADATA_SEQUENCE_NUM_NAME) ->
   Planner.missing_sequence mb = false) /\
  (forall b, b ∈ needed ->
             (exists target, target ∈ scan_tlist /\
                             target_produces (Planner.info path) b target) ->
             b ∈ Planner.chunk_attrs_found mb).
Proof.
  intros Hcinfo Hloop.
  pose (I := fun s : Planner.MapBuild =>
    Planner.info (Planner.mb_path s) = Planner.info path /\
    Planner.needs_sequence_num (Planner.mb_path s) = Planner.needs_sequence_num path).
  pose (M := fun s s' : Planner.MapBuild =>
    (Planner.missing_count s = false -> Planner.missing_count s' = false) /\
    (Planner.missing_sequence s = false -> Planner.missing_sequence s' = false) /\
    (forall b, b ∈ Planner.chunk_attrs_found s -> b ∈ Planner.chunk_attrs_found s')).
  pose (R := fun (target : TargetEntry) (s : Planner.MapBuild) =>
    (target_is_metadata_column (Planner.info path)
       Planner.COMPRESSION_COLUMN_METADATA_COUNT_NAME target ->
     Planner.missing_count s = false) /\
    (Planner.needs_sequence_num path = true ->
     target_is_metadata_column (Planner.info path)
       Planner.COMPRESSION_COLUMN_METADATA_SEQUENCE_NUM_NAME target ->
     Planner.missing_sequence s = false) /\
    (forall b, b ∈ needed -> target_produces (Planner.info path) b target ->
               b ∈ Planner.chunk_attrs_found s)).
  assert (Hrefl : forall s, M s s) by (intros s; unfold M; auto).
  assert (Htrans : forall s1 s2 s3, M s1 s2 -> M s2 s3 -> M s1 s3)
    by (intros s1 s2 s3 (A1 & A2 & A3) (B1 & B2 & B3); unfold M; auto).
  assert (Hstable : forall x s s', M s s' -> R x s -> R x s')
    by (intros x s s' (A1 & A2 & A3) (B1 & B2 & B3); unfold R; auto).
  assert (Hinit : I (Planner.initial_map_build path needed)) by done.
  assert (Hstep : forall s x s', I s ->
             Planner.map_target_entry cat needed cinfo s x = Ok s' ->
             I s' /\ R x s' /\ M s s');
    [|destruct (foreach_each I M R _ scan_tlist Hrefl Htrans Hstable Hstep _ mb Hinit Hloop)
        as (_ & (_ & Hmseq & _) & Hall)].
  - intros s target s' (Hinfo & Hseq) Hstep.
    apply map_target_entry_Ok in Hstep
      as (varno & attno & vartype & name & Hexpr & Hname & Hinfo' & Hseq' & _ & _ & Hcase).
    rewrite Hinfo in Hname, Hcase. rewrite Hseq in Hcase.
    pose proof (get_attname_Some _ _ _ Hname) as Hrange.
    pose proof (compression_info_None _ _ attno Hcinfo Hrange) as Hmeta.
    split; [unfold I; by rewrite Hinfo', Hseq'|].
    destruct (mjoin (cinfo !! Z.to_nat attno)) as [ci|].
    + destruct Hcase as (Hmc & Hms & Hfound). split.
      * unfold R. split; [|split].
        -- intros (v & a & t & Hexpr' & _ & Hmd). rewrite Hexpr in Hexpr'.
           injection Hexpr' as <- <- <-. apply Hmeta in Hmd. discriminate.
        -- intros _ (v & a & t & Hexpr' & _ & Hmd). rewrite Hexpr in Hexpr'.
           injection Hexpr' as <- <- <-. apply Hmeta in Hmd. discriminate.
        -- intros b Hb (v & a & t & n & Hexpr' & Hname' & _ & Hbit).
           rewrite Hexpr in Hexpr'. injection Hexpr' as <- <- <-.
           rewrite Hname in Hname'. injection Hname' as <-.
           rewrite Hfound, Hbit. apply bms_is_member_spec in Hb as Hb'. rewrite Hb'.
           rewrite orb_true_r. apply elem_of_bms_add_member. by left.
      * unfold M. rewrite Hmc, Hms, Hfound. split; [done|]. split; [done|].
        intros b Hb. destruct (_ || _); [|done]. apply elem_of_bms_add_member. by right.
    + destruct Hcase as (Hfound & Hmc & Hms). split.
      * unfold R. split; [|split].
        -- intros (v & a & t & Hexpr' & Hname' & _). rewrite Hexpr in Hexpr'.
           injection Hexpr' as <- <- <-. rewrite Hname in Hname'. injection Hname' as ->.
           by rewrite Hmc.
        -- intros Hneeds (v & a & t & Hexpr' & Hname' & _). rewrite Hexpr in Hexpr'.
           injection Hexpr' as <- <- <-. rewrite Hname in Hname'. injection Hname' as ->.
           by rewrite Hms, Hneeds.
        -- intros b Hb (v & a & t & n & Hexpr' & _ & Hnmd & _).
           rewrite Hexpr in Hexpr'. injection Hexpr' as <- <- <-.
           exfalso. apply Hnmd. by apply Hmeta.
      * unfold M. rewrite Hmc, Hms, Hfound. split; [|split; [|done]].
        -- intros ->. by destruct (String.eqb _ _).
        -- intros ->. destruct (String.eqb _ _); [done|]. by destruct (_ && _).
  - split.
    + intros (target & Hin & Htarget). by apply (Hall target Hin).
    + split.
      * intros Hseq. destruct (Planner.needs_sequence_num path) eqn:Hneeds.
        -- destruct (Hseq eq_refl) as (target & Hin & Htarget).
           by apply (Hall target Hin).
        -- apply Hmseq. simpl. exact Hneeds.
      * intros b Hb (target & Hin & Htarget). by apply (Hall target Hin).
Qed.
End DecompressionMap.

(** C5, amended. Building the decompression map fails whenever the scan
    targetlist lacks the count metadata column, and whenever sequence numbers
    are required and it lacks the sequence number metadata column. When both
    are present as required and every needed attribute of the chunk is
    produced by an entry, the map is built provided that no other check
    fails: only [tableoid] is selected among the system columns, the columns
    of the compression catalog exist in the compressed chunk, and the entries
    are Vars of columns of the compressed chunk. *)
Theorem build_decompression_map_requires_metadata (cat : Catalog)
    (path : Planner.DecompressChunkPath) (scan_tlist : list TargetEntry)
    (chunk_attrs_needed : list Z) :
  let i := Planner.info path in
  let map := Planner.build_decompression_map cat path scan_tlist chunk_attrs_needed in
  let lists_count :=
    lists_metadata_column i scan_tlist Planner.COMPRESSION_COLUMN_METADATA_COUNT_NAME in
  let lists_sequence :=
    lists_metadata_column i scan_tlist Planner.COMPRESSION_COLUMN_METADATA_SEQUENCE_NUM_NAME in
  (~ lists_count -> is_ok map = false) /\
  (Planner.needs_sequence_num path = true -> ~ lists_sequence -> is_ok map = false) /\
  (well_formed_scan_tlist path scan_tlist ->
   lists_count ->
   (Planner.needs_sequence_num path = true -> lists_sequence) ->
   (forall b, b ∈ chunk_attrs_needed ->
              0 - FirstLowInvalidHeapAttributeNumber < b ->
              exists target, target ∈ scan_tlist /\ target_produces i b target) ->
   is_ok map = true).
Proof.
  intros i map lists_count lists_sequence. subst i map lists_count lists_sequence.
  split; [|split].
  - intros Hnone.
    destruct (Planner.build_decompression_map _ _ _ _) as [path'|] eqn:Hmap; [|done].
    exfalso. apply Hnone.
    apply build_decompression_map_Ok in Hmap as (cinfo & mb & Hcinfo & Hloop & Hcount & _).
    by apply (metadata_found_in_tlist cat path scan_tlist chunk_attrs_needed cinfo mb).
  - intros Hneeds Hnone.
    destruct (Planner.build_decompression_map _ _ _ _) as [path'|] eqn:Hmap; [|done].
    exfalso. apply Hnone.
    apply build_decompression_map_Ok in Hmap as (cinfo & mb & Hcinfo & Hloop & _ & Hseq).
    by apply (metadata_found_in_tlist cat path scan_tlist chunk_attrs_needed cinfo mb).
  - intros Hwf Hcount Hseq Hfound.
    unfold Planner.build_decompression_map.
    rewrite check_for_system_columns_Ok by apply Hwf. simpl.
    destruct (Planner.compressed_attno_to_compression_info (Planner.info path))
      as [cinfo|] eqn:Hcinfo.
    2: { pose proof (fill_compression_info_succeeds
                       (Planner.compressed_rte (Planner.info path))
                       (Planner.hypertable_compression_info (Planner.info path))
                       (proj1 (proj2 Hwf))
                       (replicate (S (length (Planner.compressed_rte (Planner.info path))))
                          None)) as Hfill.
         unfold Planner.compressed_attno_to_compression_info in Hcinfo.
         by rewrite Hcinfo in Hfill. }
    simpl.
    destruct (map_loop_succeeds cat path scan_tlist chunk_attrs_needed cinfo Hwf)
      as [mb Hloop].
    rewrite Hloop. simpl.
    destruct (map_loop_effects cat path scan_tlist chunk_attrs_needed cinfo mb Hcinfo Hloop)
      as (Hmc & Hms & Hall).
    rewrite bms_next_member_none.
    + rewrite decide_False by lia. by rewrite (Hmc Hcount), (Hms Hseq).
    + intros b Hb. apply elem_of_bms_difference in Hb as [Hb Hnot].
      destruct (decide (b <= 0 - FirstLowInvalidHeapAttributeNumber)); [done|].
      exfalso. apply Hnot. apply Hall; [done|]. apply Hfound; [done|lia].
Qed.

(** The example chunk: the fourth column of the compressed chunk is the
    count column, the third one produces the chunk column [x]. *)
Lemma example_metadata_attno selected attno :
  4 <= attno -> is_metadata_attno (Examples.example_info selected) attno.
Proof.
  intros Hattno row Hrow. simpl in Hrow.
  repeat (apply elem_of_cons in Hrow as [->|Hrow]); try (by apply elem_of_nil in Hrow);
    vm_compute; intros <-; lia.
Qed.

Lemma example_lists_count selected :
  lists_metadata_column (Examples.example_info selected) Examples.example_scan_tlist
    Planner.COMPRESSION_COLUMN_METADATA_COUNT_NAME.
Proof.
  exists (mkTargetEntry (T_Var 2 4 0) 4). split.
  - apply list_elem_of_lookup. by exists 3%nat.
  - exists 2, 4, 0. split; [done|]. split; [done|]. by apply example_metadata_attno.
Qed.

Lemma example_produces_x selected :
  exists target,
    target ∈ Examples.example_scan_tlist /\
    target_produces (Examples.example_info selected)
      (3 - FirstLowInvalidHeapAttributeNumber) target.
Proof.
  exists (mkTargetEntry (T_Var 2 3 0) 3). split.
  - apply list_elem_of_lookup. by exists 2%nat.
  - exists 2, 3, 0, "x"%string. split; [done|]. split; [done|]. split; [|done].
    intros H. apply (H (Planner.mkCompression "x" 4 0 0)); [|done].
    simpl. do 2 right. left.
Qed.

Lemma example_well_formed (target_exprs : list Node) :
  well_formed_scan_tlist (Examples.example_path [] false false false target_exprs)
    Examples.example_scan_tlist.
Proof.
  split; [|split; [|split]].
  - intros b Hb. by apply elem_of_nil in Hb.
  - intros row Hrow. simpl in Hrow.
    repeat (apply elem_of_cons in Hrow as [->|Hrow]); try (by apply elem_of_nil in Hrow);
      vm_compute; discriminate.
  - intros target Hin. unfold Examples.example_scan_tlist in Hin.
    apply list_elem_of_fmap in Hin as (attno & -> & Hattno).
    apply elem_of_seqZ in Hattno. simpl.
    exists 2, attno, 0.
    destruct (get_attname Examples.example_compressed_chunk attno) as [name|] eqn:Hname;
      [by exists name|].
    exfalso. unfold get_attname in Hname. rewrite decide_True in Hname by lia.
    destruct (Examples.example_compressed_chunk !! Z.to_nat (attno - 1)) eqn:E;
      [discriminate|].
    apply lookup_ge_None in E. simpl in E. lia.
  - discriminate.
Qed.

Lemma build_decompression_map_requires_metadata_witness :
  is_ok (Planner.build_decompression_map Examples.example_catalog
           (Examples.example_path [] false false false [T_Var 1 3 23])
           Examples.example_scan_tlist [3 - FirstLowInvalidHeapAttributeNumber]) = true.
Proof.
  refine (proj2 (proj2 (build_decompression_map_requires_metadata Examples.example_catalog
                          (Examples.example_path [] false false false [T_Var 1 3 23])
                          Examples.example_scan_tlist
                          [3 - FirstLowInvalidHeapAttributeNumber]))
            (example_well_formed _) (example_lists_count _) _ _).
  - discriminate.
  - intros b Hb _. apply list_elem_of_singleton in Hb as ->. apply example_produces_x.
Defined.

(** C5 as stated fails: with the count column in the targetlist, no sequence
    number required and every needed attribute found, the map is not built
    when the query selects [ctid]. *)
Lemma build_decompression_map_fails_with_metadata_present :
  let path := Examples.example_path [SelfItemPointerAttributeNumber
                                     - FirstLowInvalidHeapAttributeNumber]
                false false false [T_Var 1 3 23] in
  lists_metadata_column (Planner.info path) Examples.example_scan_tlist
    Planner.COMPRESSION_COLUMN_METADATA_COUNT_NAME /\
  Planner.needs_sequence_num path = false /\
  (exists target,
      target ∈ Examples.example_scan_tlist /\
      target_produces (Planner.info path) (3 - FirstLowInvalidHeapAttributeNumber) target) /\
  Planner.build_decompression_map Examples.example_catalog path Examples.example_scan_tlist
    [3 - FirstLowInvalidHeapAttributeNumber]
  = Raise ERRCODE_INTERNAL_ERROR
      "transparent decompression only supports tableoid system column".
Proof.
  split; [apply example_lists_count|]. split; [reflexivity|].
  split; [apply example_produces_x|]. vm_compute. reflexivity.
Qed.

(** ** The classification of the qualifiers by the planner *)

Lemma is_not_runtime_constant_Var cat n :
  is_Var n = true -> Planner.is_not_runtime_constant cat n = true.
Proof. by destruct n. Qed.

(** What [make_vectorized_qual] returns: the Var is on the left. *)
Lemma make_vectorized_qual_Some cat path qual q :
  Planner.make_vectorized_qual cat path qual = Some q ->
  exists opno opfuncid left right varno varattno vartype const,
    qual = T_OpExpr opno opfuncid [left; right] /\
    ((q = qual /\ left = T_Var varno varattno vartype /\ const = right) \/
     (OidIsValid (get_commutator cat opno) = true /\
      q = T_OpExpr (get_commutator cat opno) InvalidOid [right; left] /\
      right = T_Var varno varattno vartype /\ const = left)) /\
    Planner.is_not_runtime_constant cat const = false /\
    Planner.bulk_decompression_possible (Planner.column_compression_info path varattno) = true /\
    exists opno', q = T_OpExpr opno' (match q with T_OpExpr _ f _ => f | _ => 0 end)
                        [T_Var varno varattno vartype; const] /\
                  is_Some (get_vector_const_predicate cat (get_opcode cat opno')).
Proof.
  intros H.
  destruct qual as [| | | |opno opfuncid args| | |]; try discriminate.
  destruct args as [|left [|right [|]]]; try discriminate.
  simpl in H.
  destruct (is_Var right) eqn:Hr; [destruct (OidIsValid (get_commutator cat opno)) eqn:Hc|].
  - destruct right as [varno attno ty| | | | | | |]; try discriminate.
    destruct (Planner.is_not_runtime_constant cat left) eqn:Hrc; [discriminate|].
    destruct (Planner.bulk_decompression_possible _) eqn:Hb; [|discriminate].
    simpl in H.
    destruct (get_vector_const_predicate _ _) eqn:Hp; [|discriminate].
    injection H as <-.
    exists opno, opfuncid, left, (T_Var varno attno ty), varno, attno, ty, left.
    split; [done|]. split; [right; done|]. split; [done|]. split; [done|].
    exists (get_commutator cat opno). split; [done|]. rewrite Hp. by eexists.
  - destruct left as [varno attno ty| | | | | | |]; try discriminate.
    by rewrite is_not_runtime_constant_Var in H.
  - destruct left as [varno attno ty| | | | | | |]; try discriminate.
    destruct (Planner.is_not_runtime_constant cat right) eqn:Hrc; [discriminate|].
    destruct (Planner.bulk_decompression_possible _) eqn:Hb; [|discriminate].
    simpl in H.
    destruct (get_vector_const_predicate _ _) eqn:Hp; [|discriminate].
    injection H as <-.
    exists opno, opfuncid, (T_Var varno attno ty), right, varno, attno, ty, right.
    split; [done|]. split; [left; done|]. split; [done|]. split; [done|].
    exists opno. split; [done|]. rewrite Hp. by eexists.
Qed.

(** The two lists that [find_vectorized_quals] returns. *)
Lemma find_vectorized_quals_from cat path quals vectorized nonvectorized :
  Planner.find_vectorized_quals cat path quals vectorized nonvectorized
  = (vectorized ++ omap (Planner.make_vectorized_qual cat path) quals,
     nonvectorized ++
     filter (fun q => Planner.make_vectorized_qual cat path q = None) quals).
Proof.
  revert vectorized nonvectorized.
  induction quals as [|q quals IH]; intros vectorized nonvectorized; simpl.
  - by rewrite !app_nil_r.
  - destruct (Planner.make_vectorized_qual cat path q) as [v|] eqn:Hq.
    + rewrite IH. rewrite filter_cons_False by (rewrite Hq; done).
      by rewrite <- app_assoc.
    + rewrite IH. rewrite filter_cons_True by done.
      by rewrite <- app_assoc.
Qed.

(** What a plan is made of. *)
Lemma decompress_chunk_plan_create_Ok cat guc dcpath decompressed_tlist qual scan_tlist
    needed heap_sort_info cscan :
  Planner.decompress_chunk_plan_create cat guc dcpath decompressed_tlist qual scan_tlist
    needed heap_sort_info = Ok cscan ->
  exists path' sort_options,
    Planner.build_decompression_map cat dcpath scan_tlist needed = Ok path' /\
    (if Planner.batch_sorted_merge path' then heap_sort_info else Ok []) = Ok sort_options /\
    let enable :=
      negb (Planner.batch_sorted_merge path') &&
      Planner.ts_guc_enable_bulk_decompression guc &&
      Planner.have_bulk_decompression_columns path' in
    let quals :=
      if enable then Planner.find_vectorized_quals cat path' qual [] [] else ([], qual) in
    (Planner.TS_DEBUG guc = true ->
     (Planner.ts_guc_debug_require_vector_qual guc = Planner.RVQ_Forbid -> quals.1 = []) /\
     (Planner.ts_guc_debug_require_vector_qual guc = Planner.RVQ_Only -> quals.2 = [])) /\
    cscan
    = Planner.mkCustomScan decompressed_tlist
        (if Planner.perform_vectorized_aggregation dcpath then decompressed_tlist else [])
        quals.2 [quals.1]
        (Planner.mkSettings (Planner.hypertable_id (Planner.info path'))
           (Planner.chunk_rte_relid (Planner.info path'))
           (Planner.reverse path') (Planner.batch_sorted_merge path') enable
           (Planner.perform_vectorized_aggregation path'))
        (Planner.decompression_map path') (Planner.is_segmentby_column path')
        (Planner.bulk_decompression_column path')
        (Planner.vectorized_aggregation_column path') sort_options.
Proof.
  unfold Planner.decompress_chunk_plan_create. intros H.
  apply bind_Ok in H as (path' & Hmap & H).
  apply bind_Ok in H as (so & Hso & H).
  exists path', so. split; [done|]. split; [done|].
  cbv zeta.
  set (enable := negb (Planner.batch_sorted_merge path') &&
                 Planner.ts_guc_enable_bulk_decompression guc &&
                 Planner.have_bulk_decompression_columns path') in *.
  destruct (if enable then Planner.find_vectorized_quals cat path' qual [] []
            else ([], qual)) as [vq pq].
  apply bind_Ok in H as ([] & Hdebug & H). injection H as <-.
  split; [|done].
  intros Hd. rewrite Hd in Hdebug. simpl.
  destruct (Planner.ts_guc_debug_require_vector_qual guc); split; try discriminate.
  - intros _. destruct vq; [done|]. revert Hdebug.
    case decide; [discriminate|]. intros Hn. exfalso. apply Hn. simpl. lia.
  - intros _. destruct pq; [done|]. revert Hdebug.
    case decide; [discriminate|]. intros Hn. exfalso. apply Hn. simpl. lia.
Qed.

Lemma vectorizable_iff_form cat path q :
  vectorizable cat path q <-> exists v, vectorized_form cat path q v.
Proof.
  split.
  - intros (opno & opfuncid & left & right & -> & op & var & const & Hcase & Hvar & Hrc & Hp).
    destruct Hcase as [(-> & -> & ->)|(Hc & -> & -> & ->)].
    + eexists. exists opno, opfuncid, left, right. split; [done|]. left. done.
    + eexists. exists opno, opfuncid, left, right. split; [done|]. right. done.
  - intros (v & opno & opfuncid & left & right & -> & Hcase).
    exists opno, opfuncid, left, right. split; [done|].
    destruct Hcase as [(_ & Hvar & Hrc & Hp)|(Hc & _ & Hvar & Hrc & Hp)].
    + exists opno, left, right. split; [by left|done].
    + exists (get_commutator cat opno), right, left. split; [by right|done].
Qed.

Lemma make_vectorized_qual_form cat path q v :
  Planner.make_vectorized_qual cat path q = Some v <-> vectorized_form cat path q v.
Proof.
  split.
  - intros H.
    destruct (make_vectorized_qual_Some _ _ _ _ H)
      as (opno & opfuncid & left & right & varno & attno & ty & const & -> & Hcase & Hrc & Hb &
          opno' & Hq & Hp).
    apply is_not_runtime_constant_spec in Hrc.
    exists opno, opfuncid, left, right. split; [done|].
    destruct Hcase as [(-> & -> & ->)|(Hc & -> & -> & ->)].
    + left. injection Hq as <-. split; [done|]. split; [by exists varno, attno, ty|done].
    + right. injection Hq as <-. split; [done|]. split; [done|].
      split; [by exists varno, attno, ty|done].
  - intros (opno & opfuncid & left & right & -> & Hcase).
    destruct Hcase as [(-> & Hvar & Hrc & [p Hp])|(Hc & -> & Hvar & Hrc & [p Hp])];
      destruct Hvar as (varno & attno & ty & -> & Hbulk);
      pose proof (runtime_constant_not_Var _ _ Hrc) as HnotVar;
      apply is_not_runtime_constant_spec in Hrc; simpl.
    + by rewrite HnotVar, Hrc, Hbulk, Hp.
    + by rewrite Hc, Hrc, Hbulk, Hp.
Qed.

Lemma make_vectorized_qual_None cat path q :
  Planner.make_vectorized_qual cat path q = None <-> ~ vectorizable cat path q.
Proof.
  rewrite vectorizable_iff_form. split.
  - intros Hnone (v & Hv). apply make_vectorized_qual_form in Hv. congruence.
  - intros Hnot. destruct (Planner.make_vectorized_qual cat path q) as [v|] eqn:E; [|done].
    exfalso. apply Hnot. exists v. by apply make_vectorized_qual_form.
Qed.

Lemma find_vectorized_quals_classified cat path quals :
  classified cat path quals
    (Planner.find_vectorized_quals cat path quals [] []).1
    (Planner.find_vectorized_quals cat path quals [] []).2.
Proof.
  rewrite find_vectorized_quals_from. simpl.
  induction quals as [|q quals IH]; [constructor|].
  cbn [omap list_omap]. fold (omap (Planner.make_vectorized_qual cat path) quals).
  destruct (Planner.make_vectorized_qual cat path q) as [v|] eqn:E.
  - rewrite filter_cons_False by (rewrite E; done).
    apply classified_vectorized; [by apply make_vectorized_qual_form|done].
  - rewrite filter_cons_True by done.
    apply classified_other; [by apply make_vectorized_qual_None|done].
Qed.

Lemma classified_keeps cat path quals vectorized others q :
  classified cat path quals vectorized others ->
  q ∈ quals -> ~ vectorizable cat path q -> q ∈ others.
Proof.
  induction 1 as [|q' v quals vectorized others Hv _ IH|q' quals vectorized others Hn _ IH];
    intros Hin Hnot.
  - by apply elem_of_nil in Hin.
  - apply elem_of_cons in Hin as [->|Hin]; [|by apply IH].
    exfalso. apply Hnot, vectorizable_iff_form. by exists v.
  - apply elem_of_cons in Hin as [->|Hin]; [left|right; by apply IH].
Qed.

(** C2, amended. When bulk decompression is enabled for the plan, which it
    is exactly when the plan is not a batch sorted merge, the configuration
    allows it and the decompression map has a column with bulk decompression,
    the planner classifies every qualifier of the scan: a qualifier is
    vectorized if and only if it is a binary operator expression that, as
    written or commuted, has a Var of a column with bulk decompression on
    the left, a runtime constant on the right and an operator function in
    the vector predicate registry; the vectorized list holds it as written
    or commuted, with the Var on the left, and the other qualifiers stay in
    the row-by-row list, both in their order. With bulk decompression
    disabled no qualifier is vectorized. A qualifier with the constant on
    the left whose operator has no commutator is never vectorized. *)
Theorem planner_classifies_quals (cat : Catalog) (guc : Planner.GUC)
    (dcpath : Planner.DecompressChunkPath) (decompressed_tlist : list TargetEntry)
    (qual : list Node) (scan_tlist : list TargetEntry) (chunk_attrs_needed : list Z)
    (heap_sort_info : result (list (list Z))) (cscan : Planner.CustomScan) :
  Planner.decompress_chunk_plan_create cat guc dcpath decompressed_tlist qual scan_tlist
    chunk_attrs_needed heap_sort_info = Ok cscan ->
  exists path' vectorized,
    Planner.build_decompression_map cat dcpath scan_tlist chunk_attrs_needed = Ok path' /\
    Planner.custom_exprs cscan = [vectorized] /\
    (Planner.s_enable_bulk_decompression (Planner.settings cscan) = true <->
     Planner.batch_sorted_merge dcpath = false /\
     Planner.ts_guc_enable_bulk_decompression guc = true /\
     Planner.have_bulk_decompression_columns path' = true) /\
    (Planner.s_enable_bulk_decompression (Planner.settings cscan) = true ->
     classified cat path' qual vectorized (Planner.plan_qual cscan)) /\
    (Planner.s_enable_bulk_decompression (Planner.settings cscan) = false ->
     vectorized = [] /\ Planner.plan_qual cscan = qual) /\
    (forall q v, Planner.make_vectorized_qual cat path' q = Some v <->
                 vectorized_form cat path' q v) /\
    (forall q, vectorizable cat path' q <-> exists v, vectorized_form cat path' q v) /\
    (forall q opno opfuncid left right,
        q ∈ qual ->
        q = T_OpExpr opno opfuncid [left; right] ->
        runtime_constant cat left ->
        OidIsValid (get_commutator cat opno) = false ->
        ~ vectorizable cat path' q /\ q ∈ Planner.plan_qual cscan).
Proof.
  intros H.
  apply decompress_chunk_plan_create_Ok in H as (path' & so & Hmap & _ & _ & ->).
  pose proof (build_decompression_map_batch_sorted_merge _ _ _ _ _ Hmap) as Hbsm.
  assert (Hleft : forall q opno opfuncid left right,
             q = T_OpExpr opno opfuncid [left; right] ->
             runtime_constant cat left ->
             OidIsValid (get_commutator cat opno) = false ->
             ~ vectorizable cat path' q).
  { intros q opno opfuncid left right -> Hrc Hc Hv.
    apply vectorizable_iff_form in Hv as (v & opno' & opfuncid' & left' & right' & Heq & Hcase).
    injection Heq as <- <- <- <-.
    destruct Hcase as [(_ & (varno & attno & ty & -> & _) & _)|(Hc' & _)]; [|congruence].
    by apply runtime_constant_not_Var in Hrc. }
  exists path'. eexists. split; [done|]. split; [reflexivity|].
  cbn [Planner.settings Planner.s_enable_bulk_decompression Planner.plan_qual].
  rewrite Hbsm.
  split.
  { destruct (Planner.batch_sorted_merge dcpath),
      (Planner.ts_guc_enable_bulk_decompression guc),
      (Planner.have_bulk_decompression_columns path'); simpl; intuition congruence. }
  destruct (negb (Planner.batch_sorted_merge dcpath) &&
            Planner.ts_guc_enable_bulk_decompression guc &&
            Planner.have_bulk_decompression_columns path') eqn:Henable.
  - split; [intros _; apply find_vectorized_quals_classified|].
    split; [discriminate|].
    split; [intros q v; apply make_vectorized_qual_form|].
    split; [intros q; apply vectorizable_iff_form|].
    intros q opno opfuncid left right Hin Hq Hrc Hc.
    pose proof (Hleft q opno opfuncid left right Hq Hrc Hc) as Hnot.
    split; [done|].
    eapply classified_keeps; [apply find_vectorized_quals_classified|done|done].
  - split; [discriminate|]. simpl.
    split; [done|].
    split; [intros q v; apply make_vectorized_qual_form|].
    split; [intros q; apply vectorizable_iff_form|].
    intros q opno opfuncid left right Hin Hq Hrc Hc.
    split; [by eapply Hleft|done].
Qed.

Lemma runtime_constant_Const cat consttype constvalue constisnull :
  runtime_constant cat (T_Const consttype constvalue constisnull).
Proof. intros m Hm. inversion Hm; subst. simpl. tauto. Qed.

Lemma planner_classifies_quals_witness :
  let q1 := T_OpExpr 97 0 [T_Const 23 5 false; T_Var 1 3 23] in
  let q2 := T_OpExpr 9001 0 [T_Const 23 5 false; T_Var 1 3 23] in
  exists cscan,
    Examples.example_scan_plan false [q1; q2] = Ok cscan /\
    Planner.custom_exprs cscan = [[T_OpExpr 521 InvalidOid [T_Var 1 3 23; T_Const 23 5 false]]] /\
    q2 ∈ Planner.plan_qual cscan.
Proof.
  intros q1 q2. eexists.
  split; [vm_compute; reflexivity|].
  split; [vm_compute; reflexivity|].
  assert (H : exists path' vectorized, _) by
    (refine (planner_classifies_quals Examples.example_catalog Examples.example_guc
               (Examples.example_path [] false false false [T_Var 1 3 23]) [] [q1; q2]
               Examples.example_scan_tlist [3 - FirstLowInvalidHeapAttributeNumber]
               (Ok [[3]; [97]; [0]; [0]]) _ _); vm_compute; reflexivity).
  destruct H as (path' & vectorized & _ & _ & _ & _ & _ & _ & _ & Hleft).
  refine (proj2 (Hleft q2 9001 0 (T_Const 23 5 false) (T_Var 1 3 23) _ eq_refl
                   (runtime_constant_Const _ _ _ _) eq_refl)).
  right. left.
Defined.

(** C2 as stated fails: with bulk decompression switched off by the
    configuration, the vectorizable qualifier [x > 5] on a column with bulk
    decompression is not vectorized. *)
Lemma vectorizable_qual_stays_when_bulk_decompression_is_off :
  let q := T_OpExpr 521 0 [T_Var 1 3 23; T_Const 23 5 false] in
  let guc := Planner.mkGUC false true false Planner.RVQ_Allow false in
  let path := Examples.example_path [] false false false [T_Var 1 3 23] in
  exists path' cscan,
    Planner.build_decompression_map Examples.example_catalog path Examples.example_scan_tlist
      [3 - FirstLowInvalidHeapAttributeNumber] = Ok path' /\
    Planner.decompress_chunk_plan_create Examples.example_catalog guc path [] [q]
      Examples.example_scan_tlist [3 - FirstLowInvalidHeapAttributeNumber] (Ok []) = Ok cscan /\
    vectorizable Examples.example_catalog path' q /\
    Planner.custom_exprs cscan = [[]] /\
    Planner.plan_qual cscan = [q].
Proof.
  intros q guc path. eexists. eexists.
  split; [vm_compute; reflexivity|].
  split; [vm_compute; reflexivity|].
  split; [|split; reflexivity].
  exists 521, 0, (T_Var 1 3 23), (T_Const 23 5 false). split; [reflexivity|].
  exists 521, (T_Var 1 3 23), (T_Const 23 5 false).
  split; [left; done|].
  split; [exists 1, 3, 23; split; [reflexivity|vm_compute; reflexivity]|].
  split; [apply runtime_constant_Const|].
  vm_compute. by eexists.
Qed.

(** * Further properties of the planner *)

(** ** System columns *)

(** ** System columns *)

Lemma bms_next_member_least a prev x :
  -1 <= prev -> x ∈ a -> prev < x -> prev < bms_next_member a prev <= x.
Proof.
  intros Hprev.
  induction a as [|y a IH]; intros Hin Hx; [by apply elem_of_nil in Hin|].
  simpl. fold (bms_next_member a prev).
  destruct (bms_next_member_found a prev) as [Hnone|[Hmem Hgt]].
  - rewrite Hnone in *.
    apply elem_of_cons in Hin as [->|Hin].
    + rewrite decide_True by done. rewrite decide_True by (by left). lia.
    + specialize (IH Hin Hx). lia.
  - apply elem_of_cons in Hin as [->|Hin].
    + rewrite decide_True by done.
      destruct (decide (_ \/ _)) as [|Hn]; [lia|]. lia.
    + specialize (IH Hin Hx).
      destruct (decide (prev < y)); [|done].
      destruct (decide (_ \/ _)) as [[|]|]; lia.
Qed.

(** X1. For a set of selected columns without the bit 0 (no attribute has
    the number [FirstLowInvalidHeapAttributeNumber]),
    [check_for_system_columns] raises its error if a system column other than
    [tableoid] is selected, and returns if none is. *)
Theorem check_for_system_columns_raises_iff (attrs_used : list Z) :
  (forall b, b ∈ attrs_used -> 0 < b) ->
  let other_system_column b :=
    b + FirstLowInvalidHeapAttributeNumber < 0 /\
    b + FirstLowInvalidHeapAttributeNumber <> TableOidAttributeNumber in
  ((exists b, b ∈ attrs_used /\ other_system_column b) ->
   Planner.check_for_system_columns attrs_used
   = Raise ERRCODE_INTERNAL_ERROR
       "transparent decompression only supports tableoid system column") /\
  ((forall b, b ∈ attrs_used -> ~ other_system_column b) ->
   Planner.check_for_system_columns attrs_used = Ok tt).
Proof.
  intros Hpos other. split.
  - intros (b & Hb & Hsys & Hnot). subst other.
    unfold Planner.check_for_system_columns, FirstLowInvalidHeapAttributeNumber,
      TableOidAttributeNumber in *.
    pose proof (Hpos b Hb) as Hb0.
    pose proof (bms_next_member_least attrs_used (-1) b ltac:(lia) Hb ltac:(lia)) as Hleast.
    destruct (bms_next_member_found attrs_used (-1)) as [Hnone|[Hin _]]; [lia|].
    set (bit := bms_next_member attrs_used (-1)) in *.
    pose proof (Hpos bit Hin).
    rewrite decide_True by lia.
    destruct (decide (bit = -6 - -7)) as [Hbit|Hbit].
    + pose proof (bms_next_member_least attrs_used bit b ltac:(lia) Hb ltac:(lia)).
      rewrite decide_True by lia. reflexivity.
    + rewrite decide_True by lia. reflexivity.
  - intros Hnone. apply check_for_system_columns_Ok.
    intros b Hb Hsys. subst other. simpl in Hnone.
    destruct (decide (b + FirstLowInvalidHeapAttributeNumber = TableOidAttributeNumber));
      [done|]. exfalso. by apply (Hnone b Hb).
Qed.

Lemma check_for_system_columns_raises_iff_witness :
  Planner.check_for_system_columns
    [TableOidAttributeNumber - FirstLowInvalidHeapAttributeNumber;
     SelfItemPointerAttributeNumber - FirstLowInvalidHeapAttributeNumber; 8]
  = Raise ERRCODE_INTERNAL_ERROR
      "transparent decompression only supports tableoid system column".
Proof.
  refine (proj1 (check_for_system_columns_raises_iff _ _) _).
  - intros b Hb. repeat (apply elem_of_cons in Hb as [->|Hb]); try (vm_compute; reflexivity).
    by apply elem_of_nil in Hb.
  - exists (SelfItemPointerAttributeNumber - FirstLowInvalidHeapAttributeNumber).
    split; [right; left|]. split; [vm_compute; reflexivity|discriminate].
Defined.

(** ** The parallel lists of the decompression map *)

Lemma lookup_insert_bulk (l : list Planner.DecompressChunkColumnCompression) i j x :
  Planner.bulk_decompression_possible
    (default Planner.zero_column_compression (<[i := x]> l !! j)) = true ->
  (i = j /\ Planner.bulk_decompression_possible x = true) \/
  Planner.bulk_decompression_possible (default Planner.zero_column_compression (l !! j)) = true.
Proof.
  destruct (decide (i = j)) as [->|Hne].
  - destruct (decide (j < length l)%nat).
    + rewrite list_lookup_insert_eq by done. simpl. auto.
    + rewrite list_insert_ge by lia. auto.
  - rewrite list_lookup_insert_ne by done. auto.
Qed.

Lemma aggregation_column_entry_length p dest agg :
  Planner.aggregation_column_entry p dest = Ok agg ->
  length agg = if Planner.perform_vectorized_aggregation p then 1%nat else 0%nat.
Proof.
  unfold Planner.aggregation_column_entry.
  destruct (Planner.perform_vectorized_aggregation p); [|by intros [= <-]].
  destruct (Planner.reltarget_exprs p) as [|[] ?]; try discriminate.
  by intros [= <-].
Qed.

Lemma map_target_entry_appends cat needed cinfo mb target mb' :
  Planner.map_target_entry cat needed cinfo mb target = Ok mb' ->
  exists e, appends_entry needed mb mb' e.
Proof.
  unfold Planner.map_target_entry. intros H.
  destruct (expr target) as [varno attno ty| | | | | | |]; try discriminate.
  destruct (decide (attno = InvalidAttrNumber)); [discriminate|].
  destruct (get_attname _ attno) as [name|]; [|discriminate].
  set (p := Planner.mb_path mb) in *.
  pose proof (get_attnum_range (Planner.chunk_rte (Planner.info p)) name) as Hrange.
  set (chunk_attno := get_attnum (Planner.chunk_rte (Planner.info p)) name) in *.
  assert (Hnormal : forall ci found dest,
    (agg ← Planner.aggregation_column_entry p dest;
     Ok (Planner.mkMapBuild (Planner.missing_count mb) (Planner.missing_sequence mb) found
           (Planner.mkPath (Planner.reltarget_exprs p) (Planner.info p)
              (Planner.decompression_map p ++ [dest])
              (Planner.is_segmentby_column p ++
               [Planner.bool_to_int (negb (Planner.segmentby_column_index ci =? 0))])
              (Planner.bulk_decompression_column p ++
               [Planner.bool_to_int
                  ((0 <? dest) &&
                   bool_decide (is_Some (tsl_get_decompress_all_function cat
                                           (Planner.algo_id ci))))])
              (Planner.have_bulk_decompression_columns p ||
               (0 <? dest) &&
               bool_decide (is_Some (tsl_get_decompress_all_function cat
                                       (Planner.algo_id ci))))
              (if 0 <? dest
               then <[Z.to_nat dest :=
                        Planner.mkColumnCompression ci
                          ((0 <? dest) &&
                           bool_decide (is_Some (tsl_get_decompress_all_function cat
                                                   (Planner.algo_id ci))))]>
                      (Planner.uncompressed_chunk_attno_to_compression_info p)
               else Planner.uncompressed_chunk_attno_to_compression_info p)
              (Planner.perform_vectorized_aggregation p)
              (Planner.vectorized_aggregation_column p ++ agg)
              (Planner.needs_sequence_num p) (Planner.reverse p)
              (Planner.batch_sorted_merge p)))) = Ok mb' ->
    (dest = 0 \/
     (dest = chunk_attno /\
      (0 - FirstLowInvalidHeapAttributeNumber ∈ needed \/
       chunk_attno - FirstLowInvalidHeapAttributeNumber ∈ needed))) ->
    exists e, appends_entry needed mb mb' e).
  { clear H. intros ci found dest H' Hclass.
    apply bind_Ok in H' as (agg & Hagg & H'). injection H' as <-.
    set (bulk := (0 <? dest) &&
                 bool_decide (is_Some (tsl_get_decompress_all_function cat (Planner.algo_id ci)))).
    exists (mkMapEntry dest (negb (Planner.segmentby_column_index ci =? 0)) bulk).
    unfold appends_entry, entry_ok, destination_ok. simpl. fold p.
    split; [done|]. split; [done|]. split; [done|]. split; [done|].
    split.
    { rewrite length_app. f_equal. by eapply aggregation_column_entry_length. }
    split.
    { intros a. unfold Planner.column_compression_info. simpl.
      destruct (0 <? dest) eqn:Hpos; [|auto].
      intros Hb. apply lookup_insert_bulk in Hb as [[Heq Hb]|Hb]; [|auto].
      left. simpl in Hb. split; [|done].
      apply Z.ltb_lt in Hpos. clear -Heq Hpos. lia. }
    split; [auto|]. split; [auto|].
    split.
    { intros Hb. unfold bulk in Hb. apply andb_true_iff in Hb as [Hb _].
      by apply Z.ltb_lt. }
    split.
    { intros Hneg. simpl in Hneg. destruct Hclass as [->|[-> _]]; lia. }
    destruct Hclass as [->|[-> Hn]]; [by left|].
    destruct (decide (chunk_attno = 0)) as [->|]; [by left|].
    do 3 right. subst chunk_attno p. simpl in *. split; [lia|done]. }
  assert (Hmeta : forall dest mcount mseq,
    (agg ← Planner.aggregation_column_entry p dest;
     Ok (Planner.mkMapBuild mcount mseq (Planner.chunk_attrs_found mb)
           (Planner.mkPath (Planner.reltarget_exprs p) (Planner.info p)
              (Planner.decompression_map p ++ [dest])
              (Planner.is_segmentby_column p ++ [Planner.bool_to_int false])
              (Planner.bulk_decompression_column p ++
               [Planner.bool_to_int ((0 <? dest) && false)])
              (Planner.have_bulk_decompression_columns p || (0 <? dest) && false)
              (Planner.uncompressed_chunk_attno_to_compression_info p)
              (Planner.perform_vectorized_aggregation p)
              (Planner.vectorized_aggregation_column p ++ agg)
              (Planner.needs_sequence_num p) (Planner.reverse p)
              (Planner.batch_sorted_merge p)))) = Ok mb' ->
    (dest = 0 /\ mcount = Planner.missing_count mb /\ mseq = Planner.missing_sequence mb) \/
    (dest = Planner.DECOMPRESS_CHUNK_COUNT_ID /\ mseq = Planner.missing_sequence mb) \/
    (dest = Planner.DECOMPRESS_CHUNK_SEQUENCE_NUM_ID /\ mcount = Planner.missing_count mb /\
     Planner.needs_sequence_num p = true) ->
    exists e, appends_entry needed mb mb' e).
  { clear H. intros dest mcount mseq H' Hclass.
    apply bind_Ok in H' as (agg & Hagg & H'). injection H' as <-.
    exists (mkMapEntry dest false false).
    unfold appends_entry, entry_ok, destination_ok. simpl. fold p. rewrite andb_false_r, orb_false_r.
    split; [done|]. split; [done|]. split; [done|]. split; [done|].
    split.
    { rewrite length_app. f_equal. by eapply aggregation_column_entry_length. }
    split; [auto|].
    split.
    { intros ->. destruct Hclass as [(_ & <- & _)|[(-> & _)|(_ & <- & _)]]; auto. }
    split.
    { intros ->. destruct Hclass as [(_ & _ & <-)|[(_ & <-)|(-> & _)]]; auto. }
    split; [done|]. split; [done|].
    destruct Hclass as [(-> & _)|[(-> & _)|(-> & _ & ?)]]; auto. }
  destruct (mjoin (cinfo !! Z.to_nat attno)) as [ci|].
  - destruct (bms_is_member (0 - _) needed) eqn:Hw.
    + eapply Hnormal; [exact H|]. right. split; [done|]. left.
      by apply bms_is_member_spec.
    + destruct (bms_is_member (chunk_attno - _) needed) eqn:Hn.
      * eapply Hnormal; [exact H|]. right. split; [done|]. right.
        by apply bms_is_member_spec.
      * eapply Hnormal; [exact H|]. by left.
  - destruct (String.eqb name Planner.COMPRESSION_COLUMN_METADATA_COUNT_NAME).
    + eapply Hmeta; [exact H|]. right. left. done.
    + destruct (Planner.needs_sequence_num p && _) eqn:Hs.
      * eapply Hmeta; [exact H|]. right. right.
        apply andb_true_iff in Hs as [? _]. done.
      * eapply Hmeta; [exact H|]. left. done.
Qed.

Lemma entry_ok_ext needed p p' e :
  Planner.info p' = Planner.info p ->
  Planner.needs_sequence_num p' = Planner.needs_sequence_num p ->
  entry_ok needed p' e -> entry_ok needed p e.
Proof. unfold entry_ok, destination_ok. by intros -> ->. Qed.

(** The loop over the scan targetlist appends one entry per target. *)
Lemma map_loop_entries cat needed cinfo scan_tlist :
  forall mb0 mb,
    foreach (Planner.map_target_entry cat needed cinfo) scan_tlist mb0 = Ok mb ->
    let p0 := Planner.mb_path mb0 in
    let p := Planner.mb_path mb in
    exists entries,
      length entries = length scan_tlist /\
      Planner.decompression_map p = Planner.decompression_map p0 ++ (me_dest <$> entries) /\
      Planner.is_segmentby_column p
      = Planner.is_segmentby_column p0 ++
        ((fun e => Planner.bool_to_int (me_segmentby e)) <$> entries) /\
      Planner.bulk_decompression_column p
      = Planner.bulk_decompression_column p0 ++
        ((fun e => Planner.bool_to_int (me_bulk e)) <$> entries) /\
      Planner.have_bulk_decompression_columns p
      = Planner.have_bulk_decompression_columns p0 || existsb me_bulk entries /\
      length (Planner.vectorized_aggregation_column p)
      = (length (Planner.vectorized_aggregation_column p0) +
         if Planner.perform_vectorized_aggregation p0 then length scan_tlist else 0)%nat /\
      (forall attno,
          Planner.bulk_decompression_possible (Planner.column_compression_info p attno) = true ->
          (exists e, e ∈ entries /\ me_dest e = attno /\ me_bulk e = true) \/
          Planner.bulk_decompression_possible (Planner.column_compression_info p0 attno)
          = true) /\
      (Planner.missing_count mb = false ->
       Planner.missing_count mb0 = false \/
       Planner.DECOMPRESS_CHUNK_COUNT_ID ∈ (me_dest <$> entries)) /\
      (Planner.missing_sequence mb = false ->
       Planner.missing_sequence mb0 = false \/
       Planner.DECOMPRESS_CHUNK_SEQUENCE_NUM_ID ∈ (me_dest <$> entries)) /\
      Forall (entry_ok needed p0) entries /\
      Planner.info p = Planner.info p0 /\
      Planner.needs_sequence_num p = Planner.needs_sequence_num p0 /\
      Planner.perform_vectorized_aggregation p = Planner.perform_vectorized_aggregation p0.
Proof.
  induction scan_tlist as [|target scan_tlist IH]; intros mb0 mb H; simpl in H.
  - injection H as <-. exists []. simpl.
    rewrite !app_nil_r, orb_false_r.
    repeat split; auto. destruct (Planner.perform_vectorized_aggregation _); lia.
  - apply bind_Ok in H as (mb1 & H1 & H2).
    destruct (map_target_entry_appends _ _ _ _ _ _ H1)
      as (e & Hd & Hs & Hb & Hh & Ha & Hi & Hc & Hq & Hok).
    destruct (map_target_entry_Ok _ _ _ _ _ _ H1)
      as (varno & attno & ty & name & _ & _ & Hinfo & Hseq & Hagg & _).
    destruct (IH mb1 mb H2)
      as (entries & Hlen & Hd' & Hs' & Hb' & Hh' & Ha' & Hi' & Hc' & Hq' & Hok' & Hinfo' &
          Hseq' & Hagg').
    exists (e :: entries). simpl.
    split; [by rewrite Hlen|].
    split; [by rewrite Hd', Hd, <- app_assoc|].
    split; [by rewrite Hs', Hs, <- app_assoc|].
    split; [by rewrite Hb', Hb, <- app_assoc|].
    split; [by rewrite Hh', Hh, orb_assoc|].
    split.
    { rewrite Ha', Ha, Hagg.
      destruct (Planner.perform_vectorized_aggregation (Planner.mb_path mb0)); lia. }
    split.
    { intros a Hba. destruct (Hi' a Hba) as [(e' & He' & ? & ?)|Hb1].
      - left. exists e'. split; [by right|done].
      - destruct (Hi a Hb1) as [[Heq Hbe]|Hb0]; [|by right].
        left. exists e. split; [left|done]. }
    split.
    { intros Hm. destruct (Hc' Hm) as [Hm1|Hin]; [|right; by right].
      destruct (Hc Hm1) as [Hm0|Heq]; [by left|]. right. rewrite Heq. left. }
    split.
    { intros Hm. destruct (Hq' Hm) as [Hm1|Hin]; [|right; by right].
      destruct (Hq Hm1) as [Hm0|Heq]; [by left|]. right. rewrite Heq. left. }
    split.
    { constructor; [done|].
      eapply Forall_impl; [|exact Hok']. intros e'. by apply entry_ok_ext. }
    split; [by rewrite Hinfo', Hinfo|].
    split; [by rewrite Hseq', Hseq|].
    by rewrite Hagg', Hagg.
Qed.

Lemma initial_map_build_not_bulk path needed attno :
  Planner.bulk_decompression_possible
    (Planner.column_compression_info (Planner.mb_path (Planner.initial_map_build path needed))
       attno) = false.
Proof.
  unfold Planner.column_compression_info, Planner.initial_map_build.
  cbn [Planner.mb_path Planner.uncompressed_chunk_attno_to_compression_info].
  destruct (replicate _ Planner.zero_column_compression !! Z.to_nat attno) as [c|] eqn:E;
    [|done].
  apply lookup_replicate in E as [-> _]. done.
Qed.

(** [build_decompression_map], when it succeeds, has appended one entry per
    target to the lists of the path. *)
Lemma build_decompression_map_entries cat path scan_tlist needed path' :
  Planner.build_decompression_map cat path scan_tlist needed = Ok path' ->
  exists entries,
    length entries = length scan_tlist /\
    Planner.decompression_map path' = me_dest <$> entries /\
    Planner.is_segmentby_column path'
    = Planner.is_segmentby_column path ++
      ((fun e => Planner.bool_to_int (me_segmentby e)) <$> entries) /\
    Planner.bulk_decompression_column path'
    = Planner.bulk_decompression_column path ++
      ((fun e => Planner.bool_to_int (me_bulk e)) <$> entries) /\
    Planner.have_bulk_decompression_columns path' = existsb me_bulk entries /\
    length (Planner.vectorized_aggregation_column path')
    = (length (Planner.vectorized_aggregation_column path) +
       if Planner.perform_vectorized_aggregation path then length scan_tlist else 0)%nat /\
    (forall attno,
        Planner.bulk_decompression_possible (Planner.column_compression_info path' attno)
        = true ->
        exists e, e ∈ entries /\ me_dest e = attno /\ me_bulk e = true) /\
    Planner.DECOMPRESS_CHUNK_COUNT_ID ∈ (me_dest <$> entries) /\
    (Planner.needs_sequence_num path = true ->
     Planner.DECOMPRESS_CHUNK_SEQUENCE_NUM_ID ∈ (me_dest <$> entries)) /\
    Forall (entry_ok needed path) entries /\
    Planner.info path' = Planner.info path /\
    Planner.needs_sequence_num path' = Planner.needs_sequence_num path /\
    Planner.perform_vectorized_aggregation path' = Planner.perform_vectorized_aggregation path.
Proof.
  unfold Planner.build_decompression_map. intros H.
  apply bind_Ok in H as (_ & _ & H).
  apply bind_Ok in H as (cinfo & _ & H).
  apply bind_Ok in H as (mb & Hmb & H).
  destruct (decide (_ >= 0)); [discriminate|].
  destruct (Planner.missing_count mb) eqn:Hmc; [discriminate|].
  destruct (Planner.missing_sequence mb) eqn:Hms; [discriminate|].
  injection H as <-.
  destruct (map_loop_entries _ _ _ _ _ _ Hmb)
    as (entries & Hlen & Hd & Hs & Hb & Hh & Ha & Hi & Hc & Hq & Hok & Hinfo & Hseq & Hagg).
  assert (Hi0 : forall attno,
             Planner.bulk_decompression_possible
               (Planner.column_compression_info (Planner.mb_path mb) attno) = true ->
             exists e, e ∈ entries /\ me_dest e = attno /\ me_bulk e = true).
  { intros attno Hattno. destruct (Hi attno Hattno) as [?|Hz]; [done|].
    by rewrite initial_map_build_not_bulk in Hz. }
  clear Hi. simpl in *.
  exists entries. repeat split; try done.
  - destruct (Hc Hmc) as [?|?]; done.
  - intros Hneeds. destruct (Hq Hms) as [Hf|?]; [|done]. congruence.
Qed.

(** X2. When [build_decompression_map] succeeds, the map has one
    destination per entry of the scan targetlist; every destination is 0,
    the number of the count column, the number of the sequence number column
    (only if sequence numbers are needed) or the number of an attribute of
    the chunk that is needed; the count column is among them, and the
    sequence number column exactly when sequence numbers are needed. *)
Theorem build_decompression_map_destinations (cat : Catalog)
    (path : Planner.DecompressChunkPath) (scan_tlist : list TargetEntry)
    (chunk_attrs_needed : list Z) (path' : Planner.DecompressChunkPath) :
  Planner.build_decompression_map cat path scan_tlist chunk_attrs_needed = Ok path' ->
  length (Planner.decompression_map path') = length scan_tlist /\
  Forall (destination_ok chunk_attrs_needed path) (Planner.decompression_map path') /\
  Planner.DECOMPRESS_CHUNK_COUNT_ID ∈ Planner.decompression_map path' /\
  (Planner.needs_sequence_num path = true ->
   Planner.DECOMPRESS_CHUNK_SEQUENCE_NUM_ID ∈ Planner.decompression_map path') /\
  (Planner.needs_sequence_num path = false ->
   Planner.DECOMPRESS_CHUNK_SEQUENCE_NUM_ID ∉ Planner.decompression_map path').
Proof.
  intros H.
  destruct (build_decompression_map_entries _ _ _ _ _ H)
    as (entries & Hlen & Hd & _ & _ & _ & _ & _ & Hc & Hq & Hok & _).
  rewrite Hd.
  assert (Hall : Forall (destination_ok chunk_attrs_needed path) (me_dest <$> entries)).
  { apply Forall_fmap. eapply Forall_impl; [|exact Hok]. intros e (_ & _ & He). exact He. }
  split; [by rewrite length_fmap|]. split; [done|]. split; [done|]. split; [done|].
  intros Hno Hin.
  rewrite Forall_forall in Hall. apply list_elem_of_In in Hin.
  destruct (Hall _ Hin) as [?|[?|[[_ ?]|[? _]]]]; try done; try congruence.
  unfold Planner.DECOMPRESS_CHUNK_SEQUENCE_NUM_ID in *. lia.
Qed.

Lemma build_decompression_map_destinations_witness :
  exists path',
    Planner.build_decompression_map Examples.example_catalog
      (Examples.example_path [] false false false [T_Var 1 3 23])
      Examples.example_scan_tlist [3 - FirstLowInvalidHeapAttributeNumber] = Ok path' /\
    length (Planner.decompression_map path') = length Examples.example_scan_tlist /\
    Planner.DECOMPRESS_CHUNK_COUNT_ID ∈ Planner.decompression_map path'.
Proof.
  eexists.
  assert (H : Planner.build_decompression_map Examples.example_catalog
                (Examples.example_path [] false false false [T_Var 1 3 23])
                Examples.example_scan_tlist [3 - FirstLowInvalidHeapAttributeNumber] = Ok _)
    by (vm_compute; reflexivity).
  split; [exact H|].
  destruct (build_decompression_map_destinations _ _ _ _ _ H) as (Hlen & _ & Hcount & _).
  split; [exact Hlen|exact Hcount].
Defined.

(** X3. In a plan that [decompress_chunk_plan_create] builds from a path
    whose lists are still empty, the decompression map and the lists of the
    segmentby and of the bulk decompression flags have one entry per entry of
    the scan targetlist, and so has the list of the aggregated column types
    when the plan aggregates: the lengths that
    [decompress_chunk_state_create] asserts. *)
Theorem plan_lists_are_parallel (cat : Catalog) (guc : Planner.GUC)
    (dcpath : Planner.DecompressChunkPath) (decompressed_tlist : list TargetEntry)
    (qual : list Node) (scan_tlist : list TargetEntry) (chunk_attrs_needed : list Z)
    (heap_sort_info : result (list (list Z))) (cscan : Planner.CustomScan) :
  Planner.is_segmentby_column dcpath = [] ->
  Planner.bulk_decompression_column dcpath = [] ->
  Planner.vectorized_aggregation_column dcpath = [] ->
  Planner.decompress_chunk_plan_create cat guc dcpath decompressed_tlist qual scan_tlist
    chunk_attrs_needed heap_sort_info = Ok cscan ->
  length (Planner.cs_decompression_map cscan) = length scan_tlist /\
  length (Planner.cs_is_segmentby_column cscan) = length scan_tlist /\
  length (Planner.cs_bulk_decompression_column cscan) = length scan_tlist /\
  length (Planner.cs_vectorized_aggregation_column cscan)
  = (if Planner.s_perform_vectorized_aggregation (Planner.settings cscan)
     then length scan_tlist else 0%nat).
Proof.
  intros Hseg Hbulk Hagg H.
  apply decompress_chunk_plan_create_Ok in H as (path' & so & Hmap & _ & _ & ->).
  destruct (build_decompression_map_entries _ _ _ _ _ Hmap)
    as (entries & Hlen & Hd & Hs & Hb & _ & Ha & _ & _ & _ & _ & _ & _ & Hpva).
  simpl. rewrite Hd, Hs, Hb, Ha, Hseg, Hbulk, Hagg, Hpva. simpl.
  by rewrite !length_fmap.
Qed.

Lemma plan_lists_are_parallel_witness :
  exists cscan,
    Planner.decompress_chunk_plan_create Examples.example_catalog Examples.example_guc
      (Examples.example_path [] false false false [T_Var 1 3 23]) [] []
      Examples.example_scan_tlist [3 - FirstLowInvalidHeapAttributeNumber] (Ok []) = Ok cscan /\
    length (Planner.cs_decompression_map cscan) = length Examples.example_scan_tlist /\
    length (Planner.cs_is_segmentby_column cscan) = length Examples.example_scan_tlist.
Proof.
  eexists.
  assert (H : Planner.decompress_chunk_plan_create Examples.example_catalog
                Examples.example_guc
                (Examples.example_path [] false false false [T_Var 1 3 23]) [] []
                Examples.example_scan_tlist [3 - FirstLowInvalidHeapAttributeNumber] (Ok [])
              = Ok _) by (vm_compute; reflexivity).
  split; [exact H|].
  destruct (plan_lists_are_parallel Examples.example_catalog Examples.example_guc
              (Examples.example_path [] false false false [T_Var 1 3 23]) [] []
              Examples.example_scan_tlist [3 - FirstLowInvalidHeapAttributeNumber] (Ok []) _
              eq_refl eq_refl eq_refl H) as (H1 & H2 & _).
  split; [exact H1|exact H2].
Defined.

(** A column that the planner regards as decompressible in bulk is a
    destination of the map, with the flag set. *)
Lemma bulk_decompression_possible_in_map cat path scan_tlist needed path' attno :
  Planner.bulk_decompression_column path = [] ->
  Planner.build_decompression_map cat path scan_tlist needed = Ok path' ->
  Planner.bulk_decompression_possible (Planner.column_compression_info path' attno) = true ->
  0 < attno /\
  exists i, Planner.decompression_map path' !! i = Some attno /\
            Planner.bulk_decompression_column path' !! i = Some 1.
Proof.
  intros Hbulk H Hattno.
  destruct (build_decompression_map_entries _ _ _ _ _ H)
    as (entries & Hlen & Hd & _ & Hb & Hh & _ & Hi & _ & _ & Hok & _).
  rewrite Hbulk in Hb. simpl in Hb. rewrite Hd, Hb.
  destruct (Hi attno Hattno) as (e & He & <- & Hbe).
  rewrite Forall_forall in Hok.
  destruct (Hok e) as (Hpos & _); [by apply list_elem_of_In|].
  split; [by apply Hpos|].
  apply list_elem_of_lookup in He as [i He]. exists i.
  rewrite !list_lookup_fmap, He. simpl. by rewrite Hbe.
Qed.

(** X4. When [build_decompression_map] succeeds on a path whose list of
    bulk decompression flags is still empty, every flag is 0 or 1, a column
    with the flag 1 has an attribute of the chunk as its destination,
    [have_bulk_decompression_columns] is set exactly when some flag is 1, and
    an attribute that the planner takes as decompressible in bulk is a
    destination of the map with the flag 1. *)
Theorem bulk_decompression_columns_have_destinations (cat : Catalog)
    (path : Planner.DecompressChunkPath) (scan_tlist : list TargetEntry)
    (chunk_attrs_needed : list Z) (path' : Planner.DecompressChunkPath) :
  Planner.bulk_decompression_column path = [] ->
  Planner.build_decompression_map cat path scan_tlist chunk_attrs_needed = Ok path' ->
  Forall (fun flag => flag = 0 \/ flag = 1) (Planner.bulk_decompression_column path') /\
  (forall i, Planner.bulk_decompression_column path' !! i = Some 1 ->
             exists dest, Planner.decompression_map path' !! i = Some dest /\ 0 < dest) /\
  (Planner.have_bulk_decompression_columns path' = true <->
   1 ∈ Planner.bulk_decompression_column path') /\
  (forall attno,
      Planner.bulk_decompression_possible (Planner.column_compression_info path' attno) = true ->
      0 < attno /\
      exists i, Planner.decompression_map path' !! i = Some attno /\
                Planner.bulk_decompression_column path' !! i = Some 1).
Proof.
  intros Hbulk H.
  split; [|split; [|split]];
    [| | |intros attno; by apply (bulk_decompression_possible_in_map _ _ _ _ _ _ Hbulk H)].
  all: destruct (build_decompression_map_entries _ _ _ _ _ H)
    as (entries & Hlen & Hd & _ & Hb & Hh & _ & Hi & _ & _ & Hok & _).
  all: rewrite Hbulk in Hb; simpl in Hb; rewrite ?Hd, ?Hb, ?Hh.
  - apply Forall_fmap, Forall_forall. intros e _. simpl. destruct (me_bulk e); auto.
  - intros i Hi1. rewrite list_lookup_fmap in Hi1.
    destruct (entries !! i) as [e|] eqn:He; [|discriminate].
    simpl in Hi1. exists (me_dest e). rewrite list_lookup_fmap, He. split; [done|].
    rewrite Forall_forall in Hok.
    destruct (Hok e) as (Hpos & _); [apply list_elem_of_In; by eapply list_elem_of_lookup_2|].
    apply Hpos. destruct (me_bulk e); [done|]. simpl in Hi1. discriminate.
  - rewrite existsb_exists. split.
    + intros (e & He & Hbe). apply list_elem_of_fmap. exists e.
      rewrite Hbe. split; [done|]. by apply list_elem_of_In.
    + intros He. apply list_elem_of_fmap in He as (e & He1 & He).
      exists e. split; [by apply list_elem_of_In|]. by destruct (me_bulk e).
Qed.

Lemma bulk_decompression_columns_have_destinations_witness :
  exists path',
    Planner.build_decompression_map Examples.example_catalog
      (Examples.example_path [] false false false [T_Var 1 3 23])
      Examples.example_scan_tlist [3 - FirstLowInvalidHeapAttributeNumber] = Ok path' /\
    (Planner.have_bulk_decompression_columns path' = true <->
     1 ∈ Planner.bulk_decompression_column path').
Proof.
  eexists.
  assert (H : Planner.build_decompression_map Examples.example_catalog
                (Examples.example_path [] false false false [T_Var 1 3 23])
                Examples.example_scan_tlist [3 - FirstLowInvalidHeapAttributeNumber] = Ok _)
    by (vm_compute; reflexivity).
  split; [exact H|].
  destruct (bulk_decompression_columns_have_destinations Examples.example_catalog
              (Examples.example_path [] false false false [T_Var 1 3 23])
              Examples.example_scan_tlist [3 - FirstLowInvalidHeapAttributeNumber] _
              eq_refl H) as (_ & _ & Hiff & _).
  exact Hiff.
Defined.

(** ** Vectorized qualifiers in the plan *)

(** X5. The qual that [make_vectorized_qual] returns is the qual it was given
    or, when the Var was on the right, its commuted form; classifying the
    returned qual again returns it unchanged. *)
Theorem make_vectorized_qual_idempotent (cat : Catalog) (path : Planner.DecompressChunkPath)
    (qual q : Node) :
  Planner.make_vectorized_qual cat path qual = Some q ->
  Planner.make_vectorized_qual cat path q = Some q /\
  (q = qual \/
   exists opno opfuncid left right,
     qual = T_OpExpr opno opfuncid [left; right] /\
     is_Var right = true /\
     q = T_OpExpr (get_commutator cat opno) InvalidOid [right; left]).
Proof.
  intros H.
  destruct (make_vectorized_qual_Some _ _ _ _ H)
    as (opno & opfuncid & left & right & varno & attno & ty & const & -> & Hcase & Hrc & Hb &
        opno' & Hq & [p Hp]).
  assert (Hconst : is_Var const = false).
  { destruct (is_Var const) eqn:E; [|done].
    by rewrite is_not_runtime_constant_Var in Hrc. }
  split.
  - rewrite Hq. simpl. rewrite Hconst, Hrc, Hb. simpl. by rewrite Hp.
  - destruct Hcase as [(-> & _)|(Hc & -> & -> & ->)]; [by left|].
    right. by exists opno, opfuncid, left, (T_Var varno attno ty).
Qed.

Lemma make_vectorized_qual_idempotent_witness :
  let qual := T_OpExpr 97 0 [T_Const 23 5 false; T_Var 1 3 23] in
  let q := T_OpExpr 521 InvalidOid [T_Var 1 3 23; T_Const 23 5 false] in
  Planner.make_vectorized_qual Examples.example_catalog MoreExamples.example_mapped_path qual
  = Some q /\
  Planner.make_vectorized_qual Examples.example_catalog MoreExamples.example_mapped_path q
  = Some q.
Proof.
  intros qual q.
  assert (H : Planner.make_vectorized_qual Examples.example_catalog
                MoreExamples.example_mapped_path qual = Some q) by (vm_compute; reflexivity).
  split; [exact H|].
  exact (proj1 (make_vectorized_qual_idempotent _ _ _ _ H)).
Defined.

Lemma omap_filter_length {A B} (f : A -> option B) (l : list A) :
  (length (omap f l) + length (filter (fun x => f x = None) l))%nat = length l.
Proof.
  induction l as [|x l IH]; [done|].
  cbn [omap list_omap]. fold (omap f l).
  destruct (f x) eqn:E.
  - rewrite filter_cons_False by (rewrite E; done). cbn [length]. lia.
  - rewrite filter_cons_True by done. cbn [length]. lia.
Qed.

(** X6. A plan keeps every qualifier of the scan in exactly one of its two
    lists: the lengths of the vectorized quals and of the quals left to the
    row-by-row evaluation add up to the number of qualifiers, the latter are
    a sublist of the qualifiers in their order, and every vectorized qual is
    a qualifier that is not in the other list, as it was or commuted. With
    bulk decompression disabled all qualifiers stay in the row-by-row list. *)
Theorem plan_keeps_every_qual (cat : Catalog) (guc : Planner.GUC)
    (dcpath : Planner.DecompressChunkPath) (decompressed_tlist : list TargetEntry)
    (qual : list Node) (scan_tlist : list TargetEntry) (chunk_attrs_needed : list Z)
    (heap_sort_info : result (list (list Z))) (cscan : Planner.CustomScan) :
  Planner.decompress_chunk_plan_create cat guc dcpath decompressed_tlist qual scan_tlist
    chunk_attrs_needed heap_sort_info = Ok cscan ->
  exists vectorized,
    Planner.custom_exprs cscan = [vectorized] /\
    (length vectorized + length (Planner.plan_qual cscan))%nat = length qual /\
    sublist (Planner.plan_qual cscan) qual /\
    (forall v, v ∈ vectorized ->
               exists q, q ∈ qual /\ ~ q ∈ Planner.plan_qual cscan /\ (v = q \/ commuted cat q v)) /\
    (Planner.s_enable_bulk_decompression (Planner.settings cscan) = false ->
     vectorized = [] /\ Planner.plan_qual cscan = qual).
Proof.
  intros H.
  apply decompress_chunk_plan_create_Ok in H as (path' & so & Hmap & _ & _ & ->).
  simpl.
  destruct (negb _ && _ && _).
  - rewrite find_vectorized_quals_from. simpl.
    eexists. split; [reflexivity|].
    split; [apply omap_filter_length|].
    split; [apply sublist_filter|].
    split; [|discriminate].
    intros v Hv. apply list_elem_of_omap in Hv as (q & Hq & Hv).
    exists q. split; [done|]. split.
    + intros Hin. apply list_elem_of_filter in Hin as [Hnone _]. congruence.
    + destruct (make_vectorized_qual_idempotent _ _ _ _ Hv)
        as [_ [->|(opno & opfuncid & l & r & -> & _ & ->)]]; [by left|].
      right. by exists opno, opfuncid, l, r.
  - exists []. simpl. split; [done|]. split; [done|]. split; [done|].
    split; [|done]. intros v Hv. by apply elem_of_nil in Hv.
Qed.

Lemma plan_keeps_every_qual_witness :
  let q1 := T_OpExpr 97 0 [T_Const 23 5 false; T_Var 1 3 23] in
  let q2 := T_OpExpr 9001 0 [T_Var 1 3 23; T_Const 23 5 false] in
  exists cscan vectorized,
    Planner.decompress_chunk_plan_create Examples.example_catalog Examples.example_guc
      (Examples.example_path [] false false false [T_Var 1 3 23]) [] [q1; q2]
      Examples.example_scan_tlist [3 - FirstLowInvalidHeapAttributeNumber] (Ok []) = Ok cscan /\
    Planner.custom_exprs cscan = [vectorized] /\
    (length vectorized + length (Planner.plan_qual cscan))%nat = length [q1; q2].
Proof.
  intros q1 q2. eexists.
  assert (H : Planner.decompress_chunk_plan_create Examples.example_catalog
                Examples.example_guc
                (Examples.example_path [] false false false [T_Var 1 3 23]) [] [q1; q2]
                Examples.example_scan_tlist [3 - FirstLowInvalidHeapAttributeNumber] (Ok [])
              = Ok _) by (vm_compute; reflexivity).
  destruct (plan_keeps_every_qual _ _ _ _ _ _ _ _ _ H) as (vectorized & Hv & Hlen & _).
  exists vectorized. split; [exact H|]. split; [exact Hv|exact Hlen].
Defined.

(** X7. In a plan built from a path whose list of bulk decompression flags
    is still empty, every vectorized qual compares a Var on the left with a
    runtime constant on the right by an operator whose function is in the
    vector predicate registry, the Var is of an attribute of the chunk that
    is a destination of the decompression map with the bulk decompression
    flag 1, and bulk decompression is enabled. *)
Theorem plan_vectorized_quals_on_bulk_columns (cat : Catalog) (guc : Planner.GUC)
    (dcpath : Planner.DecompressChunkPath) (decompressed_tlist : list TargetEntry)
    (qual : list Node) (scan_tlist : list TargetEntry) (chunk_attrs_needed : list Z)
    (heap_sort_info : result (list (list Z))) (cscan : Planner.CustomScan) (v : Node) :
  Planner.bulk_decompression_column dcpath = [] ->
  Planner.decompress_chunk_plan_create cat guc dcpath decompressed_tlist qual scan_tlist
    chunk_attrs_needed heap_sort_info = Ok cscan ->
  v ∈ default [] (head (Planner.custom_exprs cscan)) ->
  Planner.s_enable_bulk_decompression (Planner.settings cscan) = true /\
  exists opno opfuncid varno varattno vartype const i,
    v = T_OpExpr opno opfuncid [T_Var varno varattno vartype; const] /\
    runtime_constant cat const /\
    is_Some (get_vector_const_predicate cat (get_opcode cat opno)) /\
    0 < varattno /\
    Planner.cs_decompression_map cscan !! i = Some varattno /\
    Planner.cs_bulk_decompression_column cscan !! i = Some 1.
Proof.
  intros Hbulk H Hv.
  apply decompress_chunk_plan_create_Ok in H as (path' & so & Hmap & _ & _ & ->).
  simpl in *.
  destruct (negb _ && _ && _); [|by apply elem_of_nil in Hv].
  split; [done|].
  rewrite find_vectorized_quals_from in Hv. simpl in Hv.
  apply list_elem_of_omap in Hv as (q & Hq & Hv).
  destruct (make_vectorized_qual_Some _ _ _ _ Hv)
    as (opno & opfuncid & left & right & varno & attno & ty & const & _ & _ & Hrc & Hb &
        opno' & Hshape & Hp).
  destruct (bulk_decompression_possible_in_map _ _ _ _ _ _ Hbulk Hmap Hb)
    as (Hpos & i & Hd & Hbi).
  eexists opno', _, varno, attno, ty, const, i.
  split; [exact Hshape|]. split; [by apply is_not_runtime_constant_spec|]. done.
Qed.

Lemma plan_vectorized_quals_on_bulk_columns_witness :
  let q := T_OpExpr 521 0 [T_Var 1 3 23; T_Const 23 5 false] in
  exists cscan,
    Planner.decompress_chunk_plan_create Examples.example_catalog Examples.example_guc
      (Examples.example_path [] false false false [T_Var 1 3 23]) [] [q]
      Examples.example_scan_tlist [3 - FirstLowInvalidHeapAttributeNumber] (Ok []) = Ok cscan /\
    Planner.s_enable_bulk_decompression (Planner.settings cscan) = true.
Proof.
  intros q. eexists.
  assert (H : Planner.decompress_chunk_plan_create Examples.example_catalog
                Examples.example_guc
                (Examples.example_path [] false false false [T_Var 1 3 23]) [] [q]
                Examples.example_scan_tlist [3 - FirstLowInvalidHeapAttributeNumber] (Ok [])
              = Ok _) by (vm_compute; reflexivity).
  split; [exact H|].
  refine (proj1 (plan_vectorized_quals_on_bulk_columns Examples.example_catalog
                   Examples.example_guc
                   (Examples.example_path [] false false false [T_Var 1 3 23]) [] [q]
                   Examples.example_scan_tlist [3 - FirstLowInvalidHeapAttributeNumber]
                   (Ok []) _ q eq_refl H _)).
  left.
Defined.

(** ** Rewriting the expressions of the scan *)

(** X8. [find_attr_pos_in_tlist] returns the [resno] of the first entry of
    the targetlist that is a Var of the attribute [pos], provided that every
    entry before it is a Var (of another attribute). It raises "compressed
    scan targetlist entries must be Vars" when it meets an entry that is not
    a Var before it has found one, and "Unable to locate var in targetlist"
    when every entry is a Var of another attribute. *)
Theorem find_attr_pos_in_tlist_spec (targetlist : list TargetEntry) (pos : AttrNumber) :
  match Planner.find_attr_pos_in_tlist targetlist pos with
  | Ok r =>
      exists before target after varno vartype,
        targetlist = before ++ target :: after /\
        Forall (other_var_entry pos) before /\
        expr target = T_Var varno pos vartype /\
        r = resno target
  | Raise code msg =>
      code = ERRCODE_INTERNAL_ERROR /\
      ((msg = "Unable to locate var in targetlist"%string /\
        Forall (other_var_entry pos) targetlist) \/
       (msg = "compressed scan targetlist entries must be Vars"%string /\
        exists before target after,
          targetlist = before ++ target :: after /\
          Forall (other_var_entry pos) before /\
          is_Var (expr target) = false))
  end.
Proof.
  induction targetlist as [|target rest IH]; simpl.
  - split; [done|]. left. split; [done|constructor].
  - destruct (expr target) as [varno attno ty| | | | | | |] eqn:He;
      try (split; [done|]; right; split; [done|];
           exists [], target, rest; rewrite He; split; [done|]; split; [constructor|done]).
    destruct (decide (attno = pos)) as [->|Hne].
    + exists [], target, rest, varno, ty. split; [done|]. split; [constructor|]. done.
    + assert (Hhead : other_var_entry pos target) by (by exists varno, attno, ty).
      destruct (Planner.find_attr_pos_in_tlist rest pos) as [r|code msg].
      * destruct IH as (before & t & after & vn & vt & -> & Hb & Ht & Hr).
        exists (target :: before), t, after, vn, vt.
        split; [done|]. split; [by constructor|]. done.
      * destruct IH as (-> & [(-> & Hall)|(-> & before & t & after & -> & Hb & Ht)]).
        -- split; [done|]. left. split; [done|]. by constructor.
        -- split; [done|]. right. split; [done|].
           exists (target :: before), t, after. split; [done|]. split; [by constructor|done].
Qed.

Lemma mutate_list_Ok {A B} (f : A -> result B) l l' :
  Planner.mutate_list f l = Ok l' <-> Forall2 (fun x y => f x = Ok y) l l'.
Proof.
  revert l'. induction l as [|x l IH]; intros l'; simpl.
  - split; [intros [= <-]; constructor|]. intros H. by inversion H.
  - split.
    + intros H. apply bind_Ok in H as (y & Hy & H). apply bind_Ok in H as (ys & Hys & H).
      injection H as <-. constructor; [done|]. by apply IH.
    + intros H. inversion H as [|? y ? ys Hy Hys]; subst.
      rewrite Hy. simpl. apply IH in Hys. fold (Planner.mutate_list f) in *.
      rewrite Hys. done.
Qed.

Lemma mutate_list_is_ok {A B} (f : A -> result B) l :
  is_ok (Planner.mutate_list f l) = true <-> Forall (fun x => is_ok (f x) = true) l.
Proof.
  induction l as [|x l IH]; simpl; [split; [constructor|done]|].
  fold (Planner.mutate_list f).
  destruct (f x) as [y|] eqn:Hx; simpl.
  - destruct (Planner.mutate_list f l) as [ys|] eqn:Hl; simpl.
    + split; [|done]. intros _. constructor; [by rewrite Hx|]. by apply IH.
    + split; [done|]. intros H. inversion H; subst. by apply IH.
  - split; [done|]. intros H. inversion H as [|? ? H1 _]; subst. by rewrite Hx in H1.
Qed.

Section ReplaceCompressedVars.
Variable i : Planner.CompressionInfo.

(** X9. [replace_compressed_vars] returns an expression exactly when the
    expression has no placeholder and no Var of the compressed chunk whose
    attribute has no name, or no namesake among the columns of the chunk;
    otherwise it raises an error. *)
Theorem replace_compressed_vars_succeeds_iff (n : Node) :
  is_ok (Planner.replace_compressed_vars i n) = true <->
  forall m, occurs_in m n -> ~ unreplaceable i m.
Proof.
  induction n as [varno attno ty|ct cv cn|pid|e IH|o f args IH|f args IH|e IH|f args IH]
    using Node_nested_ind.
  - simpl. split.
    + intros H m Hm. inversion Hm; subst. simpl. intros (Hnt & Hc & Hname).
      rewrite decide_False in H by done.
      rewrite decide_False in H by (intros Hne; done).
      destruct (get_attname _ attno) as [name|]; [|done].
      rewrite decide_True in H by (by apply Hname). done.
    + intros H. specialize (H _ (occurs_here _)). simpl in H.
      destruct (decide (_ /\ _)) as [|Hnt]; [done|].
      destruct (decide (varno <> _)) as [|Hc]; [done|].
      assert (Hc' : varno = Planner.compressed_rel_relid i)
        by (destruct (decide (varno = Planner.compressed_rel_relid i)); [done|by exfalso; apply Hc]).
      destruct (get_attname _ attno) as [name|] eqn:Hn.
      * destruct (decide (_ = InvalidAttrNumber)) as [Hinv|]; [|done].
        exfalso. apply H. split; [done|]. split; [done|]. intros name' [= <-]. done.
      * exfalso. apply H. split; [done|]. split; [done|]. intros name' [=].
  - simpl. split; [|done]. intros _ m Hm. inversion Hm; subst. simpl. tauto.
  - simpl. split; [|done]. intros _ m Hm. inversion Hm; subst. simpl. tauto.
  - simpl. split; [done|]. intros H. exfalso. by apply (H _ (occurs_here _)).
  - simpl. destruct (Planner.mutate_list _ args) as [args'|] eqn:Hargs; simpl.
    + split; [|done]. intros _ m Hm.
      assert (Hok : is_ok (Planner.mutate_list (Planner.replace_compressed_vars i) args) = true)
        by (by rewrite Hargs).
      apply mutate_list_is_ok in Hok.
      inversion Hm as [| |? ? ? a Ha Hma| | |]; subst; [simpl; tauto|].
      rewrite Forall_forall in IH, Hok. apply list_elem_of_In in Ha.
      by apply (proj1 (IH a Ha) (Hok a Ha)).
    + split; [done|]. intros H. exfalso.
      assert (Hok : is_ok (Planner.mutate_list (Planner.replace_compressed_vars i) args) = true).
      { apply mutate_list_is_ok. rewrite Forall_forall in IH |- *. intros a Ha.
        apply (IH a Ha). intros m Hm. apply H. eapply occurs_OpExpr; [|exact Hm].
        by apply list_elem_of_In. }
      by rewrite Hargs in Hok.
  - simpl. destruct (Planner.mutate_list _ args) as [args'|] eqn:Hargs; simpl.
    + split; [|done]. intros _ m Hm.
      assert (Hok : is_ok (Planner.mutate_list (Planner.replace_compressed_vars i) args) = true)
        by (by rewrite Hargs).
      apply mutate_list_is_ok in Hok.
      inversion Hm as [| | |? ? a Ha Hma| |]; subst; [simpl; tauto|].
      rewrite Forall_forall in IH, Hok. apply list_elem_of_In in Ha.
      by apply (proj1 (IH a Ha) (Hok a Ha)).
    + split; [done|]. intros H. exfalso.
      assert (Hok : is_ok (Planner.mutate_list (Planner.replace_compressed_vars i) args) = true).
      { apply mutate_list_is_ok. rewrite Forall_forall in IH |- *. intros a Ha.
        apply (IH a Ha). intros m Hm. apply H. eapply occurs_FuncExpr; [|exact Hm].
        by apply list_elem_of_In. }
      by rewrite Hargs in Hok.
  - simpl. destruct (Planner.replace_compressed_vars i e) as [e'|] eqn:He; simpl.
    + split; [|done]. intros _ m Hm.
      inversion Hm as [| | | |? Hme|]; subst; [simpl; tauto|].
      by apply (proj1 IH eq_refl).
    + split; [done|]. intros H. exfalso.
      assert (is_ok (Raise code msg : result Node) = true); [|done].
      apply IH. intros m Hm. apply H. by apply occurs_RelabelType.
  - simpl. destruct (Planner.mutate_list _ args) as [args'|] eqn:Hargs; simpl.
    + split; [|done]. intros _ m Hm.
      assert (Hok : is_ok (Planner.mutate_list (Planner.replace_compressed_vars i) args) = true)
        by (by rewrite Hargs).
      apply mutate_list_is_ok in Hok.
      inversion Hm as [| | | | |? ? a Ha Hma]; subst; [simpl; tauto|].
      rewrite Forall_forall in IH, Hok. apply list_elem_of_In in Ha.
      by apply (proj1 (IH a Ha) (Hok a Ha)).
    + split; [done|]. intros H. exfalso.
      assert (Hok : is_ok (Planner.mutate_list (Planner.replace_compressed_vars i) args) = true).
      { apply mutate_list_is_ok. rewrite Forall_forall in IH |- *. intros a Ha.
        apply (IH a Ha). intros m Hm. apply H. eapply occurs_Aggref; [|exact Hm].
        by apply list_elem_of_In. }
      by rewrite Hargs in Hok.
Qed.

End ReplaceCompressedVars.




Section ReplaceCompressedVarsResult.
Variable i : Planner.CompressionInfo.
Hypothesis distinct : Planner.chunk_rel_relid i <> Planner.compressed_rel_relid i.





End ReplaceCompressedVarsResult.


(** ** The sort keys of the batch sorted merge *)

Lemma sort_keys_of_snoc a b c d x y z w :
  length a = length b -> length b = length c -> length c = length d ->
  sort_keys_of (a ++ [x]) (b ++ [y]) (c ++ [z]) (d ++ [w]) =
  sort_keys_of a b c d ++ [Exec.mkSortSupport z (negb (w =? 0)) x false y].
Proof.
  revert b c d. induction a as [|a0 a IH]; intros [|b0 b] [|c0 c] [|d0 d]; simpl;
    try discriminate; [done|].
  intros [= H1] [= H2] [= H3]. by rewrite IH.
Qed.

Lemma sort_keys_of_length a b c d n :
  length a = n -> length b = n -> length c = n -> length d = n ->
  length (sort_keys_of a b c d) = n.
Proof.
  revert a b c d. induction n as [|n IH]; intros [|a0 a] [|b0 b] [|c0 c] [|d0 d]; simpl;
    try discriminate; [done|].
  intros [= H1] [= H2] [= H3] [= H4]. by rewrite (IH a b c d).
Qed.

Lemma sort_keys_of_lookup a b c d k key :
  sort_keys_of a b c d !! k = Some key ->
  exists attno op coll nulls,
    a !! k = Some attno /\ b !! k = Some op /\ c !! k = Some coll /\ d !! k = Some nulls /\
    key = Exec.mkSortSupport coll (negb (nulls =? 0)) attno false op.
Proof.
  revert a b c d. induction k as [|k IH]; intros [|a0 a] [|b0 b] [|c0 c] [|d0 d]; simpl;
    try discriminate.
  - intros [= <-]. by eexists _, _, _, _.
  - apply IH.
Qed.

Lemma find_sort_member_Some sc chunk_relid pk members so so' :
  Planner.find_sort_member sc chunk_relid pk members so = Ok (Some so') ->
  exists em varno varattno vartype,
    em ∈ members /\ Planner.em_is_const em = false /\
    Planner.bms_get_singleton_member (Planner.em_relids em) = Some chunk_relid /\
    Planner.em_expr em = T_Var varno varattno vartype /\
    OidIsValid (Planner.get_opfamily_member sc (Planner.pk_opfamily pk) vartype vartype
                  (Planner.pk_strategy pk)) = true /\
    so' = Planner.mkSortOptions
            (Planner.sort_col_idx so ++ [varattno])
            (Planner.sort_ops so ++
               [Planner.get_opfamily_member sc (Planner.pk_opfamily pk) vartype vartype
                  (Planner.pk_strategy pk)])
            (Planner.sort_collations so ++ [Planner.varcollid sc (Planner.em_expr em)])
            (Planner.sort_nulls so ++ [Planner.bool_to_int (Planner.pk_nulls_first pk)]).
Proof.
  induction members as [|em rest IH]; simpl; [done|].
  assert (Hrest : Planner.find_sort_member sc chunk_relid pk rest so = Ok (Some so') ->
                  exists em0 varno varattno vartype,
                    em0 ∈ em :: rest /\ Planner.em_is_const em0 = false /\
                    Planner.bms_get_singleton_member (Planner.em_relids em0) = Some chunk_relid /\
                    Planner.em_expr em0 = T_Var varno varattno vartype /\
                    OidIsValid (Planner.get_opfamily_member sc (Planner.pk_opfamily pk) vartype
                                  vartype (Planner.pk_strategy pk)) = true /\
                    so' = Planner.mkSortOptions
                            (Planner.sort_col_idx so ++ [varattno])
                            (Planner.sort_ops so ++
                               [Planner.get_opfamily_member sc (Planner.pk_opfamily pk) vartype
                                  vartype (Planner.pk_strategy pk)])
                            (Planner.sort_collations so ++
                               [Planner.varcollid sc (Planner.em_expr em0)])
                            (Planner.sort_nulls so ++ [Planner.bool_to_int (Planner.pk_nulls_first pk)])).
  { intros H. destruct (IH H) as (em0 & varno & varattno & vartype & Hin & Hrest).
    exists em0, varno, varattno, vartype. split; [by right|done]. }
  destruct (Planner.em_is_const em) eqn:Hconst; [done|].
  destruct (Planner.bms_get_singleton_member _) as [em_relid|] eqn:Hsingle; [|done].
  destruct (decide (em_relid <> chunk_relid)) as [|Hrel]; [done|].
  assert (em_relid = chunk_relid) as ->
    by (destruct (decide (em_relid = chunk_relid)); [done|by exfalso; apply Hrel]).
  destruct (Planner.em_expr em) as [varno varattno vartype| | | | | | |] eqn:Hexpr; try done.
  destruct (OidIsValid _) eqn:Hvalid; [|done].
  intros [= <-]. exists em, varno, varattno, vartype.
  split; [by left|]. rewrite Hexpr. done.
Qed.

Lemma add_sort_key_keys sc chunk_relid so pk so' n :
  Planner.add_sort_key sc chunk_relid so pk = Ok so' ->
  sort_options_length so n ->
  sort_options_length so' (S n) /\
  exists key, sort_key_of sc chunk_relid pk key /\
              sort_options_keys so' = sort_options_keys so ++ [key].
Proof.
  unfold Planner.add_sort_key. intros H (Ha & Hb & Hc & Hd).
  apply bind_Ok in H as (found & Hfound & H). destruct found as [so1|]; [|done].
  injection H as <-.
  apply find_sort_member_Some in Hfound
    as (em & varno & varattno & vartype & Hin & Hconst & Hsingle & Hexpr & Hvalid & ->).
  split.
  { unfold sort_options_length. simpl. rewrite !length_app. simpl. lia. }
  unfold sort_options_keys. simpl.
  rewrite sort_keys_of_snoc by congruence.
  eexists. split; [|reflexivity].
  exists em, varno, vartype. simpl. repeat split; try done.
  by destruct (Planner.pk_nulls_first pk).
Qed.

Lemma build_sort_options_keys sc chunk_relid pathkeys :
  forall so so' done_keys,
    foreach (Planner.add_sort_key sc chunk_relid) pathkeys so = Ok so' ->
    sort_options_length so (length done_keys) ->
    Forall2 (sort_key_of sc chunk_relid) done_keys (sort_options_keys so) ->
    sort_options_length so' (length (done_keys ++ pathkeys)) /\
    Forall2 (sort_key_of sc chunk_relid) (done_keys ++ pathkeys) (sort_options_keys so').
Proof.
  induction pathkeys as [|pk rest IH]; intros so so' done_keys H Hlen Hkeys; simpl in H.
  - injection H as <-. by rewrite app_nil_r.
  - apply bind_Ok in H as (so1 & H1 & H).
    destruct (add_sort_key_keys _ _ _ _ _ _ H1 Hlen) as (Hlen1 & key & Hkey & Heq).
    replace (done_keys ++ pk :: rest) with ((done_keys ++ [pk]) ++ rest)
      by (by rewrite <- app_assoc).
    apply (IH so1); [done| |].
    + rewrite length_app. simpl. by replace (length done_keys + 1)%nat with (S (length done_keys)) by lia.
    + rewrite Heq. apply Forall2_app; [done|]. by constructor.
Qed.

Lemma build_batch_sorted_merge_info_keys a b c d n :
  length a = n -> length b = n -> length c = n -> length d = n ->
  Exec.build_batch_sorted_merge_info [a; b; c; d] = Ok (Z.of_nat n, sort_keys_of a b c d).
Proof.
  intros Ha Hb Hc Hd. unfold Exec.build_batch_sorted_merge_info.
  assert (Hkeys : Planner.mutate_list
            (fun i : nat =>
               coll ← Planner.list_nth_oid c i;
               nulls ← Planner.list_nth_oid d i;
               attno ← Planner.list_nth_oid a i;
               op ← Planner.list_nth_oid b i;
               Ok (Exec.mkSortSupport coll (negb (nulls =? 0)) attno false op))
            (seq 0 (length a)) = Ok (sort_keys_of a b c d)).
  { apply mutate_list_Ok. apply Forall2_same_length_lookup_2.
    - rewrite length_seq. by rewrite (sort_keys_of_length a b c d n).
    - intros k i key Hi Hkey. apply lookup_seq in Hi as [-> _]. simpl.
      apply sort_keys_of_lookup in Hkey
        as (attno & op & coll & nulls & Hak & Hbk & Hck & Hdk & ->).
      unfold Planner.list_nth_oid. by rewrite Hak, Hbk, Hck, Hdk. }
  rewrite Hkeys. simpl. by rewrite Ha.
Qed.

(** X11. The sort info that the planner builds for the batch sorted merge is
    accepted by [build_batch_sorted_merge_info] of the executor, which gets
    one sort key per pathkey, in the order of the pathkeys: the attribute is
    that of a member of the pathkey's equivalence class that is not a
    constant and is a Var of the chunk alone, the ordering operator is the
    valid member of the pathkey's operator family for the type of the Var,
    collation and nulls-first are those of the Var and of the pathkey, and
    abbreviation is off. *)
Theorem sort_info_reaches_the_executor (sc : Planner.SortCatalog) (i : Planner.CompressionInfo)
    (pathkeys : list Planner.PathKey) (compressed_tlist : list TargetEntry)
    (target_list_compressed_is_physical : bool) (sortinfo : list (list Z)) :
  Planner.heap_sort_info sc i pathkeys compressed_tlist target_list_compressed_is_physical
    = Ok sortinfo ->
  exists sortkeys,
    Exec.build_batch_sorted_merge_info sortinfo = Ok (Z.of_nat (length pathkeys), sortkeys) /\
    Forall2 (sort_key_of sc (Planner.chunk_rel_relid i)) pathkeys sortkeys.
Proof.
  unfold Planner.heap_sort_info, Planner.build_sort_options. intros H.
  apply bind_Ok in H as (so & Hso & H). apply bind_Ok in H as (keys & _ & H).
  injection H as <-.
  destruct (build_sort_options_keys sc (Planner.chunk_rel_relid i) pathkeys _ so [] Hso)
    as ((Ha & Hb & Hc & Hd) & Hkeys).
  { by repeat split. }
  { constructor. }
  simpl in *. exists (sort_options_keys so). split; [|done].
  by apply build_batch_sorted_merge_info_keys.
Qed.

Lemma sort_info_reaches_the_executor_witness :
  exists sortinfo sortkeys,
    Planner.heap_sort_info MoreExamples.example_sort_catalog (Examples.example_info [])
      MoreExamples.example_pathkeys Examples.example_scan_tlist true = Ok sortinfo /\
    Exec.build_batch_sorted_merge_info sortinfo = Ok (1, sortkeys) /\
    Forall2 (sort_key_of MoreExamples.example_sort_catalog 1)
      MoreExamples.example_pathkeys sortkeys.
Proof.
  eexists.
  assert (H : Planner.heap_sort_info MoreExamples.example_sort_catalog
                (Examples.example_info []) MoreExamples.example_pathkeys
                Examples.example_scan_tlist true = Ok _)
    by (vm_compute; reflexivity).
  destruct (sort_info_reaches_the_executor MoreExamples.example_sort_catalog
              (Examples.example_info []) MoreExamples.example_pathkeys
              Examples.example_scan_tlist true _ H) as (sortkeys & Hkeys & Hof).
  exists sortkeys. split; [exact H|]. split; [exact Hkeys|exact Hof].
Defined.

(** * Further properties of the executor *)

(** ** [tableoid] in a projecting targetlist *)

Section Constify.
Variables (chunk_index : Z) (chunk_relid : Oid).

Lemma mutate_list_with_ok {A : Type} (f : A -> bool -> result (A * bool)) (g : A -> A)
    (bad changed : A -> Prop) (l : list A) :
  Forall (fun x => forall mc, flagged_mutator_ok (g x) bad changed x mc (f x mc)) l ->
  forall mc,
    flagged_mutator_ok (map g l) (Exists bad) (Exists changed) l mc
      (Exec.mutate_list_with f l mc).
Proof.
  induction 1 as [|x l Hx _ IH]; intros mc; simpl.
  - split_and!; [done|done| |]; intros H; by apply Exists_nil in H.
  - fold (Exec.mutate_list_with f). specialize (Hx mc).
    destruct (f x mc) as [[y mc1]|code msg]; simpl in *.
    + destruct Hx as (-> & Hmc1 & Hch1 & Hbad). specialize (IH mc1).
      destruct (Exec.mutate_list_with f l mc1) as [[ys mc2]|code msg]; simpl in *.
      * destruct IH as (-> & Hmc2 & Hch2 & Hbads). split_and!; [done| | |].
        -- intros H2. destruct (Hmc2 H2) as [H1 Hl]. destruct (Hmc1 H1) as [H0 Hx].
           split; [done|]. by rewrite Hx, Hl.
        -- intros Hch. apply Exists_cons in Hch as [Hch|Hch]; [|by apply Hch2].
           destruct mc2; [done|]. destruct (Hmc2 eq_refl) as [H1 _].
           rewrite (Hch1 Hch) in H1. done.
        -- intros Hex. apply Exists_cons in Hex as [?|?]; [by apply Hbad|by apply Hbads].
      * destruct IH as (-> & -> & Hbads). split_and!; [done|done|]. by apply Exists_cons_tl.
    + destruct Hx as (-> & -> & Hbad). split_and!; [done|done|]. by apply Exists_cons_hd.
Qed.

Lemma flagged_leaf (n : Node) (mc : bool) :
  (forall m, occurs_in m n -> m = n) ->
  (forall varattno vartype, n <> T_Var chunk_index varattno vartype) ->
  flagged_mutator_ok n (has_unsupported_system_column chunk_index)
    (has_chunk_tableoid chunk_index) n mc (Ok (n, mc)).
Proof.
  intros Hleaf Hvar. simpl. split_and!; [done|done| |].
  - intros (ty' & Hocc). apply Hleaf in Hocc. by destruct (Hvar TableOidAttributeNumber ty').
  - intros (a & ty' & Hocc & _). apply Hleaf in Hocc. by destruct (Hvar a ty').
Qed.

Lemma flagged_unary (wrap : Node -> Node) (e : Node) (mc : bool) r :
  (forall m, occurs_in m (wrap e) -> m = wrap e \/ occurs_in m e) ->
  (forall m, occurs_in m e -> occurs_in m (wrap e)) ->
  (forall varattno vartype, wrap e <> T_Var chunk_index varattno vartype) ->
  (forall a b, a = b -> wrap a = wrap b) ->
  flagged_mutator_ok (tableoid_constified chunk_index chunk_relid e)
    (has_unsupported_system_column chunk_index) (has_chunk_tableoid chunk_index) e mc r ->
  flagged_mutator_ok (wrap (tableoid_constified chunk_index chunk_relid e))
    (has_unsupported_system_column chunk_index) (has_chunk_tableoid chunk_index) (wrap e) mc
    ('(e', mc') ← r; Ok (wrap e', mc')).
Proof.
  intros Hinv Hsub Hvar Hwrap IH. destruct r as [[e' mc']|code msg]; simpl in *.
  - destruct IH as (-> & Hmc & Hch & Hbad). split_and!; [done| | |].
    + intros H. destruct (Hmc H) as [H0 He]. split; [done|]. by apply Hwrap.
    + intros (ty' & Hocc). apply Hinv in Hocc as [Heq|Hocc]; [by destruct (Hvar TableOidAttributeNumber ty')|].
      apply Hch. by exists ty'.
    + intros (a & ty' & Hocc & Hrest). apply Hinv in Hocc as [Heq|Hocc];
        [by destruct (Hvar a ty')|]. apply Hbad. by exists a, ty'.
  - destruct IH as (-> & -> & a & ty' & Hocc & Hrest). split_and!; [done|done|].
    exists a, ty'. split; [by apply Hsub|done].
Qed.

Lemma flagged_nary (wrap : list Node -> Node) (args : list Node) (mc : bool) r :
  (forall m, occurs_in m (wrap args) -> m = wrap args \/ exists a, a ∈ args /\ occurs_in m a) ->
  (forall m a, a ∈ args -> occurs_in m a -> occurs_in m (wrap args)) ->
  (forall varattno vartype, wrap args <> T_Var chunk_index varattno vartype) ->
  flagged_mutator_ok (map (tableoid_constified chunk_index chunk_relid) args)
    (Exists (has_unsupported_system_column chunk_index))
    (Exists (has_chunk_tableoid chunk_index)) args mc r ->
  flagged_mutator_ok (wrap (map (tableoid_constified chunk_index chunk_relid) args))
    (has_unsupported_system_column chunk_index) (has_chunk_tableoid chunk_index) (wrap args) mc
    ('(args', mc') ← r; Ok (wrap args', mc')).
Proof.
  intros Hinv Hsub Hvar IH. destruct r as [[args' mc']|code msg]; simpl in *.
  - destruct IH as (-> & Hmc & Hch & Hbad). split_and!; [done| | |].
    + intros H. destruct (Hmc H) as [H0 He]. split; [done|]. by rewrite He.
    + intros (ty' & Hocc). apply Hinv in Hocc as [Heq|(a & Ha & Hocc)];
        [by destruct (Hvar TableOidAttributeNumber ty')|].
      apply Hch. apply Exists_exists. exists a. split; [by apply list_elem_of_In|by exists ty'].
    + intros (b & ty' & Hocc & Hrest). apply Hinv in Hocc as [Heq|(a & Ha & Hocc)];
        [by destruct (Hvar b ty')|].
      apply Hbad. apply Exists_exists. exists a. split; [by apply list_elem_of_In|].
      by exists b, ty'.
  - destruct IH as (-> & -> & Hex). split_and!; [done|done|].
    apply Exists_exists in Hex as (a & Ha & b & ty' & Hocc & Hrest).
    exists b, ty'. split; [|done]. apply (Hsub _ a); [by apply list_elem_of_In|done].
Qed.

Lemma constify_tableoid_walker_ok n :
  forall mc,
    flagged_mutator_ok (tableoid_constified chunk_index chunk_relid n)
      (has_unsupported_system_column chunk_index) (has_chunk_tableoid chunk_index) n mc
      (Exec.constify_tableoid_walker chunk_index chunk_relid n mc).
Proof.
  induction n as [varno attno ty|ct cv cn|pid|e IH|o f args IH|f args IH|e IH|f args IH]
    using Node_nested_ind; intros mc.
  - simpl. destruct (decide (varno <> chunk_index)) as [Hne|Heq].
    + rewrite decide_False by (intros [? _]; by apply Hne). simpl.
      split_and!; [done|done| |].
      * intros (ty' & Hocc). inversion Hocc; subst. by destruct Hne.
      * intros (a & ty' & Hocc & _). inversion Hocc; subst. by apply Hne.
    + assert (varno = chunk_index) as ->
        by (destruct (decide (varno = chunk_index)); [done|by exfalso; apply Heq]).
      destruct (decide (attno = TableOidAttributeNumber)) as [->|Hnt].
      * rewrite decide_True by done. simpl. split_and!; [done|done|done|].
        intros (a & ty' & Hocc & Hne & _). inversion Hocc; subst. by apply Hne.
      * rewrite decide_False by (intros [_ ?]; by apply Hnt).
        destruct (decide (attno < SelfItemPointerAttributeNumber)) as [Hlt|Hge]; simpl.
        -- split_and!; [done|done|]. exists attno, ty. split; [constructor|done].
        -- split_and!; [done|done| |].
           ++ intros (ty' & Hocc). inversion Hocc; subst. by destruct Hnt.
           ++ intros (a & ty' & Hocc & _ & Hlt). inversion Hocc; subst. by apply Hge.
  - apply (flagged_leaf (T_Const ct cv cn)); [|done]. intros m Hm. by inversion Hm.
  - apply (flagged_leaf (T_Param pid)); [|done]. intros m Hm. by inversion Hm.
  - apply (flagged_unary T_PlaceHolderVar e mc); [| |done|by intros ? ? ->|apply IH].
    + intros m Hm. inversion Hm; subst; [by left|by right].
    + intros m Hm. by apply occurs_PlaceHolderVar.
  - apply (flagged_nary (T_OpExpr o f) args mc); [| |done|by apply (mutate_list_with_ok _ (tableoid_constified chunk_index chunk_relid))].
    + intros m Hm. inversion Hm as [| |? ? ? a Ha Hma| | |]; subst; [by left|right; by exists a].
    + intros m a Ha Hm. by apply (occurs_OpExpr _ _ _ _ a).
  - apply (flagged_nary (T_FuncExpr f) args mc); [| |done|by apply (mutate_list_with_ok _ (tableoid_constified chunk_index chunk_relid))].
    + intros m Hm. inversion Hm as [| | |? ? a Ha Hma| |]; subst; [by left|right; by exists a].
    + intros m a Ha Hm. by apply (occurs_FuncExpr _ _ _ a).
  - apply (flagged_unary T_RelabelType e mc); [| |done|by intros ? ? ->|apply IH].
    + intros m Hm. inversion Hm; subst; [by left|by right].
    + intros m Hm. by apply occurs_RelabelType.
  - apply (flagged_nary (T_Aggref f) args mc); [| |done|by apply (mutate_list_with_ok _ (tableoid_constified chunk_index chunk_relid))].
    + intros m Hm. inversion Hm as [| | | | |? ? a Ha Hma]; subst; [by left|right; by exists a].
    + intros m a Ha Hm. by apply (occurs_Aggref _ _ _ a).
Qed.

Lemma constify_tableoid_entry_ok target :
  forall mc,
    flagged_mutator_ok (tableoid_constified_entry chunk_index chunk_relid target)
      (fun t => has_unsupported_system_column chunk_index (expr t))
      (fun t => has_chunk_tableoid chunk_index (expr t)) target mc
      (Exec.constify_tableoid_entry chunk_index chunk_relid target mc).
Proof.
  intros mc. unfold Exec.constify_tableoid_entry.
  pose proof (constify_tableoid_walker_ok (expr target) mc) as H.
  destruct (Exec.constify_tableoid_walker chunk_index chunk_relid (expr target) mc)
    as [[e mc']|code msg]; simpl in *; [|done].
  destruct H as (-> & Hmc & Hch & Hbad). split_and!; [done| |done|done].
  intros H. destruct (Hmc H) as [H0 He]. split; [done|]. rewrite He. by destruct target.
Qed.

Lemma tableoid_constified_clean n :
  ~ has_chunk_tableoid chunk_index (tableoid_constified chunk_index chunk_relid n).
Proof.
  induction n as [varno attno ty|ct cv cn|pid|e IH|o f args IH|f args IH|e IH|f args IH]
    using Node_nested_ind; simpl; intros (ty' & Hocc).
  - destruct (decide (_ /\ _)) as [|Hne]; inversion Hocc; subst. by apply Hne.
  - inversion Hocc.
  - inversion Hocc.
  - inversion Hocc; subst. apply IH. by exists ty'.
  - inversion Hocc as [| |? ? ? a Ha Hma| | |]; subst.
    apply list_elem_of_fmap in Ha as (b & -> & Hb). rewrite Forall_forall in IH.
    apply (IH b); [by apply list_elem_of_In|by exists ty'].
  - inversion Hocc as [| | |? ? a Ha Hma| |]; subst.
    apply list_elem_of_fmap in Ha as (b & -> & Hb). rewrite Forall_forall in IH.
    apply (IH b); [by apply list_elem_of_In|by exists ty'].
  - inversion Hocc; subst. apply IH. by exists ty'.
  - inversion Hocc as [| | | | |? ? a Ha Hma]; subst.
    apply list_elem_of_fmap in Ha as (b & -> & Hb). rewrite Forall_forall in IH.
    apply (IH b); [by apply list_elem_of_In|by exists ty'].
Qed.

Lemma map_id_on {A} (g : A -> A) (l : list A) :
  Forall (fun x => g x = x) l -> map g l = l.
Proof. induction 1 as [|x l Hx _ IH]; simpl; [done|]. by rewrite Hx, IH. Qed.

Lemma tableoid_constified_id n :
  ~ has_chunk_tableoid chunk_index n -> tableoid_constified chunk_index chunk_relid n = n.
Proof.
  induction n as [varno attno ty|ct cv cn|pid|e IH|o f args IH|f args IH|e IH|f args IH]
    using Node_nested_ind; simpl; intros Hno; try done.
  - destruct (decide (_ /\ _)) as [[-> ->]|]; [|done]. exfalso. apply Hno. exists ty. constructor.
  - rewrite IH; [done|]. intros (ty' & Hocc). apply Hno. exists ty'.
    by apply occurs_PlaceHolderVar.
  - rewrite map_id_on; [done|]. rewrite Forall_forall in IH |- *. intros a Ha. apply (IH a Ha).
    intros (ty' & Hocc). apply Hno. exists ty'.
    eapply occurs_OpExpr; [|exact Hocc]. by apply list_elem_of_In.
  - rewrite map_id_on; [done|]. rewrite Forall_forall in IH |- *. intros a Ha. apply (IH a Ha).
    intros (ty' & Hocc). apply Hno. exists ty'.
    eapply occurs_FuncExpr; [|exact Hocc]. by apply list_elem_of_In.
  - rewrite IH; [done|]. intros (ty' & Hocc). apply Hno. exists ty'.
    by apply occurs_RelabelType.
  - rewrite map_id_on; [done|]. rewrite Forall_forall in IH |- *. intros a Ha. apply (IH a Ha).
    intros (ty' & Hocc). apply Hno. exists ty'.
    eapply occurs_Aggref; [|exact Hocc]. by apply list_elem_of_In.
Qed.

End Constify.

(** X12. [constify_tableoid] raises exactly when a system column of the chunk
    below [ctid] other than [tableoid] occurs in the targetlist. Otherwise
    its result is the targetlist with every [tableoid] of the chunk replaced
    by the constant with the chunk's object identifier and every [resno]
    kept: no [tableoid] of the chunk is left, and a targetlist without one
    is returned as it is. The [made_changes] flag is not observable. *)
Theorem constify_tableoid_replaces_tableoid (tlist : list TargetEntry) (chunk_index : Z)
    (chunk_relid : Oid) :
  match Exec.constify_tableoid tlist chunk_index chunk_relid with
  | Ok tlist' =>
      tlist' = tableoid_constified_entry chunk_index chunk_relid <$> tlist /\
      (forall target, target ∈ tlist ->
         ~ has_unsupported_system_column chunk_index (expr target)) /\
      (forall target, target ∈ tlist' -> ~ has_chunk_tableoid chunk_index (expr target)) /\
      ((forall target, target ∈ tlist -> ~ has_chunk_tableoid chunk_index (expr target)) ->
       tlist' = tlist)
  | Raise code msg =>
      code = ERRCODE_INTERNAL_ERROR /\
      msg = "transparent decompression only supports tableoid system column"%string /\
      exists target, target ∈ tlist /\
                     has_unsupported_system_column chunk_index (expr target)
  end.
Proof.
  unfold Exec.constify_tableoid.
  pose proof (mutate_list_with_ok
                (Exec.constify_tableoid_entry chunk_index chunk_relid)
                (tableoid_constified_entry chunk_index chunk_relid) _ _ tlist
                (proj2 (Forall_forall _ _)
                   (fun t _ => constify_tableoid_entry_ok chunk_index chunk_relid t)) false) as H.
  destruct (Exec.mutate_list_with _ tlist false) as [[modified made_changes]|code msg];
    simpl in *.
  - destruct H as (-> & Hmc & Hch & Hbad).
    assert (Hres : (if made_changes
                    then Ok (map (tableoid_constified_entry chunk_index chunk_relid) tlist)
                    else Ok tlist)
                   = Ok (tableoid_constified_entry chunk_index chunk_relid <$> tlist)).
    { destruct made_changes; [done|]. destruct (Hmc eq_refl) as [_ Heq]. f_equal. symmetry.
      exact Heq. }
    rewrite Hres. split_and!; [done| | |].
    + intros target Hin Hb. apply Hbad. apply Exists_exists. exists target.
      split; [by apply list_elem_of_In|done].
    + intros target Hin. apply list_elem_of_fmap in Hin as (t & -> & _). simpl.
      apply tableoid_constified_clean.
    + intros Hno. apply map_id_on. apply Forall_forall. intros t Ht.
      unfold tableoid_constified_entry. rewrite tableoid_constified_id; [by destruct t|].
      apply Hno. by apply list_elem_of_In.
  - destruct H as (-> & -> & Hex). split_and!; [done|done|].
    apply Exists_exists in Hex as (t & Ht & Hb). exists t. split; [by apply list_elem_of_In|done].
Qed.

(** ** The partial sum over a compressed column *)

Lemma wrap_signed_64_id z : PG_INT64_MIN <= z <= PG_INT64_MAX -> wrap_signed 64 z = z.
Proof.
  unfold wrap_signed, PG_INT64_MIN, PG_INT64_MAX. intros Hz.
  rewrite Z.mod_small; lia.
Qed.

(* The loop over the rows [l] from the accumulator [acc]. *)
Lemma sum_arrow_loop (arrow : ArrowArray) (l : list Z) (acc : Z) :
  Z.abs acc + Z.of_nat (length l) * 2 ^ 31 <= 2 ^ 63 - 1 ->
  foldl (fun batch_sum i =>
           let arrow_isnull := negb (Exec.arrow_row_is_valid (buffers0 arrow) i) in
           if negb arrow_isnull then
             let arrow_value := wrap_signed 32 (buffers1 arrow !!! Z.to_nat i) in
             wrap_signed 64 (batch_sum + arrow_value)
           else batch_sum) acc l
  = acc + sum_list (omap (arrow_valid_value arrow) l) /\
  Z.abs (sum_list (omap (arrow_valid_value arrow) l)) <= Z.of_nat (length l) * 2 ^ 31.
Proof.
  set (body := fun (batch_sum i : Z) =>
           let arrow_isnull := negb (Exec.arrow_row_is_valid (buffers0 arrow) i) in
           if negb arrow_isnull then
             let arrow_value := wrap_signed 32 (buffers1 arrow !!! Z.to_nat i) in
             wrap_signed 64 (batch_sum + arrow_value)
           else batch_sum).
  assert (Hbody : forall a i, body a i = match arrow_valid_value arrow i with
                                         | Some v => wrap_signed 64 (a + v)
                                         | None => a
                                         end).
  { intros a i. unfold body, arrow_valid_value.
    by destruct (Exec.arrow_row_is_valid (buffers0 arrow) i). }
  revert acc. induction l as [|i l IH]; intros acc Hacc.
  - simpl. lia.
  - simpl foldl. rewrite Hbody.
    assert (Homap : omap (arrow_valid_value arrow) (i :: l)
                    = match arrow_valid_value arrow i with
                      | Some v => v :: omap (arrow_valid_value arrow) l
                      | None => omap (arrow_valid_value arrow) l
                      end) by reflexivity.
    rewrite Homap. clear Homap.
    simpl length in Hacc. rewrite Nat2Z.inj_succ in Hacc.
    simpl length. rewrite Nat2Z.inj_succ.
    destruct (arrow_valid_value arrow i) as [v|] eqn:Hv.
    + assert (Hrange : - 2 ^ 31 <= v <= 2 ^ 31 - 1).
      { unfold arrow_valid_value in Hv.
        destruct (Exec.arrow_row_is_valid (buffers0 arrow) i); [|discriminate].
        injection Hv as <-.
        pose proof (wrap_signed_32_range (buffers1 arrow !!! Z.to_nat i)) as Hr.
        unfold PG_INT32_MIN, PG_INT32_MAX in Hr. exact Hr. }
      rewrite wrap_signed_64_id by (unfold PG_INT64_MIN, PG_INT64_MAX; lia).
      destruct (IH (acc + v)) as [Heq Hbound]; [lia|].
      rewrite Heq.
      change (sum_list (v :: omap (arrow_valid_value arrow) l))
        with (v + sum_list (omap (arrow_valid_value arrow) l)).
      lia.
    + destruct (IH acc) as [Heq Hbound]; [lia|]. rewrite Heq. lia.
Qed.

Lemma sum_arrow_values_no_wrap (arrow : ArrowArray) :
  arrow_length arrow <= PG_INT32_MAX ->
  Exec.sum_arrow_values arrow = sum_list (arrow_valid_values arrow) /\
  Z.abs (Exec.sum_arrow_values arrow) <= Z.max 0 (arrow_length arrow) * 2 ^ 31.
Proof.
  intros Hlen.
  destruct (sum_arrow_loop arrow (seqZ 0 (arrow_length arrow)) 0) as [Heq Hbound].
  { rewrite length_seqZ. unfold PG_INT32_MAX in Hlen. simpl Z.abs. lia. }
  assert (Hsum : Exec.sum_arrow_values arrow = sum_list (arrow_valid_values arrow)).
  { unfold arrow_valid_values. rewrite <- (Z.add_0_l (sum_list _)). exact Heq. }
  split; [exact Hsum|]. rewrite Hsum. unfold arrow_valid_values.
  rewrite length_seqZ in Hbound. lia.
Qed.

(** X13. The additions inside a batch need no overflow check: for a
    decompressed column whose rows the [int] counter of the loop can count
    (a batch has at most 1000)
    the 64 bit sum of the loop is the exact sum of the 32 bit values of the
    rows that are not null, and its absolute value is at most the number of
    rows times [2 ^ 31]. *)
Theorem sum_arrow_values_is_exact (arrow : ArrowArray) :
  arrow_length arrow <= PG_INT32_MAX ->
  Exec.sum_arrow_values arrow = sum_list (arrow_valid_values arrow) /\
  Z.abs (Exec.sum_arrow_values arrow) <= Z.max 0 (arrow_length arrow) * 2 ^ 31 /\
  PG_INT64_MIN <= Exec.sum_arrow_values arrow <= PG_INT64_MAX.
Proof.
  intros Hlen. destruct (sum_arrow_values_no_wrap arrow Hlen) as [Heq Hbound].
  split; [done|]. split; [done|]. unfold PG_INT64_MIN, PG_INT64_MAX, PG_INT32_MAX in *. lia.
Qed.

Lemma sum_arrow_values_is_exact_witness :
  Exec.sum_arrow_values MoreExamples.example_arrow = -2 /\
  arrow_valid_values MoreExamples.example_arrow = [7; -9].
Proof.
  assert (Hlen : arrow_length MoreExamples.example_arrow <= PG_INT32_MAX)
    by (vm_compute; discriminate).
  destruct (sum_arrow_values_is_exact MoreExamples.example_arrow Hlen) as (Hsum & _).
  split; [rewrite Hsum; vm_compute; reflexivity|vm_compute; reflexivity].
Defined.

Lemma sum_compressed_batches_from cat column rows :
  Forall (decompresses cat column) rows ->
  forall calls isnull acc,
    Exec.sum_compressed_batches cat column rows calls isnull acc =
    let sums := omap (batch_sum cat column) rows in
    if forallb in_int64 (running_sums acc sums)
    then Ok (Exec.mkSum (Exec.mkChild [] (S (calls + length rows)))
               (isnull && bool_decide (rows = [])) (acc + sum_list sums))
    else Raise ERRCODE_NUMERIC_VALUE_OUT_OF_RANGE "bigint out of range".
Proof.
  induction 1 as [|slot rows (arrow & Harrow & Hlen) _ IH]; intros calls isnull acc.
  - simpl. rewrite andb_true_r, Z.add_0_r, Nat.add_0_r. done.
  - cbv zeta.
    assert (Homap : omap (batch_sum cat column) (slot :: rows)
                    = sum_list (arrow_valid_values arrow) :: omap (batch_sum cat column) rows).
    { change (omap (batch_sum cat column) (slot :: rows))
        with (match batch_sum cat column slot with
              | Some s => s :: omap (batch_sum cat column) rows
              | None => omap (batch_sum cat column) rows
              end).
      unfold batch_sum at 1. by rewrite Harrow. }
    rewrite Homap. clear Homap.
    change (running_sums acc (sum_list (arrow_valid_values arrow)
                              :: omap (batch_sum cat column) rows))
      with ((acc + sum_list (arrow_valid_values arrow))
            :: running_sums (acc + sum_list (arrow_valid_values arrow))
                 (omap (batch_sum cat column) rows)).
    change (sum_list (sum_list (arrow_valid_values arrow) :: omap (batch_sum cat column) rows))
      with (sum_list (arrow_valid_values arrow) + sum_list (omap (batch_sum cat column) rows)).
    change (length (slot :: rows)) with (S (length rows)).
    rewrite bool_decide_eq_false_2 by done. rewrite andb_false_r.
    change (forallb in_int64 (?x :: ?l)) with (in_int64 x && forallb in_int64 l).
    simpl Exec.sum_compressed_batches. unfold batch_arrow in Harrow.
    destruct (Exec.slot_getattr slot (Exec.compressed_scan_attno column))
      as [[[bits|header] [|]]|] eqn:Ev; try discriminate.
    simpl.
    destruct (tsl_get_decompress_all_function cat (compression_algorithm header))
      as [decompress_all|]; [|discriminate].
    injection Harrow as Harrow. rewrite Harrow. simpl.
    destruct (sum_arrow_values_no_wrap arrow Hlen) as [-> _].
    unfold pg_add_s64_overflow.
    destruct (in_int64 (acc + _)) eqn:Hin; simpl; [|done].
    rewrite IH. cbv zeta. rewrite Z.add_assoc, Nat.add_succ_r. reflexivity.
Qed.

(** X14. For SUM(int4) over a compressed column every batch adds the sum of
    the values of its rows that are not null to the 64 bit accumulator. The
    query ends with a numeric-range error exactly when a running sum over the
    batches leaves the range of a 64 bit integer; otherwise the child is read
    to its end, with one [ExecProcNode] call per batch and one more, the
    result is the sum of the batch sums, and it is null only when there was
    no batch. *)
Theorem sum_int4_compressed_adds_batch_sums (cat : Catalog)
    (column : Exec.DecompressChunkColumnDescription) (rows : list Exec.CompressedSlot)
    (calls : nat) :
  Forall (decompresses cat column) rows ->
  let sums := omap (batch_sum cat column) rows in
  let sum := Exec.sum_compressed_batches cat column rows calls true 0 in
  length sums = length rows /\
  (Forall (fun s => PG_INT64_MIN <= s <= PG_INT64_MAX) (running_sums 0 sums) ->
   sum = Ok (Exec.mkSum (Exec.mkChild [] (S (calls + length rows)))
               (bool_decide (rows = [])) (sum_list sums))) /\
  (~ Forall (fun s => PG_INT64_MIN <= s <= PG_INT64_MAX) (running_sums 0 sums) ->
   sum = Raise ERRCODE_NUMERIC_VALUE_OUT_OF_RANGE "bigint out of range").
Proof.
  intros Hrows sums sum.
  assert (Hdec : forallb in_int64 (running_sums 0 sums) = true <->
                 Forall (fun s => PG_INT64_MIN <= s <= PG_INT64_MAX) (running_sums 0 sums)).
  { rewrite forallb_forall, List.Forall_forall. split; intros H x Hx.
    - specialize (H x Hx).
      unfold in_int64 in H. apply andb_true_iff in H as [H1 H2]. lia.
    - specialize (H x Hx).
      unfold in_int64. apply andb_true_iff. split; apply Z.leb_le; lia. }
  assert (Hsum : sum =
            if forallb in_int64 (running_sums 0 sums)
            then Ok (Exec.mkSum (Exec.mkChild [] (S (calls + length rows)))
                       (bool_decide (rows = [])) (sum_list sums))
            else Raise ERRCODE_NUMERIC_VALUE_OUT_OF_RANGE "bigint out of range").
  { subst sum. rewrite (sum_compressed_batches_from _ _ _ Hrows). reflexivity. }
  split; [|split].
  - subst sums. clear -Hrows. induction Hrows as [|slot rows (arrow & Harrow & _) _ IH];
      [done|].
    change (omap (batch_sum cat column) (slot :: rows))
      with (match batch_sum cat column slot with
            | Some s => s :: omap (batch_sum cat column) rows
            | None => omap (batch_sum cat column) rows
            end).
    unfold batch_sum at 1. rewrite Harrow. simpl fmap. cbv iota.
    change (length (?x :: ?l)) with (S (length l)). by rewrite IH.
  - intros H. apply Hdec in H. rewrite Hsum, H. done.
  - intros H. rewrite Hsum. destruct (forallb in_int64 _); [|done].
    exfalso. by apply H, Hdec.
Qed.

Lemma sum_int4_compressed_adds_batch_sums_witness :
  Exec.sum_compressed_batches Examples.example_catalog
    (Exec.mkColumn Exec.COMPRESSED_COLUMN 23 4 3 3 true)
    [Examples.example_batch None (Some [3; 5; 7; 8; -9]) (Some 3);
     Examples.example_batch None (Some [1; 1; 40]) (Some 1)] 0 true 0
  = Ok (Exec.mkSum (Exec.mkChild [] 3) false 38).
Proof.
  assert (Hrows : Forall (decompresses Examples.example_catalog
                            (Exec.mkColumn Exec.COMPRESSED_COLUMN 23 4 3 3 true))
                    [Examples.example_batch None (Some [3; 5; 7; 8; -9]) (Some 3);
                     Examples.example_batch None (Some [1; 1; 40]) (Some 1)]).
  { apply Forall_cons; [|apply Forall_cons; [|apply Forall_nil]];
      (eexists; split; [vm_compute; reflexivity|vm_compute; discriminate]). }
  pose proof (sum_int4_compressed_adds_batch_sums Examples.example_catalog
                (Exec.mkColumn Exec.COMPRESSED_COLUMN 23 4 3 3 true)
                [Examples.example_batch None (Some [3; 5; 7; 8; -9]) (Some 3);
                 Examples.example_batch None (Some [1; 1; 40]) (Some 1)] 0%nat Hrows) as Hthm.
  cbv zeta in Hthm. destruct Hthm as (_ & Hok & _).
  rewrite Hok; [vm_compute; reflexivity|].
  assert (Hsums : omap (batch_sum Examples.example_catalog
                          (Exec.mkColumn Exec.COMPRESSED_COLUMN 23 4 3 3 true))
                    [Examples.example_batch None (Some [3; 5; 7; 8; -9]) (Some 3);
                     Examples.example_batch None (Some [1; 1; 40]) (Some 1)] = [-2; 40])
    by (vm_compute; reflexivity).
  rewrite Hsums. simpl running_sums.
  repeat apply Forall_cons; try apply Forall_nil; unfold PG_INT64_MIN, PG_INT64_MAX; lia.
Defined.

(** ** One tuple per aggregation *)

Lemma free_slot_is_taken (unused : Bitmapset) (x : Z) :
  x ∈ unused -> 0 <= x ->
  Exec.bms_num_members (Exec.batch_array_get_free_slot unused).2
  < Exec.bms_num_members unused.
Proof.
  intros Hx Hpos. unfold Exec.batch_array_get_free_slot, Exec.bms_num_members. simpl.
  set (next := bms_next_member unused (-1)).
  assert (Hnext : next ∈ unused).
  { destruct (bms_next_member_found unused (-1)) as [Hnone|[Hin _]]; [|done].
    pose proof (bms_next_member_least unused (-1) x ltac:(lia) Hx ltac:(lia)) as Hl.
    fold next in Hl, Hnone. lia. }
  set (rest := remove_dups (filter (fun i => i ≠ next) unused)).
  assert (Hsub : next :: rest ⊆+ remove_dups unused).
  { apply NoDup_submseteq.
    - constructor; [|apply NoDup_remove_dups].
      subst rest. rewrite elem_of_remove_dups, list_elem_of_filter. tauto.
    - intros y Hy. apply elem_of_remove_dups.
      apply elem_of_cons in Hy as [->|Hy]; [done|].
      subst rest. rewrite elem_of_remove_dups, list_elem_of_filter in Hy. tauto. }
  apply submseteq_length in Hsub. simpl in Hsub. lia.
Qed.

Section OneShot.
Context {Q : Type}.
Variable cat : Catalog.
Variable ex : Exec.Executor Q.

Lemma ExecCustomScan_aggregated st :
  aggregated st ->
  Exec.ExecCustomScan cat ex st
  = Ok (Some (Exec.ExecClearTuple (Exec.ss_ScanTupleSlot st)),
        Exec.set_running st (Exec.ExecClearTuple (Exec.ss_ScanTupleSlot st))
          (Exec.custom_ps st) (Exec.unused_batch_states st) (Exec.queue st)).
Proof.
  intros (Hagg & [kind Hkind] & Hused).
  unfold Exec.ExecCustomScan. rewrite Hkind.
  assert (Himpl : forall bq,
             Exec.decompress_chunk_exec_impl cat ex st bq
             = Ok (Some (Exec.ExecClearTuple (Exec.ss_ScanTupleSlot st)),
                   Exec.set_running st (Exec.ExecClearTuple (Exec.ss_ScanTupleSlot st))
                     (Exec.custom_ps st) (Exec.unused_batch_states st) (Exec.queue st))).
  { intros bq. unfold Exec.decompress_chunk_exec_impl. rewrite Hagg.
    unfold Exec.perform_vectorized_aggregation_impl. by rewrite decide_True by done. }
  destruct kind; apply Himpl.
Qed.

Lemma exec_many_aggregated n :
  forall st, aggregated st ->
    exists st',
      Exec.exec_many cat ex n st
      = Ok (replicate n (Some (Exec.ExecClearTuple (Exec.ss_ScanTupleSlot st))), st') /\
      Exec.custom_ps st' = Exec.custom_ps st.
Proof.
  induction n as [|n IH]; intros st Hst; simpl.
  - by exists st.
  - rewrite (ExecCustomScan_aggregated st Hst). simpl.
    set (st1 := Exec.set_running st _ _ _ _).
    destruct (IH st1) as (st' & Hmany & Hps).
    { destruct Hst as (Hagg & Hkind & Hused). by repeat split. }
    rewrite Hmany. simpl. exists st'. split; [|done].
    by destruct (Exec.ss_ScanTupleSlot st).
Qed.

End OneShot.

(** X15. A node that aggregates produces one tuple: after an initialisation
    with a queue that has at least one batch state, the first call that
    returns gives a tuple that is not empty, and every later call returns
    the cleared scan tuple slot and leaves the child alone. *)
Theorem vectorized_aggregation_emits_one_tuple {Q : Type} (cat : Catalog) (pf : Exec.Platform)
    (guc : Planner.GUC) (ex : Exec.Executor Q) (node : Exec.DecompressChunkState Q)
    (child : Exec.ChildScan) (st st1 : Exec.DecompressChunkState Q)
    (slot : option Exec.TupleTableSlot) :
  Exec.decompress_chunk_begin cat pf guc ex node child = Ok st ->
  Exec.perform_vectorized_aggregation node = true ->
  0 < Exec.batch_capacity
        (Exec.queue_functions ex
           (if Exec.batch_sorted_merge node
            then Exec.BatchQueueFunctionsHeap else Exec.BatchQueueFunctionsFifo)) ->
  Exec.ExecCustomScan cat ex st = Ok (slot, st1) ->
  exists tuple,
    slot = Some tuple /\ Exec.tts_empty tuple = false /\
    forall n, exists st',
      Exec.exec_many cat ex n st1 = Ok (replicate n (Some (Exec.ExecClearTuple tuple)), st') /\
      Exec.TupIsNull (Some (Exec.ExecClearTuple tuple)) = true /\
      Exec.custom_ps st' = Exec.custom_ps st1.
Proof.
  intros Hbegin Hagg Hcap Hexec.
  apply decompress_chunk_begin_Ok in Hbegin as (tb & flag & constified & _ & _ & _ & ->).
  set (kind := if Exec.batch_sorted_merge node
               then Exec.BatchQueueFunctionsHeap else Exec.BatchQueueFunctionsFifo) in *.
  set (cap := Exec.batch_capacity (Exec.queue_functions ex kind)) in *.
  set (st := Exec.set_initialised _ _ _ _ _ _ _ _ _ _ _) in *.
  assert (Hfull : Exec.bms_num_members (Exec.unused_batch_states st) = Exec.n_batch_states st).
  { subst st. simpl. apply bms_num_members_batch_array_create. fold cap. lia. }
  assert (Himpl : forall bq, Exec.decompress_chunk_exec_impl cat ex st bq = Ok (slot, st1) ->
            exists tuple,
              slot = Some tuple /\ Exec.tts_empty tuple = false /\
              Exec.ss_ScanTupleSlot st1 = tuple /\ aggregated st1).
  { intros bq H. unfold Exec.decompress_chunk_exec_impl in H.
    change (Exec.perform_vectorized_aggregation st) with (Exec.perform_vectorized_aggregation node)
      in H.
    rewrite Hagg in H. apply bind_Ok in H as ([tuple st2] & H & Heq).
    injection Heq as <- <-.
    unfold Exec.perform_vectorized_aggregation_impl in H.
    rewrite decide_False in H by (intros Hne; by apply Hne).
    destruct (Exec.custom_scan_tlist st) as [|[[] ?] ?]; try discriminate.
    destruct (decide (aggfnoid = F_SUM_INT4)); [|discriminate].
    unfold Exec.perform_vectorized_sum_int4 in H.
    destruct (Exec.batch_array_get_free_slot (Exec.unused_batch_states st))
      as [new_batch_index unused] eqn:Hslot.
    destruct (Exec.custom_ps st) as [|c others]; [discriminate|].
    apply bind_Ok in H as (sum & _ & H). injection H as <- <-.
    eexists. split; [reflexivity|]. split; [reflexivity|]. split; [reflexivity|].
    split; [exact Hagg|]. split; [by eexists|].
    assert (H0 : 0 ∈ Exec.unused_batch_states st) by (apply elem_of_seqZ; lia).
    pose proof (free_slot_is_taken (Exec.unused_batch_states st) 0 H0 ltac:(lia)) as Hlt.
    rewrite Hslot, Hfull in Hlt. exact (Z.lt_neq _ _ Hlt). }
  assert (Hst1 : exists tuple,
              slot = Some tuple /\ Exec.tts_empty tuple = false /\
              Exec.ss_ScanTupleSlot st1 = tuple /\ aggregated st1).
  { unfold Exec.ExecCustomScan in Hexec.
    change (Exec.batch_queue st) with (Some kind) in Hexec.
    destruct kind; by eapply Himpl. }
  destruct Hst1 as (tuple & -> & Hempty & Hslot & Hst1).
  exists tuple. split; [done|]. split; [done|]. intros n.
  destruct (exec_many_aggregated cat ex n st1 Hst1) as (st' & Hmany & Hps).
  exists st'. rewrite Hmany, Hslot. done.
Qed.

Lemma vectorized_aggregation_emits_one_tuple_witness :
  exists st st1 st',
    Exec.decompress_chunk_begin Examples.example_catalog Examples.x86_64 Examples.example_guc
      Examples.example_executor MoreExamples.example_sum_node
      (Exec.mkChild [Examples.example_batch (Some 3) None (Some 1000)] 0) = Ok st /\
    Exec.ExecCustomScan Examples.example_catalog Examples.example_executor st
    = Ok (Some (Exec.mkSlot false [3000] [false]), st1) /\
    Exec.exec_many Examples.example_catalog Examples.example_executor 2 st1
    = Ok ([Some (Exec.mkSlot true [3000] [false]); Some (Exec.mkSlot true [3000] [false])], st').
Proof.
  assert (Hbegin : Exec.decompress_chunk_begin Examples.example_catalog Examples.x86_64
                     Examples.example_guc Examples.example_executor
                     MoreExamples.example_sum_node
                     (Exec.mkChild [Examples.example_batch (Some 3) None (Some 1000)] 0) = Ok _)
    by (vm_compute; reflexivity).
  assert (Hagg : Exec.perform_vectorized_aggregation MoreExamples.example_sum_node = true)
    by (vm_compute; reflexivity).
  assert (Hcap : 0 < Exec.batch_capacity
                       (Exec.queue_functions Examples.example_executor
                          (if Exec.batch_sorted_merge MoreExamples.example_sum_node
                           then Exec.BatchQueueFunctionsHeap
                           else Exec.BatchQueueFunctionsFifo)))
    by (vm_compute; reflexivity).
  assert (Hexec : exists st1,
             Exec.ExecCustomScan Examples.example_catalog Examples.example_executor
               ltac:(match type of Hbegin with _ = Ok ?st => exact st end)
             = Ok (Some (Exec.mkSlot false [3000] [false]), st1))
    by (eexists; vm_compute; reflexivity).
  destruct Hexec as (st1 & Hexec).
  destruct (vectorized_aggregation_emits_one_tuple Examples.example_catalog Examples.x86_64
              Examples.example_guc Examples.example_executor MoreExamples.example_sum_node
              (Exec.mkChild [Examples.example_batch (Some 3) None (Some 1000)] 0)
              _ _ _ Hbegin Hagg Hcap Hexec) as (tuple & Htuple & _ & Hlater).
  injection Htuple as <-.
  destruct (Hlater 2%nat) as (st' & Hmany & _).
  eexists. exists st1, st'. split; [exact Hbegin|]. split; [exact Hexec|exact Hmany].
Defined.

(** ** Feeding the queue, and rescans *)

(** X16. The loop of [decompress_chunk_exec_impl] that feeds the queue reads
    a batch from the child only when the queue asks for one, and pushes every
    batch it reads, in order: when it returns, the first [k] batches of the
    child have been pushed, the child still has the others, and the queue
    asked for a batch before each push. If the queue still asks for a batch
    afterwards, the child is at its end and was called once more. *)
Theorem feed_queue_reads_what_the_queue_needs {Q : Type} (batch_queue : Exec.BatchQueueFunctions Q)
    (rows : list Exec.CompressedSlot) :
  forall (q : Q) (calls : nat) (q' : Q) (child' : Exec.ChildScan),
    Exec.feed_queue batch_queue q rows calls = Ok (q', child') ->
    exists k : nat,
      (k <= length rows)%nat /\
      foreach (Exec.push_batch batch_queue) (take k rows) q = Ok q' /\
      Exec.pending child' = drop k rows /\
      (forall j qj, (j < k)%nat ->
         foreach (Exec.push_batch batch_queue) (take j rows) q = Ok qj ->
         Exec.needs_next_batch batch_queue qj = true) /\
      (if Exec.needs_next_batch batch_queue q'
       then k = length rows /\ Exec.exec_calls child' = S (calls + k)
       else Exec.exec_calls child' = (calls + k)%nat).
Proof.
  induction rows as [|slot rest IH]; intros q calls q' child' H.
  - exists 0%nat. simpl in H.
    destruct (Exec.needs_next_batch batch_queue q) eqn:Hneeds; injection H as <- <-;
      rewrite Hneeds; simpl.
    + split_and!; [lia|done|done|intros; lia|done|f_equal; lia].
    + split_and!; [lia|done|done|intros; lia|lia].
  - simpl in H. destruct (Exec.needs_next_batch batch_queue q) eqn:Hneeds.
    + apply bind_Ok in H as (q1 & Hpush & H).
      destruct (IH q1 (S calls) q' child' H) as (k & Hk & Hall & Hpending & Hasked & Hcalls).
      exists (S k). simpl. rewrite Hpush. simpl. split_and!; [lia|done|done| |].
      * intros [|j] qj Hj Hqj; simpl in Hqj.
        -- by injection Hqj as <-.
        -- rewrite Hpush in Hqj. simpl in Hqj. apply (Hasked j); [lia|done].
      * destruct (Exec.needs_next_batch batch_queue q').
        -- destruct Hcalls as [-> ->]. split; [done|]. f_equal. lia.
        -- rewrite Hcalls. lia.
    + injection H as <- <-. exists 0%nat. rewrite Hneeds. simpl.
      split_and!; [lia|done|done|intros; lia|lia].
Qed.

Lemma feed_queue_reads_what_the_queue_needs_witness :
  exists k : nat,
    foreach (Exec.push_batch Examples.example_queue)
      (take k [Examples.example_batch (Some 1) None (Some 1);
               Examples.example_batch (Some 2) None (Some 1)]) []
    = Ok [Examples.example_row (Examples.example_batch (Some 1) None (Some 1))] /\
    drop k [Examples.example_batch (Some 1) None (Some 1);
            Examples.example_batch (Some 2) None (Some 1)]
    = [Examples.example_batch (Some 2) None (Some 1)].
Proof.
  assert (H : Exec.feed_queue Examples.example_queue []
                [Examples.example_batch (Some 1) None (Some 1);
                 Examples.example_batch (Some 2) None (Some 1)] 0
              = Ok ([Examples.example_row (Examples.example_batch (Some 1) None (Some 1))],
                    Exec.mkChild [Examples.example_batch (Some 2) None (Some 1)] 1))
    by (vm_compute; reflexivity).
  destruct (feed_queue_reads_what_the_queue_needs Examples.example_queue
              [Examples.example_batch (Some 1) None (Some 1);
               Examples.example_batch (Some 2) None (Some 1)] [] 0%nat _ _ H)
    as (k & _ & Hpushed & Hpending & _).
  exists k. split; [exact Hpushed|]. symmetry. exact Hpending.
Defined.

(** [batch_array_free_at] on a range of batch states. *)
Lemma elem_of_free_range (indices unused : list Z) (x : Z) :
  x ∈ foldl Exec.batch_array_free_at unused indices <-> x ∈ unused \/ x ∈ indices.
Proof.
  revert unused. induction indices as [|i indices IH]; intros unused; simpl.
  - rewrite elem_of_nil. tauto.
  - rewrite IH. unfold Exec.batch_array_free_at, bms_add_member, bms_is_member.
    rewrite elem_of_cons. case_bool_decide as Hi.
    + split; [tauto|]. intros [?|[->|?]]; tauto.
    + rewrite elem_of_cons. tauto.
Qed.

Lemma bms_num_members_range (a : list Z) (n : Z) :
  0 <= n -> (forall x, x ∈ a <-> 0 <= x < n) -> Exec.bms_num_members a = n.
Proof.
  intros Hn Ha. unfold Exec.bms_num_members.
  assert (Hperm : remove_dups a ≡ₚ seqZ 0 n).
  { apply NoDup_Permutation; [apply NoDup_remove_dups|apply NoDup_seqZ|].
    intros x. rewrite elem_of_remove_dups, elem_of_seqZ, Ha. lia. }
  rewrite Hperm, length_seqZ. lia.
Qed.

(** X17. After [decompress_chunk_rescan] every batch state is unused again,
    as the function asserts, provided that the unused batch states were
    among those of the node before; the queue has been reset and the child
    rescanned, and nothing else has changed. *)
Theorem rescan_frees_every_batch_state {Q : Type} (ex : Exec.Executor Q)
    (ExecReScan : Exec.ChildScan -> Exec.ChildScan) (st st' : Exec.DecompressChunkState Q) :
  0 <= Exec.n_batch_states st ->
  (forall x, x ∈ Exec.unused_batch_states st -> 0 <= x < Exec.n_batch_states st) ->
  Exec.decompress_chunk_rescan ex ExecReScan st = Ok st' ->
  Exec.bms_num_members (Exec.unused_batch_states st') = Exec.n_batch_states st' /\
  (forall x, x ∈ Exec.unused_batch_states st' <-> 0 <= x < Exec.n_batch_states st') /\
  (exists kind q child others,
      Exec.batch_queue st = Some kind /\ Exec.queue st = Some q /\
      Exec.custom_ps st = child :: others /\
      Exec.queue st' = Some (Exec.reset (Exec.queue_functions ex kind) q) /\
      Exec.custom_ps st' = ExecReScan child :: others) /\
  st' = Exec.set_running st (Exec.ss_ScanTupleSlot st) (Exec.custom_ps st')
          (Exec.unused_batch_states st') (Exec.queue st').
Proof.
  intros Hn Hunused H. unfold Exec.decompress_chunk_rescan in H.
  destruct (Exec.batch_queue st) as [kind|] eqn:Hkind; [|discriminate].
  destruct (Exec.queue st) as [q|] eqn:Hq; [|discriminate].
  destruct (Exec.custom_ps st) as [|child others] eqn:Hps; [discriminate|].
  injection H as <-. simpl.
  assert (Hmem : forall x,
             x ∈ foldl Exec.batch_array_free_at (Exec.unused_batch_states st)
                   (seqZ 0 (Exec.n_batch_states st))
             <-> 0 <= x < Exec.n_batch_states st).
  { intros x. rewrite elem_of_free_range, elem_of_seqZ. split; [|lia].
    intros [Hx|Hx]; [by apply Hunused|lia]. }
  split_and!; [|done| |done].
  - by apply bms_num_members_range.
  - by exists kind, q, child, others.
Qed.

Lemma rescan_frees_every_batch_state_witness :
  exists st st1 st',
    Exec.decompress_chunk_begin Examples.example_catalog Examples.x86_64 Examples.example_guc
      Examples.example_executor MoreExamples.example_sum_node
      (Exec.mkChild [Examples.example_batch (Some 3) None (Some 1000)] 0) = Ok st /\
    Exec.ExecCustomScan Examples.example_catalog Examples.example_executor st
    = Ok (Some (Exec.mkSlot false [3000] [false]), st1) /\
    Exec.bms_num_members (Exec.unused_batch_states st1) = 0 /\
    Exec.decompress_chunk_rescan Examples.example_executor
      (fun _ => Exec.mkChild [Examples.example_batch (Some 3) None (Some 1000)] 0) st1 = Ok st' /\
    Exec.bms_num_members (Exec.unused_batch_states st') = Exec.n_batch_states st'.
Proof.
  assert (Hbegin : Exec.decompress_chunk_begin Examples.example_catalog Examples.x86_64
                     Examples.example_guc Examples.example_executor
                     MoreExamples.example_sum_node
                     (Exec.mkChild [Examples.example_batch (Some 3) None (Some 1000)] 0) = Ok _)
    by (vm_compute; reflexivity).
  assert (Hexec : Exec.ExecCustomScan Examples.example_catalog Examples.example_executor
                    ltac:(match type of Hbegin with _ = Ok ?st => exact st end)
                  = Ok (Some (Exec.mkSlot false [3000] [false]), _))
    by (vm_compute; reflexivity).
  match type of Hexec with
  | _ = Ok (_, ?st1) =>
      assert (Hnone : Exec.bms_num_members (Exec.unused_batch_states st1) = 0)
        by (vm_compute; reflexivity);
      assert (Hn : 0 <= Exec.n_batch_states st1) by (vm_compute; discriminate);
      assert (Hempty : Exec.unused_batch_states st1 = []) by (vm_compute; reflexivity);
      assert (Hunused : forall x, x ∈ Exec.unused_batch_states st1 ->
                                  0 <= x < Exec.n_batch_states st1)
        by (intros x Hx; rewrite Hempty in Hx; apply elem_of_nil in Hx; destruct Hx);
      assert (Hrescan : Exec.decompress_chunk_rescan Examples.example_executor
                          (fun _ => Exec.mkChild
                                      [Examples.example_batch (Some 3) None (Some 1000)] 0)
                          st1 = Ok _)
        by (vm_compute; reflexivity)
  end.
  eexists. eexists. eexists. split; [exact Hbegin|]. split; [exact Hexec|].
  split; [exact Hnone|]. split; [exact Hrescan|].
  exact (proj1 (rescan_frees_every_batch_state Examples.example_executor
                  (fun _ => Exec.mkChild [Examples.example_batch (Some 3) None (Some 1000)] 0)
                  _ _ Hn Hunused Hrescan)).
Defined.
